(** * Counterfactual latent search and its dataset builder

    A shallow embedding of

    - [src/transformers/utils/gen_xfactuals.py] ([gen_counterfactual]), and
    - [examples/pytorch/language-modeling/train_clm_with_xfacts.py]
      ([group_texts], the perplexity report of
      [train_with_prepped_dataset], and [_gen_xfacts]; then the checks of
      [parse_args], [_load_dataset], the block size of [_train_lm], the
      loops of [train_with_prepped_dataset] and [_measure_ppl]).

    Python objects live in a store: a tensor is a reference into a finite
    map, so that the in-place updates of the optimizer and the sharing of
    one tensor between several calls are visible.  The entries of the
    tensors and the losses of the search are floating-point numbers in
    the program; they are idealised here as exact rationals, without
    rounding.  The perplexity report, which turns on the overflow of
    [math.exp], has Python floats with their infinities and NaN.  The
    probe's forward pass, the default loss and reverse-mode
    differentiation are parameters of the development: the program uses
    them as opaque differentiable functions. *)

From Stdlib Require Import QArith Qround ZArith Lia Ascii.
From stdpp Require Import base option list gmap strings.

Local Open Scope nat_scope.

(** ** Tensors *)

(** A dense, contiguous, row-major tensor: its shape and its flat data. *)
Record tensor (A : Type) := Tensor { shape : list nat; data : list A }.
Arguments Tensor {A} _ _.
Arguments shape {A} _.
Arguments data {A} _.

(** Number of elements of a shape. *)
Definition numel (sh : list nat) : nat := foldr Nat.mul 1 sh.

Definition with_data {A} (t : tensor A) (d : list A) : tensor A :=
  Tensor (shape t) d.

Definition zeros_like (t : tensor Q) : tensor Q :=
  Tensor (shape t) (map (fun _ => 0%Q) (data t)).

(** [a.add_(b, alpha=alpha)]: in place on [a], so the result has [a]'s shape. *)
Definition add_ (a : tensor Q) (alpha : Q) (b : tensor Q) : tensor Q :=
  Tensor (shape a) (zip_with (fun x y => (x + alpha * y)%Q) (data a) (data b)).

(** [a.mul_(c)] *)
Definition mul_ (a : tensor Q) (c : Q) : tensor Q :=
  Tensor (shape a) (map (fun x => (x * c)%Q) (data a)).

(** ** The store *)

Definition loc := positive.

(** A [torch.Tensor] object: its value, its [.grad] and [.requires_grad]. *)
Record tensor_obj := TensorObj {
  t_val : tensor Q;
  t_grad : option (tensor Q);
  t_requires_grad : bool
}.

(** A [torch.nn.Module] object: its [training] flag and its parameters,
    which are tensor objects of the store. *)
Record module_obj := ModuleObj {
  training : bool;
  parameters : list loc
}.

Record state := State {
  tensors : gmap loc tensor_obj;
  modules : gmap loc module_obj
}.

Definition set_val (v : tensor Q) (o : tensor_obj) : tensor_obj :=
  TensorObj v (t_grad o) (t_requires_grad o).

Definition set_requires_grad (b : bool) (o : tensor_obj) : tensor_obj :=
  TensorObj (t_val o) (t_grad o) b.

(** [module.eval()] *)
Definition eval_mode (m : module_obj) : module_obj :=
  ModuleObj false (parameters m).

(** [p.grad.zero_()] when [p.grad] is not [None]. *)
Definition zero_grad_obj (o : tensor_obj) : tensor_obj :=
  TensorObj (t_val o) (zeros_like <$> t_grad o) (t_requires_grad o).

(** Autograd accumulates into [.grad]: it is set when [None], added to
    otherwise; tensors that do not require grad are left alone. *)
Definition accumulate_grad (g : tensor Q) (o : tensor_obj) : tensor_obj :=
  if t_requires_grad o then
    TensorObj (t_val o)
      (Some (match t_grad o with
             | None => g
             | Some g0 => add_ g0 1 g
             end))
      (t_requires_grad o)
  else o.

(** Values of a list of tensor references; [None] on a dangling one. *)
Definition read_vals (ts : gmap loc tensor_obj) (ps : list loc) : option (list (tensor Q)) :=
  mapM (fun p => t_val <$> ts !! p) ps.

(** What the search never changes in a tensor object. *)
Definition meta (o : tensor_obj) : tensor Q * bool := (t_val o, t_requires_grad o).

(** ** Python's [while] with a trailing [break] *)

Section While.
  Context {S : Type}.
  Variable cond : S -> bool.
  Variable body : S -> option S.
  (** [brk] is the test of the [if ...: break] that ends the body. *)
  Variable brk : S -> bool.

Fixpoint while (fuel : nat) (s : S) : option S :=
  if cond s then
    match fuel with
    | O => None
    | Datatypes.S fuel' =>
        match body s with
        | None => None
        | Some s' => if brk s' then Some s' else while fuel' s'
        end
    end
  else Some s.

(** [n] executions of the body, whatever the tests say. *)
Fixpoint iter_body (n : nat) (s : S) : option S :=
  match n with
  | O => Some s
  | Datatypes.S n' =>
      match body s with
      | None => None
      | Some s' => iter_body n' s'
      end
  end.

End While.

(** ** [gen_counterfactual] *)

(** [a < b] on rationals, as a boolean. *)
Definition Qltb (a b : Q) : bool := negb (Qle_bool b a).

(** The numeric constants that [gen_counterfactual] fixes in its body. *)
Record constants := Constants {
  lr : Q;
  momentum : Q;
  stopping_loss : Q;
  max_patience : Z;
  max_num_steps : Z
}.

(** Lines 11, 16, 19 and 20 of [gen_xfactuals.py]. *)
Definition source_constants : constants :=
  {| lr := 0.01; momentum := 0.9; stopping_loss := 0.001;
     max_patience := 10000; max_num_steps := 100 |}.

(** The local variables of [gen_counterfactual] that the loop updates;
    [momentum_buffer] is the state that the SGD optimizer keeps for its
    only parameter. *)
Record locals := Locals {
  num_steps : Z;
  loss : Q;
  curr_patience : Z;
  min_loss : Q;
  momentum_buffer : option (tensor Q)
}.

(** Lines 15 to 22: the locals before the loop. *)
Definition initial_locals : locals :=
  {| num_steps := 0; loss := 100; curr_patience := 0; min_loss := 100;
     momentum_buffer := None |}.

(** Lines 33 to 36: the patience counter and the running minimum. *)
Definition update_patience (l : Q) (patience : Z) (minl : Q) : Z * Q :=
  let patience := (patience + 1)%Z in
  if Qltb l (minl - 0.01) then (0%Z, l) else (patience, minl).

(** The new momentum buffer of [optim.SGD] (dampening 0, no Nesterov):
    the gradient at the first step, [momentum * buf + grad] afterwards. *)
Definition next_buffer (c : constants) (buf : option (tensor Q)) (d_p : tensor Q) : tensor Q :=
  match buf with
  | None => d_p
  | Some b => add_ (mul_ b (momentum c)) 1 d_p
  end.

Section Search.
  (** Reverse-mode differentiation: [partial f x i] is the partial
      derivative of the scalar function [f] at the point [x] along the
      [i]-th coordinate. *)
  Variable partial : (list Q -> Q) -> list Q -> nat -> Q.
  (** The probe's forward pass, from its [training] flag, the values of
      its parameters and its input to the logits. *)
  Variable forward : bool -> list (tensor Q) -> tensor Q -> tensor Q.
  (** [nn.CrossEntropyLoss()], the default criterion. *)
  Variable CrossEntropyLoss : tensor Q -> tensor Z -> Q.

(** The gradient of [f] with respect to the entries of [t]; it has the
    shape of [t]. *)
Definition grad_like (t : tensor Q) (f : list Q -> Q) : tensor Q :=
  Tensor (shape t) (map (partial f (data t)) (seq 0 (length (data t)))).

  Section Call.
    Variable c : constants.
    Variable criterion : tensor Q -> tensor Z -> Q.
    Variables z_prime probe : loc.
    Variable s_prime : tensor Z.

(** [criterion(probe(z), s_prime)] as a function of the parameter values
    and of the input. *)
Definition loss_of (tr : bool) (pvals : list (tensor Q)) (zval : tensor Q) : Q :=
  criterion (forward tr pvals zval) s_prime.

(** The gradient of the loss with respect to the input. *)
Definition input_grad (tr : bool) (pvals : list (tensor Q)) (zval : tensor Q) : tensor Q :=
  grad_like zval (fun d => loss_of tr pvals (with_data zval d)).

(** The gradient of the loss with respect to the [j]-th parameter. *)
Definition param_grad (tr : bool) (pvals : list (tensor Q)) (zval : tensor Q)
    (j : nat) (pv : tensor Q) : tensor Q :=
  grad_like pv (fun d => loss_of tr (<[j := with_data pv d]> pvals) zval).

(** [loss.backward()]: the gradient with respect to [z_prime] and to each
    parameter of the probe is accumulated into its [.grad]. *)
Definition backward (tr : bool) (ps : list loc) (pvals : list (tensor Q))
    (zval : tensor Q) (ts : gmap loc tensor_obj) : gmap loc tensor_obj :=
  let ts1 := alter (accumulate_grad (input_grad tr pvals zval)) z_prime ts in
  foldr (fun jp acc =>
           match pvals !! jp.1 with
           | Some pv => alter (accumulate_grad (param_grad tr pvals zval jp.1 pv)) jp.2 acc
           | None => acc
           end)
        ts1 (zip (seq 0 (length ps)) ps).

(** [optimizer.step()] for the parameter list [[z_prime]]: a parameter
    without gradient is skipped. *)
Definition sgd_step (buf : option (tensor Q)) (ts : gmap loc tensor_obj)
    : gmap loc tensor_obj * option (tensor Q) :=
  match ts !! z_prime ≫= t_grad with
  | None => (ts, buf)
  | Some d_p =>
      let buf' := next_buffer c buf d_p in
      (alter (fun o => set_val (add_ (t_val o) (- lr c) buf') o) z_prime ts, Some buf')
  end.

(** The loop test of line 24. *)
Definition loop_test (l : locals) : bool :=
  (num_steps l <? max_num_steps c)%Z && Qltb (stopping_loss c) (loss l).

(** The test of line 37, on the locals that the body leaves. *)
Definition patience_exceeded (l : locals) : bool :=
  (max_patience c <? curr_patience l)%Z.

(** Lines 25 to 36: one iteration of the loop (the [print] calls have no
    effect on the store and are left out). *)
Definition loop_body (sl : state * locals) : option (state * locals) :=
  let '(st, l) := sl in
  (* optimizer.zero_grad() *)
  let ts0 := alter zero_grad_obj z_prime (tensors st) in
  zo ← ts0 !! z_prime;
  m ← modules st !! probe;
  pvals ← read_vals ts0 (parameters m);
  (* outputs = probe(z_prime); loss = criterion(outputs, s_prime) *)
  let loss := loss_of (training m) pvals (t_val zo) in
  (* loss.backward() *)
  let ts1 := backward (training m) (parameters m) pvals (t_val zo) ts0 in
  (* optimizer.step() *)
  let '(ts2, buf) := sgd_step (momentum_buffer l) ts1 in
  let '(patience, minl) := update_patience loss (curr_patience l) (min_loss l) in
  Some (State ts2 (modules st),
        {| num_steps := (num_steps l + 1)%Z; loss := loss;
           curr_patience := patience; min_loss := minl;
           momentum_buffer := buf |}).

(** Lines 7, 8 and 23: [z_prime.requires_grad = True] and [probe.eval()];
    both objects must exist. *)
Definition prepare (st : state) : option state :=
  _ ← tensors st !! z_prime;
  _ ← modules st !! probe;
  Some (State (alter (set_requires_grad true) z_prime (tensors st))
              (alter eval_mode probe (modules st))).

(** The whole call, with the final locals kept for inspection.  The loop
    runs at most [max_num_steps] times, which is the fuel. *)
Definition search_run (st : state) : option (state * locals) :=
  st0 ← prepare st;
  while (fun sl => loop_test sl.2) loop_body (fun sl => patience_exceeded sl.2)
    (Z.to_nat (max_num_steps c)) (st0, initial_locals).

(** One iteration seen from the tensor alone: logits and loss on the
    current value, the gradient with respect to it, one momentum-SGD
    update of it, and the bookkeeping of the locals.  The probe is in
    evaluation mode. *)
Definition kernel_step (pvals : list (tensor Q)) (zl : tensor Q * locals)
    : tensor Q * locals :=
  let '(zval, l) := zl in
  let loss := loss_of false pvals zval in
  let buf := next_buffer c (momentum_buffer l) (input_grad false pvals zval) in
  let '(patience, minl) := update_patience loss (curr_patience l) (min_loss l) in
  (add_ zval (- lr c) buf,
   {| num_steps := (num_steps l + 1)%Z; loss := loss;
      curr_patience := patience; min_loss := minl;
      momentum_buffer := Some buf |}).

(** [n] iterations seen from the tensor alone. *)
Fixpoint kernel_iter (pvals : list (tensor Q)) (n : nat) (zl : tensor Q * locals)
    : tensor Q * locals :=
  match n with
  | O => zl
  | Datatypes.S n' => kernel_iter pvals n' (kernel_step pvals zl)
  end.

(** The locals after [k] iterations from the initial ones. *)
Definition locals_at (pvals : list (tensor Q)) (zval : tensor Q) (k : nat) : locals :=
  (kernel_iter pvals k (zval, initial_locals)).2.

(** [n] is where the loop leaves: the test held and the patience was not
    exceeded before, and one of them ends the loop at [n]. *)
Definition leaves_at (pvals : list (tensor Q)) (zval : tensor Q) (n : nat) : Prop :=
  (forall j, j < n -> loop_test (locals_at pvals zval j) = true) /\
  (forall j, 0 < j < n -> patience_exceeded (locals_at pvals zval j) = false) /\
  (loop_test (locals_at pvals zval n) = false
   \/ (0 < n /\ patience_exceeded (locals_at pvals zval n) = true)).

  End Call.

(** [gen_counterfactual(z, probe, s_prime, criterion=None)] returns
    [z_prime], which is [z] itself (line 7). *)
Definition gen_counterfactual_with (c : constants) (z probe : loc) (s_prime : tensor Z)
    (criterion : option (tensor Q -> tensor Z -> Q)) (st : state) : option (state * loc) :=
  let z_prime := z in
  let criterion := default CrossEntropyLoss criterion in
  sl ← search_run c criterion z_prime probe s_prime st;
  Some (sl.1, z_prime).

Definition gen_counterfactual := gen_counterfactual_with source_constants.

End Search.

(** A gradient stored on a tensor has the shape of the tensor. *)
Definition grad_ok (o : tensor_obj) : bool :=
  match t_grad o with
  | None => true
  | Some g =>
      bool_decide (shape g = shape (t_val o))
      && (length (data g) =? length (data (t_val o)))
  end.

(** What a caller must supply: the tensor and the probe exist, the
    probe's parameters exist and the tensor is not one of them, and a
    gradient already stored on the tensor has the tensor's shape. *)
Definition valid_call (st : state) (z probe : loc) : bool :=
  match tensors st !! z, modules st !! probe with
  | Some zo, Some m =>
      forallb (fun p => bool_decide (is_Some (tensors st !! p)) && negb (Pos.eqb p z))
              (parameters m)
      && grad_ok zo
  | _, _ => false
  end.

(** The value of a tensor of the store, the empty tensor when dangling. *)
Definition val_at (st : state) (z : loc) : tensor Q :=
  default (Tensor [] []) (t_val <$> tensors st !! z).

(** The values of the parameters of a module of the store. *)
Definition param_vals (st : state) (probe : loc) : list (tensor Q) :=
  default [] (m ← modules st !! probe; read_vals (tensors st) (parameters m)).

(** The invariant of the loop of [gen_counterfactual]: what [valid_call]
    asks, after [z_prime.requires_grad = True] and [probe.eval()]. *)
Definition call_inv (z probe : loc) (sl : state * locals) : Prop :=
  exists zo m,
    tensors sl.1 !! z = Some zo /\ t_requires_grad zo = true /\ grad_ok zo = true /\
    (forall b, momentum_buffer sl.2 = Some b ->
               length (data b) = length (data (t_val zo))) /\
    modules sl.1 !! probe = Some m /\ training m = false /\
    Forall (fun p => is_Some (tensors sl.1 !! p) /\ p <> z) (parameters m).

(** ** Views and the tensor operations of [_gen_xfacts] *)

(** A view of a tensor of the store: a window of consecutive elements of
    its data, read with a shape of its own.  A view shares the storage of
    its base: what it holds is read from the store when it is used. *)
Record view := View { v_base : loc; v_offset : nat; v_shape : list nat }.

Definition read_view (st : state) (v : view) : option (tensor Q) :=
  o ← tensors st !! v_base v;
  Some (Tensor (v_shape v)
          (take (numel (v_shape v)) (drop (v_offset v) (data (t_val o))))).

(** [torch.squeeze(t, dim=0)]: a view of [t] without its first dimension
    when that is 1, with the shape of [t] otherwise. *)
Definition squeeze0_shape (sh : list nat) : list nat :=
  match sh with
  | 1 :: rest => rest
  | _ => sh
  end.

Definition squeeze0 (st : state) (t : loc) : option view :=
  o ← tensors st !! t;
  Some (View t 0 (squeeze0_shape (shape (t_val o)))).

(** [v[:-1, :]]: all but the last index of the first dimension; an
    [IndexError] on a tensor with fewer than two dimensions. *)
Definition drop_last_row (v : view) : option view :=
  match v_shape v with
  | d0 :: d1 :: rest => Some (View (v_base v) (v_offset v) ((d0 - 1) :: d1 :: rest))
  | _ => None
  end.

(** [v.contiguous()] returns [v] itself when it is contiguous, which the
    windows of this model are. *)
Definition contiguous (v : view) : view := v.

(** The token ids are never written: they are handled as values.
    [t.view((-1, 1))] *)
Definition view_column {A} (t : tensor A) : tensor A :=
  Tensor [numel (shape t); 1] (data t).

(** [t[1:, ...]] *)
Definition drop_first_row {A} (t : tensor A) : option (tensor A) :=
  match shape t with
  | d0 :: rest => Some (Tensor ((d0 - 1) :: rest) (drop (numel rest) (data t)))
  | [] => None
  end.

(** [torch.atleast_2d] on shapes. *)
Definition atleast_2d (sh : list nat) : list nat :=
  match sh with
  | [] => [1; 1]
  | [n] => [1; n]
  | _ => sh
  end.

(** [torch.vstack]: concatenation along the first dimension of tensors
    that agree on the other ones; an error on the empty list. *)
Definition vstack {A} (ts : list (tensor A)) : option (tensor A) :=
  match ts with
  | [] => None
  | t0 :: _ =>
      let rest := tail (atleast_2d (shape t0)) in
      if forallb (fun t => bool_decide (tail (atleast_2d (shape t)) = rest)) ts
      then Some (Tensor (sum_list (map (fun t => hd 0 (atleast_2d (shape t))) ts) :: rest)
                   (concat (map data ts)))
      else None
  end.

(** [t[i]] for [i] in [range(t.size(0))]. *)
Definition rows {A} (t : tensor A) : list (tensor A) :=
  let rest := tail (shape t) in
  map (fun i => Tensor rest (take (numel rest) (drop (i * numel rest) (data t))))
      (seq 0 (hd 0 (shape t))).

(** [TensorDataset(a, b)]: item [i] is [(a[i], b[i])]; the constructor
    asserts that the first dimensions agree. *)
Definition TensorDataset {A B} (a : tensor A) (b : tensor B)
    : option (list (tensor A * tensor B)) :=
  match shape a, shape b with
  | n :: _, m :: _ => if decide (n = m) then Some (zip (rows a) (rows b)) else None
  | _, _ => None
  end.

(** ** [_gen_xfacts] *)

(** A collated batch: its token ids, of shape (batch size, length). *)
Record batch := Batch { input_ids : tensor Z }.

(** The variables that the loops of [_gen_xfacts] update. *)
Record caches := Caches {
  completed_steps : Z;
  cached_input_ids : list (tensor Z);
  cached_z_primes : list view
}.

(** [module.train()] *)
Definition train_mode (m : module_obj) : module_obj :=
  ModuleObj true (parameters m).

(** A new tensor object holding [v], as [.detach()] returns one: no
    gradient, [requires_grad] unset. *)
Definition new_tensor (v : tensor Q) (st : state) : state * loc :=
  let l := fresh (dom (tensors st)) in
  (State (<[l := TensorObj v None false]> (tensors st)) (modules st), l).

Section Builder.
  Variable partial : (list Q -> Q) -> list Q -> nat -> Q.
  Variable forward : bool -> list (tensor Q) -> tensor Q -> tensor Q.
  Variable CrossEntropyLoss : tensor Q -> tensor Z -> Q.
  (** [probed_model( **batch).hidden_states[-1]] under [no_grad]. *)
  Variable last_hidden_states : batch -> tensor Q.
  (** [probed_model.classifier.classifier] and [args.max_train_steps]. *)
  Variable probe : loc.
  Variable max_train_steps : Z.

(** Lines 563 to 583: the loop over the target classes, for one batch. *)
Fixpoint targets_loop (targets : list Z) (hidden_states : loc) (b : batch)
    (st : state) (cs : caches) : option (state * caches) :=
  match targets with
  | [] => Some (st, cs)
  | targ_s :: targets' =>
      let s_prime := Tensor [1] [targ_s] in
      sz ← gen_counterfactual partial forward CrossEntropyLoss
             hidden_states probe s_prime None st;
      let '(st1, z_prime) := sz in
      squeezed_z ← squeeze0 st1 z_prime;
      shifted_z ← contiguous <$> drop_last_row squeezed_z;
      let labels := view_column (input_ids b) in
      shifted_labels ← drop_first_row labels;
      let cs1 := {| completed_steps := completed_steps cs + 1;
                    cached_input_ids := cached_input_ids cs ++ [shifted_labels];
                    cached_z_primes := cached_z_primes cs ++ [shifted_z] |} in
      if (max_train_steps <=? completed_steps cs1)%Z then Some (st1, cs1)
      else targets_loop targets' hidden_states b st1 cs1
  end.

(** Lines 557 to 585: the loop over the batches. *)
Fixpoint batches_loop (batches : list batch) (st : state) (cs : caches)
    : option (state * caches) :=
  match batches with
  | [] => Some (st, cs)
  | b :: batches' =>
      let '(st0, hidden_states) := new_tensor (last_hidden_states b) st in
      sc ← targets_loop [0; 1; 2]%Z hidden_states b st0 cs;
      let '(st1, cs1) := sc in
      if (max_train_steps <=? completed_steps cs1)%Z then Some (st1, cs1)
      else batches_loop batches' st1 cs1
  end.

(** Lines 552 to 589, on the batches in the order in which the data loader
    yields them. *)
Definition _gen_xfacts (batches : list batch) (st : state)
    : option (state * list (tensor Q * tensor Z)) :=
  (* probed_model.train() *)
  let st0 := State (tensors st) (alter train_mode probe (modules st)) in
  sc ← batches_loop batches st0
         {| completed_steps := 0; cached_input_ids := []; cached_z_primes := [] |};
  let '(st1, cs) := sc in
  z_primes ← mapM (read_view st1) (cached_z_primes cs);
  stacked_z_primes ← vstack z_primes;
  stacked_input_ids ← vstack (cached_input_ids cs);
  xfact_dataset ← TensorDataset stacked_z_primes stacked_input_ids;
  Some (st1, xfact_dataset).

End Builder.

(** The pairs that next-token alignment asks of one example: for each
    position [i] but the last, the hidden state at [i] with the token at
    [i + 1].  [zv] has shape (1, length, hidden size). *)
Definition next_token_pairs (zv : tensor Q) (ids : tensor Z)
    : list (tensor Q * tensor Z) :=
  match shape zv with
  | [_; len; hidden] =>
      map (fun i => (Tensor [hidden] (take hidden (drop (i * hidden) (data zv))),
                     Tensor [1] (take 1 (drop (i + 1) (data ids)))))
          (seq 0 (len - 1))
  | _ => []
  end.

(** A batch of one example whose hidden states have [hidden] columns. *)
Definition unit_batch (last_hidden_states : batch -> tensor Q) (hidden : nat)
    (b : batch) : Prop :=
  exists len,
    shape (input_ids b) = [1; len] /\ length (data (input_ids b)) = len /\
    shape (last_hidden_states b) = [1; len; hidden] /\
    length (data (last_hidden_states b)) = len * hidden.

(** The view and the labels that one search of [_gen_xfacts] caches for a
    batch of one example. *)
Definition shifted_view (len hidden : nat) (h : loc) : view :=
  View h 0 [len - 1; hidden].

Definition shifted_ids (len : nat) (b : batch) : tensor Z :=
  Tensor [len - 1; 1] (drop 1 (data (input_ids b))).

(** The caches after [k] more searches on the tensor [h] of the batch [b]. *)
Definition caches_after (cs : caches) (k : nat) (len hidden : nat) (h : loc) (b : batch)
    : caches :=
  {| completed_steps := completed_steps cs + Z.of_nat k;
     cached_input_ids := cached_input_ids cs ++ replicate k (shifted_ids len b);
     cached_z_primes := cached_z_primes cs ++ replicate k (shifted_view len hidden h) |}.

(** [k] searches in a row on the same tensor, for the classes [targets]:
    each starts from the store that the one before left. *)
Fixpoint chained_searches
    (partial : (list Q -> Q) -> list Q -> nat -> Q)
    (forward : bool -> list (tensor Q) -> tensor Q -> tensor Q)
    (CrossEntropyLoss : tensor Q -> tensor Z -> Q)
    (probe h : loc) (targets : list Z) (st : state) : option state :=
  match targets with
  | [] => Some st
  | targ_s :: targets' =>
      sz ← gen_counterfactual partial forward CrossEntropyLoss h probe
             (Tensor [1] [targ_s]) None st;
      chained_searches partial forward CrossEntropyLoss probe h targets' sz.1
  end.

(** The length of the example of a batch. *)
Definition seq_len (b : batch) : nat := default 0 (shape (input_ids b) !! 1).

(** The caches after the searches [exec], each given by the tensor it
    worked on and its batch. *)
Definition caches_extend (hidden : nat) (cs : caches) (exec : list (loc * batch)) : caches :=
  {| completed_steps := completed_steps cs + Z.of_nat (length exec);
     cached_input_ids :=
       cached_input_ids cs ++ map (fun hb => shifted_ids (seq_len hb.2) hb.2) exec;
     cached_z_primes :=
       cached_z_primes cs ++ map (fun hb => shifted_view (seq_len hb.2) hidden hb.1) exec |}.

(** The probe is a module of the store and its parameters are tensors of
    the store. *)
Definition probe_ok (st : state) (probe : loc) : Prop :=
  exists m, modules st !! probe = Some m /\
            Forall (fun p => is_Some (tensors st !! p)) (parameters m).

(** How many of the searches of [targets] run before the budget
    [max_train_steps] ends the loop: at least one, and no more than the
    budget leaves. *)
Definition searches_run (max_train_steps : Z) (targets : list Z) (cs : caches) : nat :=
  Nat.min (length targets) (Z.to_nat (Z.max 1 (max_train_steps - completed_steps cs))).

(** ** Exceptions *)

Inductive exn :=
  | IndexError | KeyError | ZeroDivisionError | ValueError | OverflowError | RuntimeError.

(** What a Python expression gives: a value or a raised exception. *)
Inductive outcome (A : Type) :=
  | Ok (a : A)
  | Raise (e : exn).
Arguments Ok {A} _.
Arguments Raise {A} _.

#[global] Instance outcome_ret : MRet outcome := fun A a => Ok a.

#[global] Instance outcome_bind : MBind outcome := fun A B f m =>
  match m with
  | Ok a => f a
  | Raise e => Raise e
  end.

(** ** [group_texts] *)

(** A Python [dict] with string keys, in insertion order.  [d[k]] *)
Fixpoint dict_get {V} (k : string) (d : list (string * V)) : option V :=
  match d with
  | [] => None
  | (k', v) :: d' => if String.eqb k' k then Some v else dict_get k d'
  end.

Definition dict_lookup {V} (k : string) (d : list (string * V)) : outcome V :=
  match dict_get k d with
  | Some v => Ok v
  | None => Raise KeyError
  end.

(** [d[k] = v]: in place when the key is there, at the end otherwise. *)
Fixpoint dict_set {V} (k : string) (v : V) (d : list (string * V)) : list (string * V) :=
  match d with
  | [] => [(k, v)]
  | (k', v') :: d' => if String.eqb k' k then (k, v) :: d' else (k', v') :: dict_set k v d'
  end.

(** [list(d.keys())[0]], with its value. *)
Definition first_item {V} (d : list (string * V)) : outcome (string * V) :=
  match d with
  | [] => Raise IndexError
  | kv :: _ => Ok kv
  end.

(** [a // b] *)
Definition floordiv (a b : Z) : outcome Z :=
  if (b =? 0)%Z then Raise ZeroDivisionError else Ok (a / b)%Z.

(** [range(0, stop, step)] *)
Definition range_from_0 (stop step : Z) : outcome (list Z) :=
  if (step =? 0)%Z then Raise ValueError
  else
    let count :=
      if (0 <? step)%Z then ((stop + step - 1) / step)%Z
      else ((- stop - step - 1) / (- step))%Z in
    Ok (map (fun j => (Z.of_nat j * step)%Z) (seq 0 (Z.to_nat count))).

(** [t[i : j]] for [0 <= i] and [0 <= j]. *)
Definition slice {A} (t : list A) (i j : Z) : list A :=
  take (Z.to_nat (j - i)) (drop (Z.to_nat i) t).

(** Lines 285 to 299, for the [block_size] given to [get_group_text_fn]. *)
Definition group_texts (block_size : Z) (examples : list (string * list (list Z)))
    : outcome (list (string * list (list Z))) :=
  let concatenated_examples := map (fun kv => (kv.1, concat kv.2)) examples in
  first ← first_item concatenated_examples;
  let total_length := Z.of_nat (length first.2) in
  total_length ←
    (if (block_size <=? total_length)%Z
     then q ← floordiv total_length block_size; Ok (q * block_size)%Z
     else Ok total_length);
  starts ← range_from_0 total_length block_size;
  let result :=
    map (fun kt => (kt.1, map (fun i => slice kt.2 i (i + block_size)) starts))
        concatenated_examples in
  (* result["labels"] = result["input_ids"].copy() *)
  chunks ← dict_lookup "input_ids" result;
  Ok (dict_set "labels" chunks result).

(** ** The perplexity report of [train_with_prepped_dataset] *)

(** A Python float: a finite value, an infinity or NaN. *)
Inductive pyfloat := Finite (q : Q) | PosInf | NegInf | NaN.

Section Perplexity.
  (** The exponential on finite floats: whether [e^x] exceeds the largest
      float, and its rounded value when it does not. *)
  Variable exp_overflows : Q -> bool.
  Variable exp_value : Q -> Q.

(** [math.exp]: a range error on a finite argument is an [OverflowError]. *)
Definition math_exp (x : pyfloat) : outcome pyfloat :=
  match x with
  | Finite q => if exp_overflows q then Raise OverflowError else Ok (Finite (exp_value q))
  | PosInf => Ok PosInf
  | NegInf => Ok (Finite 0)
  | NaN => Ok NaN
  end.

(** [torch.cat] of a list of one-dimensional tensors; an error on []. *)
Definition torch_cat (ts : list (list Q)) : outcome (list Q) :=
  match ts with
  | [] => Raise RuntimeError
  | _ => Ok (concat ts)
  end.

(** [torch.mean]: NaN on an empty tensor. *)
Definition torch_mean (xs : list Q) : pyfloat :=
  match xs with
  | [] => NaN
  | _ => Finite (foldr Qplus 0%Q xs / inject_Z (Z.of_nat (length xs)))
  end.

(** Lines 495 to 500: [losses] are the gathered losses of the evaluation
    batches, [n_eval] is [len(eval_dataset)]. *)
Definition report_perplexity (losses : list (list Q)) (n_eval : nat) : outcome pyfloat :=
  losses ← torch_cat losses;
  let losses := take n_eval losses in
  (* try: perplexity = math.exp(torch.mean(losses))
     except OverflowError: perplexity = float("inf") *)
  match math_exp (torch_mean losses) with
  | Raise OverflowError => Ok PosInf
  | perplexity => perplexity
  end.

End Perplexity.

(** ** The command line *)

(** The exceptions of the command-line checks and of the evaluation
    code, next to the built-in ones above. *)
Inductive error :=
  | Builtin (e : exn)
  | AssertionError
  | AttributeError.

(** What a call gives when it can raise one of them. *)
Inductive attempt (A : Type) :=
  | Done (a : A)
  | Failed (e : error).
Arguments Done {A} _.
Arguments Failed {A} _.

#[global] Instance attempt_ret : MRet attempt := fun A a => Done a.

#[global] Instance attempt_bind : MBind attempt := fun A B f m =>
  match m with
  | Done a => f a
  | Failed e => Failed e
  end.

(** The fields of the [args] namespace that the functions below read.
    [validation_split_percentage] is held as [str] prints it. *)
Record args := Args {
  lm_dataset_name : option string;
  lm_dataset_config_name : option string;
  probe_dataset_name : option string;
  probe_dataset_config_name : option string;
  train_file : option string;
  validation_file : option string;
  validation_split_percentage : string;
  no_keep_linebreaks : bool;
  push_to_hub : bool;
  output_dir : option string;
  block_size : option Z;
  gradient_accumulation_steps : Z;
  max_train_steps : option Z;
  num_train_epochs : Z;
  per_device_eval_batch_size : Z;
  eval_only : bool
}.

(** [s.split(sep)] for a separator of one character. *)
Fixpoint str_split (sep : Ascii.ascii) (s : string) : list string :=
  match s with
  | EmptyString => [EmptyString]
  | String c s' =>
      if Ascii.eqb c sep then EmptyString :: str_split sep s'
      else
        match str_split sep s' with
        | w :: ws => String c w :: ws
        | [] => [String c EmptyString]
        end
  end.

(** [file.split(".")[-1]] *)
Definition extension_of (file : string) : string :=
  default EmptyString (last (str_split "."%char file)).

(** The [assert extension in ["csv", "json", "txt"]] of lines 217 to 222,
    for a file that is given. *)
Definition check_extension (file : option string) : attempt unit :=
  match file with
  | None => Done tt
  | Some f =>
      let extension := extension_of f in
      if bool_decide (extension ∈ ["csv"; "json"; "txt"]) then Done tt
      else Failed AssertionError
  end.

(** Lines 213 to 227 of [parse_args]: the sanity checks on the namespace
    that [parser.parse_args()] returns. *)
Definition parse_args (a : args) : attempt args :=
  if bool_decide (lm_dataset_name a = None) && bool_decide (train_file a = None)
     && bool_decide (validation_file a = None)
  then Failed (Builtin ValueError)
  else
    _ ← check_extension (train_file a);
    _ ← check_extension (validation_file a);
    if push_to_hub a && bool_decide (output_dir a = None) then Failed AssertionError
    else Done a.

(** ** [_load_dataset] *)

Section LoadDataset.
  (** A [datasets.Dataset]. *)
  Context {D : Type}.
  (** [load_dataset(path, name, data_files=..., **dataset_args)], which
      returns the splits by name, and the same call with [split=...], which
      returns one dataset. *)
  Variable load_dataset :
    string -> option string -> option (list (string * string)) -> list (string * bool) ->
    attempt (list (string * D)).
  Variable load_dataset_split :
    string -> option string -> option (list (string * string)) -> string ->
    list (string * bool) -> attempt D.

(** Lines 243 to 253 and 267 to 279: without a validation split, the first
    [validation_split_percentage] percent of the train split are loaded as
    the validation split and the rest as the train split. *)
Definition split_validation (a : args) (path : string) (name : option string)
    (data_files : option (list (string * string))) (dataset_args : list (string * bool))
    (raw_datasets : list (string * D)) : attempt (list (string * D)) :=
  if bool_decide (is_Some (dict_get "validation" raw_datasets)) then Done raw_datasets
  else
    v ← load_dataset_split path name data_files
          ("train[:" +:+ validation_split_percentage a +:+ "%]") dataset_args;
    let raw_datasets := dict_set "validation" v raw_datasets in
    t ← load_dataset_split path name data_files
          ("train[" +:+ validation_split_percentage a +:+ "%:]") dataset_args;
    Done (dict_set "train" t raw_datasets).

(** Lines 230 to 280. *)
Definition _load_dataset (a : args) (dataset_name dataset_config_name : option string)
    (use_file : bool) : attempt (list (string * D)) :=
  match dataset_name, use_file with
  | Some name, false =>
      raw_datasets ← load_dataset name dataset_config_name None [];
      split_validation a name dataset_config_name None [] raw_datasets
  | _, _ =>
      let data_files := [] in
      let data_files :=
        match train_file a with
        | Some f => dict_set "train" f data_files
        | None => data_files
        end in
      let data_files :=
        match validation_file a with
        | Some f => dict_set "validation" f data_files
        | None => data_files
        end in
      (* extension = args.train_file.split(".")[-1] *)
      extension ← match train_file a with
                  | Some f => Done (extension_of f)
                  | None => Failed AttributeError
                  end;
      let '(extension, dataset_args) :=
        if String.eqb extension "txt"
        then ("text", [("keep_linebreaks", negb (no_keep_linebreaks a))])
        else (extension, []) in
      raw_datasets ← load_dataset extension None (Some data_files) dataset_args;
      split_validation a extension None (Some data_files) dataset_args raw_datasets
  end.

(** Lines 692 and 696 of [main]: the two datasets, in this order. *)
Definition load_raw_datasets (a : args)
    : attempt (list (string * D) * list (string * D)) :=
  lm_raw_datasets ← _load_dataset a (lm_dataset_name a) (lm_dataset_config_name a) false;
  probe_raw_datasets ←
    _load_dataset a (probe_dataset_name a) (probe_dataset_config_name a) false;
  Done (lm_raw_datasets, probe_raw_datasets).

End LoadDataset.

(** ** The block size of [_train_lm] *)

(** Lines 322 to 336: the block size, and whether a warning is logged.
    The assignment of line 329 is at the level of the test of line 324,
    not in its branch. *)
Definition lm_block_size (a : args) (model_max_length : Z) : Z * bool :=
  match block_size a with
  | None =>
      let block_size := model_max_length in
      let warning := (1024 <? block_size)%Z in
      let block_size := 1024%Z in
      (block_size, warning)
  | Some args_block_size =>
      let warning := (model_max_length <? args_block_size)%Z in
      (Z.min args_block_size model_max_length, warning)
  end.

(** ** The loops of [train_with_prepped_dataset] *)

(** [math.ceil(a / b)] on integers, the quotient being exact. *)
Definition ceil_div (a b : Z) : outcome Z :=
  if (b =? 0)%Z then Raise ZeroDivisionError
  else Ok (Qceiling (inject_Z a / inject_Z b)).

(** [a % b] *)
Definition py_mod (a b : Z) : outcome Z :=
  if (b =? 0)%Z then Raise ZeroDivisionError else Ok (a mod b)%Z.

(** [range(n)] *)
Definition range (n : Z) : list Z := map Z.of_nat (seq 0 (Z.to_nat n)).

(** Lines 435 to 439: the number of optimizer steps and of epochs, written
    back into [args]. *)
Definition plan_steps (len_train_dataloader : Z) (a : args) : outcome (Z * Z) :=
  num_update_steps_per_epoch ←
    ceil_div len_train_dataloader (gradient_accumulation_steps a);
  match max_train_steps a with
  | None => Ok ((num_train_epochs a * num_update_steps_per_epoch)%Z, num_train_epochs a)
  | Some m =>
      epochs ← ceil_div m num_update_steps_per_epoch;
      Ok (m, epochs)
  end.


(** What the loops do to the model, the optimizer and the log, in order. *)
Inductive event :=
  | Train                          (* probed_model.train() *)
  | Backward (epoch step : Z)      (* the forward and backward passes on a batch *)
  | Update                         (* optimizer.step(), lr_scheduler.step(),
                                      optimizer.zero_grad() *)
  | Eval                           (* probed_model.eval() *)
  | Report (epoch : Z) (perplexity : pyfloat).

Section Training.
  Variable exp_overflows : Q -> bool.
  Variable exp_value : Q -> Q.
  (** The loss of each batch of the evaluation loader, after the events
      that came before. *)
  Variable eval_losses : list event -> list Q.
  (** [accelerator.gather] *)
  Variable gather : list Q -> list Q.
  (** [len(train_dataloader)] and [len(eval_dataset)]. *)
  Variable len_train_dataloader : Z.
  Variable len_eval_dataset : nat.

(** Lines 465 to 478: the batches of one epoch, from [steps] on. *)
Fixpoint train_batches (gradient_accumulation_steps max_train_steps : Z) (epoch : Z)
    (steps : list Z) (completed_steps : Z) (trace : list event)
    : outcome (Z * list event) :=
  match steps with
  | [] => Ok (completed_steps, trace)
  | step :: steps' =>
      let trace := trace ++ [Backward epoch step] in
      r ← py_mod step gradient_accumulation_steps;
      let '(completed_steps, trace) :=
        if (r =? 0)%Z || (step =? len_train_dataloader - 1)%Z
        then ((completed_steps + 1)%Z, trace ++ [Update])
        else (completed_steps, trace) in
      if (max_train_steps <=? completed_steps)%Z then Ok (completed_steps, trace)
      else train_batches gradient_accumulation_steps max_train_steps epoch
             steps' completed_steps trace
  end.

(** Lines 480 to 502: the evaluation that ends an epoch. *)
Definition evaluate (a : args) (epoch : Z) (trace : list event) : outcome (list event) :=
  let trace := trace ++ [Eval] in
  (* loss.repeat(args.per_device_eval_batch_size) *)
  losses ← mapM (M := outcome)
             (fun loss =>
                if (per_device_eval_batch_size a <? 0)%Z then Raise RuntimeError
                else Ok (gather (replicate (Z.to_nat (per_device_eval_batch_size a)) loss)))
             (eval_losses trace);
  perplexity ← report_perplexity exp_overflows exp_value losses len_eval_dataset;
  Ok (trace ++ [Report epoch perplexity]).

(** Lines 462 to 504: the loop over the epochs. *)
Fixpoint epochs_loop (a : args) (max_train_steps : Z) (epochs : list Z)
    (completed_steps : Z) (trace : list event) : outcome (Z * list event) :=
  match epochs with
  | [] => Ok (completed_steps, trace)
  | epoch :: epochs' =>
      '(completed_steps, trace) ←
        (if eval_only a then Ok (completed_steps, trace)
         else train_batches (gradient_accumulation_steps a) max_train_steps epoch
                (range len_train_dataloader) completed_steps (trace ++ [Train]));
      trace ← evaluate a epoch trace;
      if eval_only a then Ok (completed_steps, trace)
      else epochs_loop a max_train_steps epochs' completed_steps trace
  end.

(** Lines 435 to 504: [completed_steps] and the events when the function
    returns. *)
Definition train_with_prepped_dataset (a : args) : outcome (Z * list event) :=
  '(max_train_steps, num_train_epochs) ← plan_steps len_train_dataloader a;
  epochs_loop a max_train_steps (range num_train_epochs) 0 [].

End Training.

(** ** [_measure_ppl] *)

Section Measure.
  (** The characters of Python strings, and [str.isspace] on them. *)
  Context {char : Type} `{EqDecision char}.
  Variable isspace : char -> bool.
  (** [tokenizer.decode] on one token. *)
  Variable decode : Z -> list char.
  (** The logits of the model on a sentence, one row for each position,
      and the cross-entropy of a row against a token. *)
  Context {row : Type}.
  Variable logits : list Z -> list row.
  Variable cross_entropy : row -> Z -> Q.

(** [s.lstrip()] and [s.strip()] *)
Fixpoint lstrip (s : list char) : list char :=
  match s with
  | [] => []
  | c :: s' => if isspace c then lstrip s' else s
  end.

Definition strip (s : list char) : list char :=
  reverse (lstrip (reverse (lstrip s))).

(** [word.startswith(p)] *)
Fixpoint startswith (word p : list char) : bool :=
  match p, word with
  | [], _ => true
  | c :: p', d :: word' => bool_decide (c = d) && startswith word' p'
  | _ :: _, [] => false
  end.

(** Lines 640 to 645: the index that the loop over the tokens of a sentence
    appends, [i] being the position of the first token of [sentence]. *)
Fixpoint find_match (word : list char) (i : Z) (sentence : list Z) : option Z :=
  match sentence with
  | [] => None
  | tok :: sentence' =>
      let decoded := strip (decode tok) in
      if startswith word decoded then Some (i - 1)%Z
      else find_match word (i + 1)%Z sentence'
  end.

(** Lines 638 to 646: the loop over the words and the sentences. *)
Fixpoint special_idxs_loop (pairs : list (list char * list Z)) (special_idxs : list Z)
    : attempt (list Z) :=
  match pairs with
  | [] => Done special_idxs
  | (word, sentence) :: pairs' =>
      match find_match word 0 sentence with
      | Some idx => special_idxs_loop pairs' (special_idxs ++ [idx])
      | None => Failed AssertionError
      end
  end.

(** [t[i]] on a one-dimensional tensor: a negative index counts from the
    end. *)
Definition item {A} (t : list A) (i : Z) : attempt A :=
  let j := if (i <? 0)%Z then (i + Z.of_nat (length t))%Z else i in
  if (j <? 0)%Z then Failed (Builtin IndexError)
  else
    match t !! Z.to_nat j with
    | Some x => Done x
    | None => Failed (Builtin IndexError)
    end.

(** Lines 656 to 659: the surprisal of each token but the first, given the
    tokens before it. *)
Definition surprisals (input_ids : list Z) : attempt (list Q) :=
  let shift_logits := removelast (logits input_ids) in
  let shift_labels := drop 1 input_ids in
  if length shift_logits =? length shift_labels
  then Done (zip_with cross_entropy shift_logits shift_labels)
  else Failed (Builtin ValueError).

(** Lines 649 to 661: the loop over the sentences and their indices. *)
Fixpoint nlls_loop (pairs : list (list Z * Z)) (nlls : list Q) : attempt (list Q) :=
  match pairs with
  | [] => Done nlls
  | (sentence, token_idx) :: pairs' =>
      s ← surprisals sentence;
      x ← item s token_idx;
      nlls_loop pairs' (nlls ++ [x])
  end.

(** Lines 636 to 662, on the lines of [surprisal_tokens.txt] and the token
    ids of the sentences: the list [nlls], whose mean is printed. *)
Definition _measure_ppl (words : list (list char)) (input_ids : list (list Z))
    : attempt (list Q) :=
  special_idxs ← special_idxs_loop (zip words input_ids) [];
  nlls_loop (zip input_ids special_idxs) [].

End Measure.

(** ** Chunks of [group_texts] *)

(** The starts that [range(0, total_length, block_size)] yields in
    [group_texts] when the first column holds [n] tokens in all. *)
Definition chunk_starts (block_size : Z) (n : nat) : list Z :=
  let total_length := Z.of_nat n in
  let total_length :=
    if (block_size <=? total_length)%Z then (total_length / block_size * block_size)%Z
    else total_length in
  let count :=
    if (0 <? block_size)%Z then ((total_length + block_size - 1) / block_size)%Z
    else ((- total_length - block_size - 1) / (- block_size))%Z in
  map (fun j => (Z.of_nat j * block_size)%Z) (seq 0 (Z.to_nat count)).

(** How many they are for a positive block size. *)
Definition chunk_count (block_size : Z) (n : nat) : nat :=
  if (block_size <=? Z.of_nat n)%Z then Z.to_nat (Z.of_nat n / block_size)
  else if n =? 0 then 0 else 1.

(** The keys of a dictionary, in order. *)
Definition keys {V} (d : list (string * V)) : list string := d.*1.

(** ** Counting the optimizer steps *)

(** The number of [Update] events of a trace. *)
Definition updates (trace : list event) : Z :=
  foldr (fun e k => match e with Update => (k + 1)%Z | _ => k end) 0%Z trace.

(** The optimizer steps of an epoch that runs over all its [n] batches:
    one for each multiple of [gradient_accumulation_steps] below [n], and
    one for the last batch when it is not at such a step. *)
Definition updates_per_epoch (gradient_accumulation_steps n : Z) : Z :=
  ((n + gradient_accumulation_steps - 1) / gradient_accumulation_steps
   + (if ((n - 1) mod gradient_accumulation_steps =? 0)%Z then 0 else 1))%Z.

(** [completed_steps] after an epoch that starts with [c], over [n]
    batches. *)
Definition completed_after_epoch (gradient_accumulation_steps max_train_steps n c : Z) : Z :=
  if (n <=? 0)%Z then c
  else if (c <? max_train_steps)%Z
       then Z.min max_train_steps (c + updates_per_epoch gradient_accumulation_steps n)
       else (c + 1)%Z.

(** The grouping of [_train_lm] (line 347): [group_texts] for the block
    size of lines 322 to 336. *)
Definition train_lm_group_texts (a : args) (model_max_length : Z) :=
  group_texts (lm_block_size a model_max_length).1.

(** The perplexity that lines 497 to 500 report for a mean loss. *)
Definition perplexity_of (exp_overflows : Q -> bool) (exp_value : Q -> Q) (mean : pyfloat)
    : pyfloat :=
  match math_exp exp_overflows exp_value mean with
  | Ok perplexity => perplexity
  | Raise _ => PosInf
  end.

(** [sum(xs)] *)
Definition Qsum (xs : list Q) : Q := foldr Qplus 0%Q xs.

(** ** Instances *)

(** Central differences of step 1: the exact partial derivatives of a loss
    that is a polynomial of degree at most 2. *)
Definition central_difference (f : list Q -> Q) (x : list Q) (i : nat) : Q :=
  ((f (alter (fun v => v + 1) i x) - f (alter (fun v => v - 1) i x)) / 2)%Q.

Definition dot (a b : list Q) : Q := foldr Qplus 0%Q (zip_with Qmult a b).

(** A probe with one logit: the dot product of its first parameter and
    its input. *)
Definition linear_probe (tr : bool) (ps : list (tensor Q)) (x : tensor Q) : tensor Q :=
  Tensor [1] [dot (data (default (Tensor [] []) (head ps))) (data x)].

(** Criteria: the squared distance of the logit to the label, the logit
    itself, a loss that never moves and a loss that is met at once. *)
Definition squared_error (out : tensor Q) (s : tensor Z) : Q :=
  let d := (default 0 (head (data out)) - inject_Z (default 0%Z (head (data s))))%Q in
  (d * d)%Q.

Definition first_logit (out : tensor Q) (s : tensor Z) : Q :=
  default 0%Q (head (data out)).



(** A store: the hidden states at 1 (one example, two positions, two
    columns), the probe's parameter at 2, the probe at 3, in training mode. *)
Definition example_state (z0 : Q) : state :=
  State (<[1%positive := TensorObj (Tensor [1; 2; 2] [z0; 2; 0; 3]%Q) None false]>
           (<[2%positive := TensorObj (Tensor [4] [1; 0; 0; 0]%Q) None true]> ∅))
        (<[3%positive := ModuleObj true [2%positive]]> ∅).

(** Another store with the same hidden states and parameter values, at
    other addresses, with a stale gradient on the hidden states, the probe
    in evaluation mode and one more tensor. *)
Definition stale_state : state :=
  State (<[5%positive := TensorObj (Tensor [1; 2; 2] [2; 2; 0; 3]%Q)
                           (Some (Tensor [1; 2; 2] [7; 7; 7; 7]%Q)) true]>
           (<[7%positive := TensorObj (Tensor [4] [1; 0; 0; 0]%Q) None false]>
              (<[8%positive := TensorObj (Tensor [1] [42]%Q) None false]> ∅)))
        (<[9%positive := ModuleObj false [7%positive]]> ∅).


(** Two batches of one example, of 3 and 2 tokens, and hidden states of
    two columns for them. *)
Definition example_batches : list batch :=
  [Batch (Tensor [1; 3] [5; 6; 7]%Z); Batch (Tensor [1; 2] [8; 9]%Z)].

Definition example_hidden (b : batch) : tensor Q :=
  Tensor [1; length (data (input_ids b)); 2]
    (flat_map (fun t => [inject_Z t; 1%Q]) (data (input_ids b))).

(** The store before the builder runs: the probe and its parameter. *)
Definition probe_state : state :=
  State (<[2%positive := TensorObj (Tensor [2] [1; 0]%Q) None true]> ∅)
        (<[3%positive := ModuleObj false [2%positive]]> ∅).

(** Token columns for [group_texts]. *)
Definition example_columns : list (string * list (list Z)) :=
  [("input_ids", [[1; 2]; [3; 4; 5]]); ("attention_mask", [[1; 1]; [1; 1; 1]])]%Z.

Definition short_columns : list (string * list (list Z)) :=
  [("input_ids", [[1; 2]; [3]]); ("attention_mask", [[1; 1]; [1]])]%Z.

(** The exponential of floats overflows above 709.782712893384. *)
Definition double_exp_overflows (q : Q) : bool := Qltb 709.782712893384 q.

(** A command line: a dataset for the language model only, two
    accumulation steps, a budget of 7 optimizer steps, evaluation batches
    of two examples. *)
Definition example_args : args :=
  {| lm_dataset_name := Some "wikitext"; lm_dataset_config_name := None;
     probe_dataset_name := None; probe_dataset_config_name := None;
     train_file := None; validation_file := None;
     validation_split_percentage := "5"; no_keep_linebreaks := false;
     push_to_hub := false; output_dir := None; block_size := None;
     gradient_accumulation_steps := 2; max_train_steps := Some 7%Z;
     num_train_epochs := 3; per_device_eval_batch_size := 2;
     eval_only := false |}.


(** The same with [--eval_only]. *)
Definition eval_only_args : args :=
  {| lm_dataset_name := Some "wikitext"; lm_dataset_config_name := None;
     probe_dataset_name := None; probe_dataset_config_name := None;
     train_file := None; validation_file := None;
     validation_split_percentage := "5"; no_keep_linebreaks := false;
     push_to_hub := false; output_dir := None; block_size := None;
     gradient_accumulation_steps := 2; max_train_steps := Some 7%Z;
     num_train_epochs := 3; per_device_eval_batch_size := 2;
     eval_only := true |}.

(** A hub on which every dataset has a train and a validation split. *)
Definition example_load_dataset (path : string) (name : option string)
    (data_files : option (list (string * string))) (dataset_args : list (string * bool))
    : attempt (list (string * nat)) :=
  Done [("train", 0); ("validation", 1)].

Definition example_load_dataset_split (path : string) (name : option string)
    (data_files : option (list (string * string))) (split : string)
    (dataset_args : list (string * bool)) : attempt nat :=
  Done 0.

(** An evaluation loader of two batches, and one without batches. *)
Definition example_eval_losses (trace : list event) : list Q := [1; 2]%Q.


Definition single_process (losses : list Q) : list Q := losses.

(** White space among the first 128 characters, as [str.isspace] has it. *)
Definition ascii_isspace (c : Ascii.ascii) : bool :=
  let n := Ascii.nat_of_ascii c in
  ((9 <=? n) && (n <=? 13)) || ((28 <=? n) && (n <=? 32)).

(** A tokenizer of three tokens, the model that gives each token as its
    row of logits, and the sum of a row and a token for their
    cross-entropy. *)
Definition example_decode (tok : Z) : list Ascii.ascii :=
  if (tok =? 5)%Z then String.list_ascii_of_string "The"
  else if (tok =? 6)%Z then String.list_ascii_of_string " doc"
  else String.list_ascii_of_string "tor".

Definition example_logits (input_ids : list Z) : list Z := input_ids.

Definition example_cross_entropy (r : Z) (tok : Z) : Q := inject_Z (r + tok).

(** A line of the word list, with its line end, and the tokens of its
    sentence. *)
Definition example_word : list Ascii.ascii :=
  String.list_ascii_of_string "doctor" ++ [Ascii.ascii_of_nat 10].

Definition example_sentence : list Z := [5; 6; 7]%Z.

(** * Properties *)

(** ** Loops *)

Section WhileFacts.
  Context {S : Type}.
  Variable cond : S -> bool.
  Variable body : S -> option S.
  Variable brk : S -> bool.
  (** An invariant under which the body succeeds, and a bound on the
      number of iterations left. *)
  Variable Inv : S -> Prop.
  Variable left : S -> nat.
  Hypothesis body_ok : forall s, Inv s -> cond s = true ->
    exists s', body s = Some s' /\ Inv s' /\ left s' < left s.

(** With enough fuel the loop returns, after the first number [n] of
    iterations at which the loop test fails or the [break] fires. *)
Lemma while_first_exit fuel s :
  Inv s -> left s <= fuel ->
  exists n s',
    while cond body brk fuel s = Some s' /\
    iter_body body n s = Some s' /\
    n <= left s /\ Inv s' /\
    (forall j sj, j < n -> iter_body body j s = Some sj -> cond sj = true) /\
    (forall j sj, 0 < j < n -> iter_body body j s = Some sj -> brk sj = false) /\
    (cond s' = false \/ (0 < n /\ brk s' = true)).
Proof.
  revert s. induction fuel as [|fuel IH]; intros s HI Hl.
  - destruct (cond s) eqn:Hc.
    + destruct (body_ok s HI Hc) as (s' & _ & _ & Hlt). lia.
    + exists 0, s. simpl. rewrite Hc. repeat split; auto; intros; lia.
  - destruct (cond s) eqn:Hc.
    + destruct (body_ok s HI Hc) as (s1 & Hb & HI1 & Hlt).
      destruct (brk s1) eqn:Hk.
      * exists 1, s1. simpl. rewrite Hc, Hb, Hk.
        split; [done|]. split; [done|]. split; [lia|]. split; [done|].
        split; [|split].
        -- intros j sj Hj. assert (j = 0) as -> by lia. simpl. congruence.
        -- intros; lia.
        -- right. split; [lia | done].
      * destruct (IH s1 HI1) as (n & s' & Hw & Hi & Hn & HI' & Hcj & Hbj & Hex); [lia|].
        exists (Datatypes.S n), s'. simpl. rewrite Hc, Hb, Hk.
        split; [done|]. split; [done|]. split; [lia|]. split; [done|].
        split; [|split].
        -- intros [|j] sj Hj; simpl.
           ++ congruence.
           ++ rewrite Hb. apply Hcj. lia.
        -- intros [|j] sj Hj; simpl; [lia|].
           rewrite Hb. destruct j as [|j].
           ++ simpl. congruence.
           ++ apply Hbj. lia.
        -- destruct Hex as [?|[? ?]]; [by left | right; split; [lia | done]].
    + exists 0, s. simpl. rewrite Hc. repeat split; auto; intros; lia.
Qed.

Lemma iter_body_one s : iter_body body 1 s = body s.
Proof. simpl. by destruct (body s). Qed.

Lemma iter_body_add n m s :
  iter_body body (n + m) s = iter_body body n s ≫= iter_body body m.
Proof.
  revert s. induction n as [|n IH]; intros s; simpl; [done|].
  destruct (body s); simpl; [apply IH | done].
Qed.

Lemma iter_body_succ n s :
  iter_body body (Datatypes.S n) s = iter_body body n s ≫= body.
Proof.
  replace (Datatypes.S n) with (n + 1) by lia. rewrite iter_body_add.
  destruct (iter_body body n s) as [s'|]; simpl; [|done].
  by destruct (body s').
Qed.

End WhileFacts.

(** ** Comparisons of rationals *)

Lemma Qltb_lt (a b : Q) : Qltb a b = true <-> (a < b)%Q.
Proof.
  unfold Qltb. rewrite negb_true_iff. split.
  - intros H. apply Qnot_le_lt. intros Hle. apply Qle_bool_iff in Hle. congruence.
  - intros H. destruct (Qle_bool b a) eqn:E; [|done].
    apply Qle_bool_iff in E. exfalso. by apply (Qlt_not_le a b).
Qed.

Lemma Qltb_ge (a b : Q) : Qltb a b = false <-> (b <= a)%Q.
Proof.
  unfold Qltb. rewrite negb_false_iff. apply Qle_bool_iff.
Qed.

(** ** Tensors and objects *)

Lemma Qplus_0_mult_1 (y : Q) : (0 + 1 * y)%Q = y.
Proof.
  destruct y as [a b]. unfold Qplus, Qmult. cbn [Qnum Qden].
  f_equal; lia.
Qed.

Lemma add_zeros_like (g0 g : tensor Q) :
  shape g0 = shape g -> length (data g0) = length (data g) ->
  add_ (zeros_like g0) 1 g = g.
Proof.
  destruct g0 as [sh0 d0], g as [sh d]. simpl. intros -> Hlen.
  unfold add_, zeros_like. simpl. f_equal.
  revert d Hlen. induction d0 as [|x d0 IH]; intros [|y d] Hlen; simpl in *; try lia; [done|].
  rewrite Qplus_0_mult_1. f_equal. apply IH. lia.
Qed.

Lemma shape_add_ a alpha b : shape (add_ a alpha b) = shape a.
Proof. reflexivity. Qed.

Lemma meta_zero_grad_obj o : meta (zero_grad_obj o) = meta o.
Proof. reflexivity. Qed.

Lemma meta_accumulate_grad g o : meta (accumulate_grad g o) = meta o.
Proof. destruct o as [v g0 [|]]; reflexivity. Qed.

Lemma lookup_alter_meta (f : tensor_obj -> tensor_obj) k (ts : gmap loc tensor_obj) j :
  (forall o, meta (f o) = meta o) ->
  meta <$> alter f k ts !! j = meta <$> ts !! j.
Proof.
  intros Hf. destruct (decide (k = j)) as [->|Hne].
  - rewrite lookup_alter_eq. destruct (ts !! j) as [o|]; [|done].
    change (Some (meta (f o)) = Some (meta o)). by rewrite Hf.
  - by rewrite lookup_alter_ne.
Qed.

Lemma meta_t_val (x y : option tensor_obj) :
  meta <$> x = meta <$> y -> t_val <$> x = t_val <$> y.
Proof.
  destruct x as [x|], y as [y|]; intros H; inversion H; [|done].
  change (Some (t_val x) = Some (t_val y)). congruence.
Qed.

Lemma meta_is_Some (x y : option tensor_obj) :
  meta <$> x = meta <$> y -> is_Some x <-> is_Some y.
Proof.
  destruct x as [x|], y as [y|]; intros H; inversion H; split; eauto.
Qed.

Lemma read_vals_ext (ts ts' : gmap loc tensor_obj) ps :
  (forall p, p ∈ ps -> t_val <$> ts' !! p = t_val <$> ts !! p) ->
  read_vals ts' ps = read_vals ts ps.
Proof.
  unfold read_vals. induction ps as [|p ps IH]; intros H; [done|].
  simpl. rewrite H by (by left).
  rewrite IH; [done|]. intros q Hq. apply H. by right.
Qed.

Lemma read_vals_is_Some (ts : gmap loc tensor_obj) ps :
  Forall (fun p => is_Some (ts !! p)) ps -> is_Some (read_vals ts ps).
Proof.
  unfold read_vals. induction 1 as [|p ps [o Ho] _ [vs IH]]; [by eexists|].
  simpl. rewrite Ho, IH. simpl. by eexists.
Qed.

(** ** One iteration of the search *)

Section SearchFacts.
  Variable partial : (list Q -> Q) -> list Q -> nat -> Q.
  Variable forward : bool -> list (tensor Q) -> tensor Q -> tensor Q.
  Variable c : constants.
  Variable criterion : tensor Q -> tensor Z -> Q.
  Variables z probe : loc.
  Variable s_prime : tensor Z.

Lemma backward_meta tr ps pvals zval (ts : gmap loc tensor_obj) k :
  meta <$> backward partial forward criterion z s_prime tr ps pvals zval ts !! k
  = meta <$> ts !! k.
Proof.
  unfold backward.
  induction (zip (seq 0 (length ps)) ps) as [|jp l IH]; simpl.
  - apply lookup_alter_meta, meta_accumulate_grad.
  - destruct (pvals !! jp.1); [|done].
    rewrite lookup_alter_meta by apply meta_accumulate_grad. done.
Qed.

Lemma backward_lookup_z tr ps pvals zval (ts : gmap loc tensor_obj) :
  z ∉ ps ->
  backward partial forward criterion z s_prime tr ps pvals zval ts !! z
  = accumulate_grad (input_grad partial forward criterion s_prime tr pvals zval) <$> ts !! z.
Proof.
  intros Hz. unfold backward.
  assert (Forall (fun jp => jp.2 <> z) (zip (seq 0 (length ps)) ps)) as Hl.
  { apply Forall_forall. intros [j p] Hin. simpl. intros ->.
    apply Hz. by apply elem_of_zip_r in Hin. }
  induction Hl as [|jp l Hjp _ IH]; simpl.
  - apply lookup_alter_eq.
  - destruct (pvals !! jp.1); [|done]. by rewrite lookup_alter_ne.
Qed.

Lemma accumulate_after_zero g zo :
  t_requires_grad zo = true -> grad_ok zo = true ->
  shape g = shape (t_val zo) -> length (data g) = length (data (t_val zo)) ->
  accumulate_grad g (zero_grad_obj zo) = TensorObj (t_val zo) (Some g) true.
Proof.
  destruct zo as [v [g0|] r]; unfold grad_ok, accumulate_grad, zero_grad_obj; simpl;
    intros -> Hok Hs Hl; [|done].
  apply andb_prop in Hok as [H1 H2].
  apply bool_decide_eq_true in H1. apply Nat.eqb_eq in H2.
  f_equal. f_equal. apply add_zeros_like; simpl; congruence.
Qed.

Lemma shape_input_grad tr pvals zval :
  shape (input_grad partial forward criterion s_prime tr pvals zval) = shape zval.
Proof. reflexivity. Qed.

Lemma length_input_grad tr pvals zval :
  length (data (input_grad partial forward criterion s_prime tr pvals zval))
  = length (data zval).
Proof. unfold input_grad, grad_like. simpl. by rewrite length_map, length_seq. Qed.

Lemma length_add_ a alpha b :
  length (data b) = length (data a) -> length (data (add_ a alpha b)) = length (data a).
Proof. intros H. unfold add_. simpl. rewrite length_zip_with. lia. Qed.

Lemma length_next_buffer buf g n :
  (forall b, buf = Some b -> length (data b) = n) -> length (data g) = n ->
  length (data (next_buffer c buf g)) = n.
Proof.
  intros Hb Hg. destruct buf as [b|]; simpl; [|done].
  rewrite length_zip_with, length_map, (Hb b eq_refl). lia.
Qed.

(** An iteration on a valid store succeeds; on the tensor and the locals it
    is [kernel_step], and it leaves everything else of the store as it was
    but for the [.grad] fields of the probe's parameters. *)
Lemma loop_body_spec st l :
  call_inv z probe (st, l) ->
  exists st',
    loop_body partial forward c criterion z probe s_prime (st, l)
    = Some (st', (kernel_step partial forward c criterion s_prime
                    (param_vals st probe) (val_at st z, l)).2) /\
    val_at st' z
    = (kernel_step partial forward c criterion s_prime
         (param_vals st probe) (val_at st z, l)).1 /\
    call_inv z probe
      (st', (kernel_step partial forward c criterion s_prime
               (param_vals st probe) (val_at st z, l)).2) /\
    modules st' = modules st /\
    (forall p, p <> z -> meta <$> tensors st' !! p = meta <$> tensors st !! p) /\
    (forall p, is_Some (tensors st' !! p) <-> is_Some (tensors st !! p)).
Proof.
  intros (zo & m & Hz & Hrg & Hok & Hbuf & Hm & Htr & Hps). simpl in *.
  assert (Hzps : z ∉ parameters m).
  { intros Hin. rewrite Forall_forall in Hps. by destruct (Hps z Hin). }
  set (ts0 := alter zero_grad_obj z (tensors st)).
  assert (Hts0 : ts0 !! z = Some (zero_grad_obj zo)).
  { unfold ts0. by rewrite lookup_alter_eq, Hz. }
  assert (Hrv0 : read_vals ts0 (parameters m) = read_vals (tensors st) (parameters m)).
  { apply read_vals_ext. intros p _. apply meta_t_val, lookup_alter_meta, meta_zero_grad_obj. }
  destruct (read_vals_is_Some (tensors st) (parameters m)) as [pvals Hpv].
  { eapply Forall_impl; [exact Hps|]. by intros p [? _]. }
  assert (Hpvals : param_vals st probe = pvals).
  { unfold param_vals. rewrite Hm. simpl. by rewrite Hpv. }
  assert (Hval : val_at st z = t_val zo).
  { unfold val_at. by rewrite Hz. }
  rewrite Hpvals, Hval.
  set (gz := input_grad partial forward criterion s_prime false pvals (t_val zo)).
  set (ts1 := backward partial forward criterion z s_prime false (parameters m) pvals
                (t_val zo) ts0).
  assert (Hts1 : ts1 !! z = Some (TensorObj (t_val zo) (Some gz) true)).
  { unfold ts1. rewrite backward_lookup_z by done. rewrite Hts0. simpl. f_equal.
    apply accumulate_after_zero; auto. apply length_input_grad. }
  set (buf' := next_buffer c (momentum_buffer l) gz).
  assert (Hlb : length (data buf') = length (data (t_val zo))).
  { apply length_next_buffer; [done | apply length_input_grad]. }
  set (ts2 := alter (fun o => set_val (add_ (t_val o) (- lr c) buf') o) z ts1).
  exists (State ts2 (modules st)).
  assert (Hts2 : ts2 !! z
                 = Some (TensorObj (add_ (t_val zo) (- lr c) buf') (Some gz) true)).
  { unfold ts2. by rewrite lookup_alter_eq, Hts1. }
  assert (Hframe : forall p, p <> z -> meta <$> ts2 !! p = meta <$> tensors st !! p).
  { intros p Hp. unfold ts2. rewrite lookup_alter_ne by done.
    unfold ts1. rewrite backward_meta. unfold ts0. by rewrite lookup_alter_ne. }
  unfold kernel_step, loop_body. fold ts0. rewrite Hts0. simpl.
  rewrite Hm. simpl. rewrite Hrv0, Hpv. simpl. rewrite Htr.
  fold gz ts1. unfold sgd_step. rewrite Hts1. simpl. fold buf' ts2.
  destruct (update_patience _ _ _) as [patience minl]. simpl.
  split; [done|]. split; [unfold val_at; simpl; by rewrite Hts2|].
  split; [|split; [done|split; [done|]]].
  - exists (TensorObj (add_ (t_val zo) (- lr c) buf') (Some gz) true), m. simpl.
    split; [done|]. split; [done|]. split.
    { unfold grad_ok. simpl. rewrite bool_decide_eq_true_2 by done. simpl.
      apply Nat.eqb_eq. rewrite length_map, length_seq, length_zip_with. lia. }
    split. { intros b [= <-]. rewrite length_zip_with. lia. }
    split; [done|]. split; [done|].
    eapply Forall_impl; [exact Hps|]. intros p [Hp Hne]. split; [|done].
    eapply meta_is_Some; [apply Hframe; done | done].
  - intros p. destruct (decide (p = z)) as [->|Hne].
    + rewrite Hts2, Hz. split; eauto.
    + apply meta_is_Some. by apply Hframe.
Qed.

Lemma param_vals_frame st st' l :
  modules st' !! probe = modules st !! probe ->
  (forall p, p <> z -> meta <$> tensors st' !! p = meta <$> tensors st !! p) ->
  call_inv z probe (st, l) ->
  param_vals st' probe = param_vals st probe.
Proof.
  intros Hm Hf (zo & m & _ & _ & _ & _ & Hpm & _ & Hps). simpl in *.
  unfold param_vals. rewrite Hm, Hpm. simpl. f_equal.
  apply read_vals_ext. intros p Hp. apply meta_t_val, Hf.
  rewrite Forall_forall in Hps. by destruct (Hps p Hp).
Qed.

(** [n] iterations on a valid store are [n] kernel steps. *)
Lemma iter_body_spec n : forall st l,
  call_inv z probe (st, l) ->
  exists st',
    iter_body (loop_body partial forward c criterion z probe s_prime) n (st, l)
    = Some (st', (kernel_iter partial forward c criterion s_prime
                    (param_vals st probe) n (val_at st z, l)).2) /\
    val_at st' z
    = (kernel_iter partial forward c criterion s_prime
         (param_vals st probe) n (val_at st z, l)).1 /\
    call_inv z probe
      (st', (kernel_iter partial forward c criterion s_prime
               (param_vals st probe) n (val_at st z, l)).2) /\
    modules st' = modules st /\
    (forall p, p <> z -> meta <$> tensors st' !! p = meta <$> tensors st !! p) /\
    (forall p, is_Some (tensors st' !! p) <-> is_Some (tensors st !! p)).
Proof.
  induction n as [|n IH]; intros st l Hinv.
  - exists st. simpl. repeat split; auto.
  - destruct (loop_body_spec st l Hinv) as (st1 & Hb & Hv & Hinv1 & Hm & Hf & Hd).
    set (zl1 := kernel_step partial forward c criterion s_prime
                  (param_vals st probe) (val_at st z, l)) in *.
    destruct (IH st1 zl1.2 Hinv1) as (st' & Hi & Hv' & Hinv' & Hm' & Hf' & Hd').
    assert (Hpv : param_vals st1 probe = param_vals st probe).
    { by apply (param_vals_frame st st1 l); [rewrite Hm | |]. }
    rewrite Hpv, Hv in *.
    assert (Hzl : (zl1.1, zl1.2) = zl1) by (by destruct zl1).
    rewrite Hzl in *.
    exists st'. cbn [iter_body kernel_iter]. rewrite Hb. fold zl1.
    split; [done|]. split; [done|]. split; [done|].
    split; [congruence|]. split.
    + intros p Hp. rewrite Hf' by done. by apply Hf.
    + intros p. rewrite Hd'. apply Hd.
Qed.

Lemma prepare_spec st :
  valid_call st z probe = true ->
  exists st0,
    prepare z probe st = Some st0 /\
    call_inv z probe (st0, initial_locals) /\
    val_at st0 z = val_at st z /\
    param_vals st0 probe = param_vals st probe /\
    (forall p, p <> z -> tensors st0 !! p = tensors st !! p) /\
    (forall p, is_Some (tensors st0 !! p) <-> is_Some (tensors st !! p)) /\
    modules st0 = alter eval_mode probe (modules st).
Proof.
  unfold valid_call. intros Hv.
  destruct (tensors st !! z) as [zo|] eqn:Hz; [|done].
  destruct (modules st !! probe) as [m|] eqn:Hm; [|done].
  apply andb_prop in Hv as [Hps Hok].
  rewrite forallb_forall in Hps.
  assert (Hps' : Forall (fun p => is_Some (tensors st !! p) /\ p <> z) (parameters m)).
  { apply Forall_forall. intros p Hp. apply list_elem_of_In in Hp.
    apply Hps in Hp. apply andb_prop in Hp as [H1 H2].
    apply bool_decide_eq_true in H1. split; [done|].
    intros ->. by rewrite Pos.eqb_refl in H2. }
  exists (State (alter (set_requires_grad true) z (tensors st))
                (alter eval_mode probe (modules st))).
  unfold prepare. rewrite Hz, Hm. simpl.
  split; [done|].
  assert (Hvals : forall p, t_val <$> alter (set_requires_grad true) z (tensors st) !! p
                            = t_val <$> tensors st !! p).
  { intros p. destruct (decide (z = p)) as [->|Hne].
    - rewrite lookup_alter_eq. by destruct (tensors st !! p).
    - by rewrite lookup_alter_ne. }
  split; [|split; [|split; [|split; [|split]]]].
  - exists (set_requires_grad true zo), (eval_mode m). simpl.
    rewrite !lookup_alter_eq, Hz, Hm. simpl.
    split; [done|]. split; [done|]. split; [by destruct zo|].
    split; [done|]. split; [done|]. split; [done|].
    eapply Forall_impl; [exact Hps'|]. intros p [Hp Hne]. split; [|done].
    by rewrite lookup_alter_ne.
  - unfold val_at. simpl. by rewrite Hvals.
  - unfold param_vals. simpl. rewrite lookup_alter_eq, Hm. simpl. f_equal.
    apply read_vals_ext. intros p _. apply Hvals.
  - intros p Hp. simpl. by rewrite lookup_alter_ne.
  - intros p. simpl. apply lookup_alter_is_Some.
  - done.
Qed.

(** Facts on the kernel. *)
Lemma kernel_step_num_steps pvals zl :
  num_steps (kernel_step partial forward c criterion s_prime pvals zl).2
  = (num_steps zl.2 + 1)%Z.
Proof.
  destruct zl as [zv l]. unfold kernel_step.
  by destruct (update_patience _ _ _).
Qed.

Lemma kernel_step_loss pvals zl :
  loss (kernel_step partial forward c criterion s_prime pvals zl).2
  = loss_of forward criterion s_prime false pvals zl.1.
Proof.
  destruct zl as [zv l]. unfold kernel_step.
  by destruct (update_patience _ _ _).
Qed.

Lemma kernel_step_patience pvals zl :
  (curr_patience (kernel_step partial forward c criterion s_prime pvals zl).2,
   min_loss (kernel_step partial forward c criterion s_prime pvals zl).2)
  = update_patience (loss_of forward criterion s_prime false pvals zl.1)
      (curr_patience zl.2) (min_loss zl.2).
Proof.
  destruct zl as [zv l]. unfold kernel_step.
  by destruct (update_patience _ _ _).
Qed.

Lemma kernel_step_val pvals zl :
  (kernel_step partial forward c criterion s_prime pvals zl).1
  = add_ zl.1 (- lr c)
      (next_buffer c (momentum_buffer zl.2)
         (input_grad partial forward criterion s_prime false pvals zl.1)).
Proof.
  destruct zl as [zv l]. unfold kernel_step.
  by destruct (update_patience _ _ _).
Qed.

Lemma kernel_step_shape pvals zl :
  shape (kernel_step partial forward c criterion s_prime pvals zl).1 = shape zl.1.
Proof.
  destruct zl as [zv l]. unfold kernel_step.
  by destruct (update_patience _ _ _).
Qed.

Lemma kernel_iter_succ pvals n zl :
  kernel_iter partial forward c criterion s_prime pvals (Datatypes.S n) zl
  = kernel_step partial forward c criterion s_prime pvals
      (kernel_iter partial forward c criterion s_prime pvals n zl).
Proof.
  revert zl. induction n as [|n IH]; intros zl; [done|].
  change (kernel_iter partial forward c criterion s_prime pvals (Datatypes.S n)
            (kernel_step partial forward c criterion s_prime pvals zl)
          = kernel_step partial forward c criterion s_prime pvals
              (kernel_iter partial forward c criterion s_prime pvals n
                 (kernel_step partial forward c criterion s_prime pvals zl))).
  apply IH.
Qed.

Lemma kernel_iter_num_steps pvals n zl :
  num_steps (kernel_iter partial forward c criterion s_prime pvals n zl).2
  = (num_steps zl.2 + Z.of_nat n)%Z.
Proof.
  induction n as [|n IH]; [simpl; lia|].
  rewrite kernel_iter_succ, kernel_step_num_steps, IH. lia.
Qed.

Lemma kernel_iter_shape pvals n zl :
  shape (kernel_iter partial forward c criterion s_prime pvals n zl).1 = shape zl.1.
Proof.
  induction n as [|n IH]; [done|].
  by rewrite kernel_iter_succ, kernel_step_shape.
Qed.

Lemma update_patience_bounds l p m :
  (0 <= p)%Z -> (0 <= (update_patience l p m).1 <= p + 1)%Z.
Proof. unfold update_patience. destruct (Qltb _ _); simpl; lia. Qed.

Lemma kernel_iter_patience pvals n zl :
  (0 <= curr_patience zl.2)%Z ->
  (0 <= curr_patience (kernel_iter partial forward c criterion s_prime pvals n zl).2
     <= curr_patience zl.2 + Z.of_nat n)%Z.
Proof.
  intros H0. induction n as [|n IH]; [simpl; lia|].
  rewrite kernel_iter_succ.
  pose proof (kernel_step_patience pvals
                (kernel_iter partial forward c criterion s_prime pvals n zl)) as Hp.
  apply (f_equal fst) in Hp. simpl in Hp. rewrite Hp.
  pose proof (update_patience_bounds
    (loss_of forward criterion s_prime false pvals
       (kernel_iter partial forward c criterion s_prime pvals n zl).1)
    (curr_patience (kernel_iter partial forward c criterion s_prime pvals n zl).2)
    (min_loss (kernel_iter partial forward c criterion s_prime pvals n zl).2)).
  lia.
Qed.

Lemma kernel_step_length pvals zl :
  (forall b, momentum_buffer zl.2 = Some b -> length (data b) = length (data zl.1)) ->
  length (data (kernel_step partial forward c criterion s_prime pvals zl).1)
  = length (data zl.1) /\
  (forall b, momentum_buffer (kernel_step partial forward c criterion s_prime pvals zl).2
             = Some b ->
             length (data b)
             = length (data (kernel_step partial forward c criterion s_prime pvals zl).1)).
Proof.
  destruct zl as [zv l]. intros Hb. unfold kernel_step. simpl in Hb.
  destruct (update_patience _ _ _) as [pt ml]. simpl.
  assert (Hl : length (data (next_buffer c (momentum_buffer l)
                         (input_grad partial forward criterion s_prime false pvals zv)))
               = length (data zv)).
  { apply length_next_buffer; [done | apply length_input_grad]. }
  rewrite length_zip_with. split; [lia|]. intros b [= <-]. lia.
Qed.

Lemma kernel_iter_length pvals n zl :
  (forall b, momentum_buffer zl.2 = Some b -> length (data b) = length (data zl.1)) ->
  length (data (kernel_iter partial forward c criterion s_prime pvals n zl).1)
  = length (data zl.1) /\
  (forall b, momentum_buffer (kernel_iter partial forward c criterion s_prime pvals n zl).2
             = Some b ->
             length (data b) = length (data zl.1)).
Proof.
  intros Hb. induction n as [|n [IH1 IH2]]; [done|].
  rewrite kernel_iter_succ.
  destruct (kernel_step_length pvals
              (kernel_iter partial forward c criterion s_prime pvals n zl)) as [H1 H2].
  { intros b Hbuf. rewrite IH1. by apply IH2. }
  split; [congruence|]. intros b Hbuf. rewrite (H2 b Hbuf). congruence.
Qed.

Lemma call_inv_valid st l : call_inv z probe (st, l) -> valid_call st z probe = true.
Proof.
  intros (zo & m & Hz & _ & Hok & _ & Hm & _ & Hps). simpl in *.
  unfold valid_call. rewrite Hz, Hm, Hok, andb_true_r.
  apply forallb_forall. intros p Hp%list_elem_of_In.
  rewrite Forall_forall in Hps. destruct (Hps p Hp) as [Hs Hne].
  apply andb_true_intro. split; [by apply bool_decide_eq_true|].
  apply negb_true_iff, Pos.eqb_neq. done.
Qed.

(** The whole call on a valid store, for any constants: it returns after
    [n] iterations, the first number at which the loop test fails or the
    patience is exceeded, and it touches only the tensor, the [.grad]
    fields and the probe's mode. *)
Lemma search_run_spec st :
  valid_call st z probe = true ->
  exists st0 st' n,
    prepare z probe st = Some st0 /\
    iter_body (loop_body partial forward c criterion z probe s_prime) n (st0, initial_locals)
    = Some (st', (kernel_iter partial forward c criterion s_prime
                    (param_vals st probe) n (val_at st z, initial_locals)).2) /\
    search_run partial forward c criterion z probe s_prime st
    = Some (st', (kernel_iter partial forward c criterion s_prime
                    (param_vals st probe) n (val_at st z, initial_locals)).2) /\
    val_at st' z
    = (kernel_iter partial forward c criterion s_prime
         (param_vals st probe) n (val_at st z, initial_locals)).1 /\
    (Z.of_nat n <= Z.max 0 (max_num_steps c))%Z /\
    (forall j, j < n ->
       loop_test c (kernel_iter partial forward c criterion s_prime
                      (param_vals st probe) j (val_at st z, initial_locals)).2 = true) /\
    (forall j, 0 < j < n ->
       patience_exceeded c (kernel_iter partial forward c criterion s_prime
                      (param_vals st probe) j (val_at st z, initial_locals)).2 = false) /\
    (loop_test c (kernel_iter partial forward c criterion s_prime
                    (param_vals st probe) n (val_at st z, initial_locals)).2 = false
     \/ (0 < n /\
         patience_exceeded c (kernel_iter partial forward c criterion s_prime
                    (param_vals st probe) n (val_at st z, initial_locals)).2 = true)) /\
    modules st' = alter eval_mode probe (modules st) /\
    (forall p, p <> z -> meta <$> tensors st' !! p = meta <$> tensors st !! p) /\
    (forall p, is_Some (tensors st' !! p) <-> is_Some (tensors st !! p)) /\
    call_inv z probe
      (st', (kernel_iter partial forward c criterion s_prime
               (param_vals st probe) n (val_at st z, initial_locals)).2).
Proof.
  intros Hv.
  destruct (prepare_spec st Hv) as (st0 & Hp & Hinv & Hv0 & Hpv0 & Hf0 & Hd0 & Hm0).
  set (body := loop_body partial forward c criterion z probe s_prime).
  set (left := fun sl : state * locals => Z.to_nat (max_num_steps c - num_steps sl.2)).
  assert (Hbody : forall s, call_inv z probe s -> loop_test c s.2 = true ->
            exists s', body s = Some s' /\ call_inv z probe s' /\ left s' < left s).
  { intros [sa la] Ha Ht.
    destruct (loop_body_spec sa la Ha) as (sb & Hb & _ & Hib & _).
    eexists. split; [exact Hb|]. split; [exact Hib|].
    unfold left. cbn [snd]. rewrite kernel_step_num_steps. cbn [snd].
    unfold loop_test in Ht. apply andb_prop in Ht as [Ht _].
    cbn [snd] in Ht. apply Z.ltb_lt in Ht. lia. }
  destruct (while_first_exit (fun sl => loop_test c sl.2) body
              (fun sl => patience_exceeded c sl.2) (call_inv z probe) left Hbody
              (Z.to_nat (max_num_steps c)) (st0, initial_locals) Hinv)
    as (n & [st' l'] & Hw & Hi & Hn & Hinv' & Hcj & Hbj & Hex).
  { unfold left. simpl. lia. }
  assert (Hiter : forall j, exists stj,
            iter_body body j (st0, initial_locals)
            = Some (stj, (kernel_iter partial forward c criterion s_prime
                            (param_vals st probe) j (val_at st z, initial_locals)).2) /\
            val_at stj z
            = (kernel_iter partial forward c criterion s_prime
                 (param_vals st probe) j (val_at st z, initial_locals)).1 /\
            modules stj = modules st0 /\
            (forall p, p <> z -> meta <$> tensors stj !! p = meta <$> tensors st0 !! p) /\
            (forall p, is_Some (tensors stj !! p) <-> is_Some (tensors st0 !! p))).
  { intros j. destruct (iter_body_spec j st0 initial_locals Hinv)
      as (stj & H1 & H2 & _ & H3 & H4 & H5).
    rewrite Hpv0, Hv0 in *. by exists stj. }
  destruct (Hiter n) as (stn & Hin & Hvn & Hmn & Hfn & Hdn).
  fold body. rewrite Hi in Hin. injection Hin as <- ->.
  exists st0, st', n.
  split; [done|]. split; [done|].
  split. { unfold search_run. rewrite Hp. simpl. exact Hw. }
  split; [done|].
  split. { unfold left in Hn. simpl in Hn. lia. }
  split. { intros j Hj. destruct (Hiter j) as (stj & Hij & _).
           exact (Hcj j _ Hj Hij). }
  split. { intros j Hj. destruct (Hiter j) as (stj & Hij & _).
           exact (Hbj j _ Hj Hij). }
  split; [exact Hex|].
  split; [congruence|].
  split; [|split].
  - intros p Hne. rewrite Hfn by done. by rewrite Hf0.
  - intros p. rewrite Hdn. apply Hd0.
  - exact Hinv'.
Qed.

End SearchFacts.

(** ** The number of steps *)

Section Steps.
  Variable partial : (list Q -> Q) -> list Q -> nat -> Q.
  Variable forward : bool -> list (tensor Q) -> tensor Q -> tensor Q.
  Variable c : constants.
  Variable criterion : tensor Q -> tensor Z -> Q.
  Variable s_prime : tensor Z.
  Variable pvals : list (tensor Q).
  Variable zval : tensor Q.
  Local Abbreviation L := (locals_at partial forward c criterion s_prime pvals zval).
  Local Abbreviation leaves := (leaves_at partial forward c criterion s_prime pvals zval).

Lemma leaves_at_unique n m : leaves n -> leaves m -> n = m.
Proof.
  intros (Hn1 & Hn2 & Hn3) (Hm1 & Hm2 & Hm3).
  destruct (Nat.lt_trichotomy n m) as [Hlt|[->|Hlt]]; [|done|].
  - destruct Hn3 as [Ht|[H0 Hp]].
    + rewrite Hm1 in Ht by done. done.
    + rewrite Hm2 in Hp by lia. done.
  - destruct Hm3 as [Ht|[H0 Hp]].
    + rewrite Hn1 in Ht by done. done.
    + rewrite Hn2 in Hp by lia. done.
Qed.

Lemma L_num_steps k : num_steps (L k) = Z.of_nat k.
Proof. unfold locals_at. rewrite kernel_iter_num_steps. simpl. lia. Qed.

Lemma L_patience k : (0 <= curr_patience (L k) <= Z.of_nat k)%Z.
Proof.
  unfold locals_at.
  pose proof (kernel_iter_patience partial forward c criterion s_prime pvals k
                (zval, initial_locals)) as H.
  simpl in H. lia.
Qed.

(** When the patience cannot run out before the step cap, the loop stops
    short of the cap exactly when some loss before the cap is at or below
    [stopping_loss]. *)
Lemma steps_below_cap n :
  (max_num_steps c <= max_patience c + 1)%Z ->
  (0 < max_num_steps c)%Z ->
  (stopping_loss c < 100)%Q ->
  leaves n ->
  (Z.of_nat n <= max_num_steps c)%Z /\
  ((Z.of_nat n < max_num_steps c)%Z <->
   exists k, 1 <= k /\ (Z.of_nat k < max_num_steps c)%Z /\
             (loss (L k) <= stopping_loss c)%Q).
Proof.
  intros Hpat Hmax Hstop (H1 & H2 & H3).
  assert (Hle : (Z.of_nat n <= max_num_steps c)%Z).
  { destruct n as [|n]; [lia|].
    specialize (H1 n ltac:(lia)). unfold loop_test in H1.
    apply andb_prop in H1 as [H1 _]. apply Z.ltb_lt in H1.
    rewrite L_num_steps in H1. lia. }
  split; [done|]. split.
  - intros Hlt. destruct H3 as [Ht|[H0 Hp]].
    + unfold loop_test in Ht. rewrite L_num_steps in Ht.
      apply andb_false_iff in Ht as [Ht|Ht].
      { apply Z.ltb_ge in Ht. lia. }
      apply Qltb_ge in Ht. destruct n as [|n].
      { exfalso. unfold locals_at in Ht. simpl in Ht. by apply (Qlt_not_le _ _ Hstop). }
      exists (Datatypes.S n). split; [lia|]. split; [done|]. done.
    + unfold patience_exceeded in Hp. apply Z.ltb_lt in Hp.
      pose proof (L_patience n). lia.
  - intros (k & Hk1 & Hk2 & Hk3).
    destruct (Z.lt_ge_cases (Z.of_nat n) (max_num_steps c)) as [?|Hge]; [done|].
    exfalso. specialize (H1 k ltac:(lia)).
    unfold loop_test in H1. apply andb_prop in H1 as [_ H1].
    apply Qltb_lt in H1. by apply (Qlt_not_le _ _ H1).
Qed.

(** A loss at or below [stopping_loss] on the first iteration ends the
    loop there. *)
Lemma leaves_at_one n :
  (0 < max_num_steps c)%Z ->
  (stopping_loss c < 100)%Q ->
  (loss (L 1) <= stopping_loss c)%Q ->
  leaves n -> n = 1.
Proof.
  intros Hmax Hstop Hl (H1 & H2 & H3).
  destruct n as [|[|n]]; [|done|].
  - exfalso. destruct H3 as [Ht|[H0 _]]; [|lia].
    unfold loop_test, locals_at in Ht. simpl in Ht.
    apply andb_false_iff in Ht as [Ht|Ht].
    + apply Z.ltb_ge in Ht. lia.
    + apply Qltb_ge in Ht. by apply (Qlt_not_le _ _ Hstop).
  - exfalso. specialize (H1 1 ltac:(lia)).
    unfold loop_test in H1. apply andb_prop in H1 as [_ H1].
    apply Qltb_lt in H1. by apply (Qlt_not_le _ _ H1).
Qed.



End Steps.

(** ** The claims on [gen_counterfactual] *)

Section SearchClaims.
  Variable partial : (list Q -> Q) -> list Q -> nat -> Q.
  Variable forward : bool -> list (tensor Q) -> tensor Q -> tensor Q.
  Variable CrossEntropyLoss : tensor Q -> tensor Z -> Q.

(** The call with the constants [c]: what [search_run_spec] says, for the
    function that returns the tensor. *)
Lemma gen_counterfactual_with_spec c z probe s_prime criterion st :
  valid_call st z probe = true ->
  exists st' n,
    gen_counterfactual_with partial forward CrossEntropyLoss c z probe s_prime criterion st
    = Some (st', z) /\
    search_run partial forward c (default CrossEntropyLoss criterion) z probe s_prime st
    = Some (st', locals_at partial forward c (default CrossEntropyLoss criterion) s_prime
                   (param_vals st probe) (val_at st z) n) /\
    (prepare z probe st ≫= fun st0 =>
       iter_body (loop_body partial forward c (default CrossEntropyLoss criterion)
                    z probe s_prime) n (st0, initial_locals))
    = Some (st', locals_at partial forward c (default CrossEntropyLoss criterion) s_prime
                   (param_vals st probe) (val_at st z) n) /\
    val_at st' z
    = (kernel_iter partial forward c (default CrossEntropyLoss criterion) s_prime
         (param_vals st probe) n (val_at st z, initial_locals)).1 /\
    leaves_at partial forward c (default CrossEntropyLoss criterion) s_prime
      (param_vals st probe) (val_at st z) n /\
    modules st' = alter eval_mode probe (modules st) /\
    (forall p, p <> z -> meta <$> tensors st' !! p = meta <$> tensors st !! p) /\
    (forall p, is_Some (tensors st' !! p) <-> is_Some (tensors st !! p)) /\
    valid_call st' z probe = true /\
    shape (val_at st' z) = shape (val_at st z) /\
    length (data (val_at st' z)) = length (data (val_at st z)).
Proof.
  intros Hv.
  destruct (search_run_spec partial forward c (default CrossEntropyLoss criterion)
              z probe s_prime st Hv)
    as (st0 & st' & n & Hp & Hi & Hr & Hval & _ & H1 & H2 & H3 & Hm & Hf & Hd & Hinv).
  exists st', n. unfold gen_counterfactual_with, locals_at.
  rewrite Hr, Hp. simpl.
  split; [done|]. split; [done|]. split; [done|]. split; [done|]. split; [done|].
  split; [done|]. split; [done|]. split; [done|].
  split; [by eapply call_inv_valid|].
  rewrite Hval. split; [apply kernel_iter_shape|].
  by apply kernel_iter_length.
Qed.


(** C3. When the loss on the unperturbed input is already at or below
    [stopping_loss], the loop runs exactly once: the tensor gets the one
    update of that first iteration and none after it. *)
Theorem C3_early_success z probe s_prime criterion st :
  valid_call st z probe = true ->
  (loss_of forward (default CrossEntropyLoss criterion) s_prime false
     (param_vals st probe) (val_at st z) <= 0.001)%Q ->
  exists st',
    gen_counterfactual partial forward CrossEntropyLoss z probe s_prime criterion st
    = Some (st', z) /\
    search_run partial forward source_constants (default CrossEntropyLoss criterion)
      z probe s_prime st
    = Some (st', locals_at partial forward source_constants
                   (default CrossEntropyLoss criterion) s_prime
                   (param_vals st probe) (val_at st z) 1) /\
    num_steps (locals_at partial forward source_constants
                 (default CrossEntropyLoss criterion) s_prime
                 (param_vals st probe) (val_at st z) 1) = 1%Z /\
    (prepare z probe st ≫=
       fun st0 => loop_body partial forward source_constants
                    (default CrossEntropyLoss criterion) z probe s_prime
                    (st0, initial_locals))
    = Some (st', locals_at partial forward source_constants
                   (default CrossEntropyLoss criterion) s_prime
                   (param_vals st probe) (val_at st z) 1) /\
    val_at st' z
    = add_ (val_at st z) (- 0.01)
        (input_grad partial forward (default CrossEntropyLoss criterion) s_prime false
           (param_vals st probe) (val_at st z)).
Proof.
  intros Hv Hloss.
  destruct (gen_counterfactual_with_spec source_constants z probe s_prime criterion st Hv)
    as (st' & n & Hg & Hr & Hi & Hval & Hl & _).
  assert (n = 1) as ->.
  { eapply leaves_at_one; [| | |exact Hl]; try done.
    unfold locals_at. rewrite kernel_iter_succ, kernel_step_loss. exact Hloss. }
  exists st'. split; [exact Hg|]. split; [exact Hr|].
  split; [apply L_num_steps|]. split.
  - destruct (prepare z probe st) as [st0|]; [|done].
    cbn [mbind option_bind] in *. by rewrite iter_body_one in Hi.
  - rewrite Hval, kernel_iter_succ, kernel_step_val. reflexivity.
Qed.

(** C4. On every valid call the returned reference is the argument itself,
    the shape of the tensor it designates is the shape on entry, its value
    is the one the iterations computed, no tensor object is added to the
    store and the value of every other tensor is kept: the search works on
    the caller's tensor, not on a copy. *)
Theorem C4_shape_and_in_place z probe s_prime criterion st :
  valid_call st z probe = true ->
  exists st' n,
    gen_counterfactual partial forward CrossEntropyLoss z probe s_prime criterion st
    = Some (st', z) /\
    shape (val_at st' z) = shape (val_at st z) /\
    val_at st' z
    = (kernel_iter partial forward source_constants
         (default CrossEntropyLoss criterion) s_prime
         (param_vals st probe) n (val_at st z, initial_locals)).1 /\
    dom (tensors st') = dom (tensors st) /\
    (forall p, p <> z -> t_val <$> tensors st' !! p = t_val <$> tensors st !! p).
Proof.
  intros Hv.
  destruct (gen_counterfactual_with_spec source_constants z probe s_prime criterion st Hv)
    as (st' & n & Hg & _ & _ & Hval & _ & _ & Hf & Hd).
  exists st', n. split; [exact Hg|]. split.
  { rewrite Hval. apply kernel_iter_shape. }
  split; [exact Hval|]. split.
  - apply set_eq. intros p. rewrite !elem_of_dom. apply Hd.
  - intros p Hp. apply meta_t_val. by apply Hf.
Qed.

(** C6. Two valid calls whose tensors have the same value and whose probes
    have the same parameter values, with the same label and criterion,
    leave the same value in their tensors (and the same locals), whatever
    else the two stores hold: stale gradients, the probes' modes, other
    objects. *)
Theorem C6_deterministic z1 probe1 st1 z2 probe2 st2 s_prime criterion :
  valid_call st1 z1 probe1 = true ->
  valid_call st2 z2 probe2 = true ->
  val_at st1 z1 = val_at st2 z2 ->
  param_vals st1 probe1 = param_vals st2 probe2 ->
  exists st1' st2' l,
    gen_counterfactual partial forward CrossEntropyLoss z1 probe1 s_prime criterion st1
    = Some (st1', z1) /\
    gen_counterfactual partial forward CrossEntropyLoss z2 probe2 s_prime criterion st2
    = Some (st2', z2) /\
    search_run partial forward source_constants (default CrossEntropyLoss criterion)
      z1 probe1 s_prime st1 = Some (st1', l) /\
    search_run partial forward source_constants (default CrossEntropyLoss criterion)
      z2 probe2 s_prime st2 = Some (st2', l) /\
    val_at st1' z1 = val_at st2' z2.
Proof.
  intros Hv1 Hv2 Hz Hp.
  destruct (gen_counterfactual_with_spec source_constants z1 probe1 s_prime criterion st1 Hv1)
    as (st1' & n1 & Hg1 & Hr1 & _ & Hval1 & Hl1 & _).
  destruct (gen_counterfactual_with_spec source_constants z2 probe2 s_prime criterion st2 Hv2)
    as (st2' & n2 & Hg2 & Hr2 & _ & Hval2 & Hl2 & _).
  rewrite <- Hz, <- Hp in *.
  assert (n2 = n1) as -> by (eapply leaves_at_unique; eassumption).
  exists st1', st2'. eexists.
  split; [exact Hg1|]. split; [exact Hg2|]. split; [exact Hr1|]. split; [exact Hr2|].
  congruence.
Qed.

(** C9. On every valid call (the tensor is not one of the probe's
    parameters) the probe keeps its list of parameters and each of them
    keeps its value; the call only puts the probe in evaluation mode and
    accumulates into the [.grad] of its parameters. *)
Theorem C9_probe_parameters_unchanged z probe s_prime criterion st :
  valid_call st z probe = true ->
  exists st' m,
    gen_counterfactual partial forward CrossEntropyLoss z probe s_prime criterion st
    = Some (st', z) /\
    modules st !! probe = Some m /\
    modules st' !! probe = Some (eval_mode m) /\
    parameters (eval_mode m) = parameters m /\
    (forall p, p ∈ parameters m ->
       t_val <$> tensors st' !! p = t_val <$> tensors st !! p) /\
    param_vals st' probe = param_vals st probe.
Proof.
  intros Hv.
  destruct (gen_counterfactual_with_spec source_constants z probe s_prime criterion st Hv)
    as (st' & n & Hg & _ & _ & _ & _ & Hm & Hf & _).
  unfold valid_call in Hv.
  destruct (tensors st !! z) as [zo|] eqn:Hz; [|done].
  destruct (modules st !! probe) as [m|] eqn:Hmp; [|done].
  apply andb_prop in Hv as [Hps _]. rewrite forallb_forall in Hps.
  assert (Hne : forall p, p ∈ parameters m -> p <> z).
  { intros p Hin%list_elem_of_In%Hps. apply andb_prop in Hin as [_ H2].
    intros ->. by rewrite Pos.eqb_refl in H2. }
  exists st', m. split; [exact Hg|]. split; [done|].
  assert (Hm' : modules st' !! probe = Some (eval_mode m)).
  { by rewrite Hm, lookup_alter_eq, Hmp. }
  split; [exact Hm'|]. split; [done|].
  assert (Hvals : forall p, p ∈ parameters m ->
            t_val <$> tensors st' !! p = t_val <$> tensors st !! p).
  { intros p Hin. apply meta_t_val, Hf. by apply Hne. }
  split; [exact Hvals|].
  unfold param_vals. rewrite Hm', Hmp. simpl. f_equal.
  by apply read_vals_ext.
Qed.


End SearchClaims.

(** ** The dataset builder *)

Section BuilderFacts.
  Variable partial : (list Q -> Q) -> list Q -> nat -> Q.
  Variable forward : bool -> list (tensor Q) -> tensor Q -> tensor Q.
  Variable CrossEntropyLoss : tensor Q -> tensor Z -> Q.
  Variable last_hidden_states : batch -> tensor Q.
  Variable probe : loc.
  Variable max_train_steps : Z.

Lemma shifted_ids_spec len b :
  shape (input_ids b) = [1; len] ->
  drop_first_row (view_column (input_ids b)) = Some (shifted_ids len b).
Proof.
  intros Hids. unfold drop_first_row, view_column, shifted_ids. simpl.
  rewrite Hids. simpl. repeat f_equal. lia.
Qed.

Lemma shifted_view_spec len hidden h st o :
  tensors st !! h = Some o -> shape (t_val o) = [1; len; hidden] ->
  (squeezed_z ← squeeze0 st h; contiguous <$> drop_last_row squeezed_z)
  = Some (shifted_view len hidden h).
Proof.
  intros Ho Hso. unfold squeeze0. rewrite Ho. simpl. rewrite Hso. reflexivity.
Qed.

Lemma targets_loop_unfold targ_s targets h b st cs :
  targets_loop partial forward CrossEntropyLoss probe max_train_steps
    (targ_s :: targets) h b st cs
  = sz ← gen_counterfactual partial forward CrossEntropyLoss h probe
           (Tensor [1] [targ_s]) None st;
    shifted_z ← (squeezed_z ← squeeze0 sz.1 sz.2; contiguous <$> drop_last_row squeezed_z);
    shifted_labels ← drop_first_row (view_column (input_ids b));
    let cs1 := {| completed_steps := completed_steps cs + 1;
                  cached_input_ids := cached_input_ids cs ++ [shifted_labels];
                  cached_z_primes := cached_z_primes cs ++ [shifted_z] |} in
    if (max_train_steps <=? completed_steps cs1)%Z then Some (sz.1, cs1)
    else targets_loop partial forward CrossEntropyLoss probe max_train_steps
           targets h b sz.1 cs1.
Proof.
  cbn [targets_loop].
  destruct (gen_counterfactual _ _ _ _ _ _ _ _) as [[st1 z']|]; [|done].
  cbn [mbind option_bind fst snd].
  destruct (squeeze0 st1 z') as [v|]; [|done].
  cbn [mbind option_bind].
  destruct (drop_last_row v); reflexivity.
Qed.

Lemma targets_loop_spec len hidden h b targets : forall st cs,
  valid_call st h probe = true ->
  shape (val_at st h) = [1; len; hidden] ->
  shape (input_ids b) = [1; len] ->
  exists st',
    targets_loop partial forward CrossEntropyLoss probe max_train_steps targets h b st cs
    = Some (st', caches_after cs (searches_run max_train_steps targets cs) len hidden h b) /\
    chained_searches partial forward CrossEntropyLoss probe h
      (take (searches_run max_train_steps targets cs) targets) st = Some st' /\
    valid_call st' h probe = true /\
    shape (val_at st' h) = shape (val_at st h) /\
    length (data (val_at st' h)) = length (data (val_at st h)) /\
    (forall p, p <> h -> meta <$> tensors st' !! p = meta <$> tensors st !! p) /\
    (forall p, is_Some (tensors st' !! p) <-> is_Some (tensors st !! p)) /\
    (forall q, parameters <$> modules st' !! q = parameters <$> modules st !! q).
Proof.
  induction targets as [|targ_s targets IH]; intros st cs Hv Hsh Hids.
  - exists st. unfold searches_run, caches_after. simpl.
    rewrite !app_nil_r, Z.add_0_r. destruct cs. simpl. repeat split; auto.
  - destruct (gen_counterfactual_with_spec partial forward CrossEntropyLoss
                source_constants h probe (Tensor [1] [targ_s]) None st Hv)
      as (st1 & n & Hg & _ & _ & _ & _ & Hm & Hf & Hd & Hv1 & Hs1 & Hl1).
    fold (gen_counterfactual partial forward CrossEntropyLoss) in Hg.
    assert (Hz1 : exists o, tensors st1 !! h = Some o /\ shape (t_val o) = [1; len; hidden]).
    { unfold val_at in Hs1, Hsh. destruct (tensors st1 !! h) as [o|] eqn:E.
      - exists o. split; [done|]. simpl in Hs1. congruence.
      - unfold valid_call in Hv1. by rewrite E in Hv1. }
    destruct Hz1 as (o & Ho & Hso).
    assert (Hmods : forall q, parameters <$> modules st1 !! q = parameters <$> modules st !! q).
    { intros q. rewrite Hm. destruct (decide (probe = q)) as [->|Hne].
      - rewrite lookup_alter_eq. by destruct (modules st !! q).
      - by rewrite lookup_alter_ne. }
    rewrite targets_loop_unfold. cbn [take chained_searches]. rewrite Hg.
    cbn [mbind option_bind fst snd].
    rewrite (shifted_view_spec len hidden h st1 o Ho Hso).
    rewrite (shifted_ids_spec len b Hids).
    cbn [mbind option_bind completed_steps].
    destruct (Z.leb_spec max_train_steps (completed_steps cs + 1)) as [Hstop|Hgo].
    + (* the budget ends the loop after this search *)
      assert (Hk : searches_run max_train_steps (targ_s :: targets) cs = 1).
      { unfold searches_run. cbn [length completed_steps]. lia. }
      rewrite Hk. exists st1. cbn [take chained_searches]. rewrite Hg.
      split. { reflexivity. }
      repeat split; auto; try congruence; apply Hd.
    + assert (Hk : searches_run max_train_steps (targ_s :: targets) cs
                   = Datatypes.S (searches_run max_train_steps targets
                        {| completed_steps := completed_steps cs + 1;
                           cached_input_ids := cached_input_ids cs ++ [shifted_ids len b];
                           cached_z_primes := cached_z_primes cs
                                              ++ [shifted_view len hidden h] |})).
      { unfold searches_run. cbn [length completed_steps]. lia. }
      rewrite Hk.
      destruct (IH st1 {| completed_steps := completed_steps cs + 1;
                          cached_input_ids := cached_input_ids cs ++ [shifted_ids len b];
                          cached_z_primes := cached_z_primes cs
                                             ++ [shifted_view len hidden h] |}
                  Hv1 ltac:(congruence) Hids)
        as (st' & Ht & Hc & Hv' & Hs' & Hl' & Hf' & Hd' & Hm').
      exists st'. cbn [take chained_searches]. rewrite Hg.
      cbn [mbind option_bind fst].
      split.
      { rewrite Ht. f_equal. f_equal. unfold caches_after. simpl.
        rewrite <- !app_assoc. simpl. f_equal. lia. }
      split; [exact Hc|]. split; [exact Hv'|].
      split; [congruence|]. split; [congruence|].
      split. { intros p Hp. rewrite Hf' by done. by apply Hf. }
      split. { intros p. rewrite Hd'. apply Hd. }
      intros q. rewrite Hm'. apply Hmods.
Qed.

Lemma unit_batch_seq_len b len :
  shape (input_ids b) = [1; len] -> seq_len b = len.
Proof. intros H. unfold seq_len. by rewrite H. Qed.

Lemma valid_call_new_tensor st v :
  probe_ok st probe ->
  valid_call (new_tensor v st).1 (new_tensor v st).2 probe = true.
Proof.
  intros (m & Hm & Hps). unfold new_tensor, valid_call. simpl.
  rewrite lookup_insert_eq, Hm. simpl. rewrite andb_true_r.
  apply forallb_forall. intros p Hp%list_elem_of_In.
  rewrite Forall_forall in Hps. specialize (Hps p Hp).
  assert (p <> fresh (dom (tensors st))).
  { intros ->. apply elem_of_dom in Hps. by apply is_fresh in Hps. }
  apply andb_true_intro. split.
  - apply bool_decide_eq_true. by rewrite lookup_insert_ne.
  - by apply negb_true_iff, Pos.eqb_neq.
Qed.

Lemma batches_loop_spec hidden batches : forall st cs,
  probe_ok st probe ->
  Forall (unit_batch last_hidden_states hidden) batches ->
  exists st' exec,
    batches_loop partial forward CrossEntropyLoss last_hidden_states probe max_train_steps
      batches st cs
    = Some (st', caches_extend hidden cs exec) /\
    exec.*2 = take (Z.to_nat (Z.max 1 (max_train_steps - completed_steps cs)))
                (flat_map (fun b => [b; b; b]) batches) /\
    Forall (fun hb => exists o,
              tensors st' !! hb.1 = Some o /\
              shape (t_val o) = [1; seq_len hb.2; hidden] /\
              length (data (t_val o)) = seq_len hb.2 * hidden) exec /\
    probe_ok st' probe /\
    (forall p, is_Some (tensors st !! p) ->
               meta <$> tensors st' !! p = meta <$> tensors st !! p).
Proof.
  induction batches as [|b batches IH]; intros st cs Hpr Hub.
  - exists st, []. unfold caches_extend. simpl.
    rewrite !app_nil_r, Z.add_0_r, take_nil. destruct cs. simpl.
    repeat split; auto.
  - apply Forall_cons in Hub as [(len & Hids & Hidl & Hsh & Hlen) Hub].
    cbn [batches_loop].
    pose proof (valid_call_new_tensor st (last_hidden_states b) Hpr) as Hv0.
    destruct (new_tensor (last_hidden_states b) st) as [st0 h] eqn:Hnew.
    cbn [fst snd] in Hv0.
    assert (Hst0 : tensors st0 = <[h := TensorObj (last_hidden_states b) None false]> (tensors st)
                   /\ modules st0 = modules st /\ h = fresh (dom (tensors st))).
    { unfold new_tensor in Hnew. by injection Hnew as <- <-. }
    destruct Hst0 as (Hts0 & Hms0 & Hh).
    assert (Hfresh : tensors st !! h = None).
    { rewrite Hh. apply not_elem_of_dom, is_fresh. }
    assert (Hval0 : val_at st0 h = last_hidden_states b).
    { unfold val_at. by rewrite Hts0, lookup_insert_eq. }
    destruct (targets_loop_spec len hidden h b [0; 1; 2]%Z st0 cs Hv0
                ltac:(congruence) Hids)
      as (st1 & Ht & _ & Hv1 & Hs1 & Hl1 & Hf1 & Hd1 & Hm1).
    rewrite Ht. cbn [mbind option_bind].
    set (k := searches_run max_train_steps [0; 1; 2]%Z cs) in *.
    assert (Hk : 1 <= k <= 3
                 /\ (k = Z.to_nat (Z.max 1 (max_train_steps - completed_steps cs))
                     \/ (k = 3 /\ (completed_steps cs + 3 < max_train_steps)%Z))).
    { unfold k, searches_run. cbn [length]. lia. }
    assert (Hsl : seq_len b = len) by (by apply unit_batch_seq_len).
    assert (Hcs1 : caches_after cs k len hidden h b
                   = caches_extend hidden cs (replicate k (h, b))).
    { unfold caches_after, caches_extend. rewrite length_replicate.
      f_equal; f_equal; rewrite <- Hsl;
        clear; induction k as [|k IHk]; simpl; congruence. }
    assert (Hframe0 : forall p, is_Some (tensors st !! p) ->
              meta <$> tensors st1 !! p = meta <$> tensors st !! p).
    { intros p Hp. assert (p <> h) by (intros ->; rewrite Hfresh in Hp; by destruct Hp).
      rewrite Hf1 by done. by rewrite Hts0, lookup_insert_ne. }
    assert (Hpr1 : probe_ok st1 probe).
    { destruct Hpr as (m & Hm & Hps).
      pose proof (Hm1 probe) as Hmp. rewrite Hms0, Hm in Hmp.
      destruct (modules st1 !! probe) as [m1|] eqn:E; [|done].
      exists m1. split; [done|]. injection Hmp as ->.
      eapply Forall_impl; [exact Hps|]. intros p Hp. simpl.
      rewrite Hd1, Hts0. destruct (decide (h = p)) as [->|Hne].
      - rewrite lookup_insert_eq. eauto.
      - by rewrite lookup_insert_ne. }
    assert (Hh1 : exists o, tensors st1 !! h = Some o /\
                    shape (t_val o) = [1; len; hidden] /\
                    length (data (t_val o)) = len * hidden).
    { unfold val_at in Hs1, Hl1. rewrite Hts0, lookup_insert_eq in Hs1, Hl1.
      simpl in Hs1, Hl1.
      destruct (tensors st1 !! h) as [o|] eqn:E.
      - exists o. simpl in *. split; [done|]. split; congruence.
      - unfold valid_call in Hv1. by rewrite E in Hv1. }
    destruct Hh1 as (o & Ho & Hso & Hlo).
    rewrite Hcs1.
    destruct (Z.leb_spec max_train_steps
                (completed_steps (caches_extend hidden cs (replicate k (h, b)))))
      as [Hstop|Hgo]; cbn [completed_steps caches_extend] in *;
      rewrite length_replicate in *.
    + (* the budget is spent: the loop over the batches ends *)
      exists st1, (replicate k (h, b)).
      split; [done|]. split; [|split; [|split; [done | done]]].
      * assert (Hk' : Z.to_nat (Z.max 1 (max_train_steps - completed_steps cs)) = k) by lia.
        rewrite Hk'. destruct Hk as [Hk _].
        destruct k as [|[|[|[|k]]]]; try lia; reflexivity.
      * apply Forall_forall. intros hb Hin. apply elem_of_replicate in Hin as [-> _].
        exists o. simpl. by rewrite Hsl.
    + destruct (IH st1 (caches_extend hidden cs (replicate k (h, b))) Hpr1 Hub)
        as (st' & exec & Hb & Hex & Hall & Hpr' & Hframe).
      exists st', (replicate k (h, b) ++ exec).
      assert (Hk3 : k = 3) by lia. 
      split; [|split; [|split; [|split; [done|]]]].
      * rewrite Hb. f_equal. f_equal. unfold caches_extend. simpl.
        rewrite !length_replicate, !length_app, !length_replicate, !map_app, !app_assoc.
        f_equal. lia.
      * rewrite fmap_app, Hex. cbn [completed_steps caches_extend].
        rewrite length_replicate. rewrite Hk3. cbn [flat_map].
        replace (Z.to_nat (Z.max 1 (max_train_steps - completed_steps cs)))
          with (3 + Z.to_nat (Z.max 1 (max_train_steps
                                        - (completed_steps cs + Z.of_nat 3)))) by lia.
        reflexivity.
      * apply Forall_app. split; [|done].
        apply Forall_forall. intros hb Hin. apply elem_of_replicate in Hin as [-> _].
        simpl. rewrite Hsl.
        pose proof (Hframe h ltac:(by rewrite Ho)) as Hmeta.
        rewrite Ho in Hmeta. destruct (tensors st' !! h) as [o'|]; [|done].
        exists o'. split; [done|]. injection Hmeta as Hmeta _. by rewrite Hmeta.
      * intros p Hp. rewrite Hframe; [by apply Hframe0|].
        eapply meta_is_Some; [by apply Hframe0 | done].
Qed.

End BuilderFacts.

(** ** Rows of stacked tensors *)

Lemma numel_singleton w : numel [w] = w.
Proof. unfold numel. simpl. lia. Qed.

Lemma rows_matrix {A} r w (d : list A) :
  rows (Tensor [r; w] d)
  = map (fun i => Tensor [w] (take w (drop (i * w) d))) (seq 0 r).
Proof.
  unfold rows. cbn [shape data tail hd]. rewrite numel_singleton. reflexivity.
Qed.

(** The rows of a stack of matrices are the rows of the matrices. *)
Lemma rows_stack {A X} w (f : X -> nat) (g : X -> list A) (l : list X) :
  Forall (fun x => length (g x) = f x * w) l ->
  rows (Tensor [sum_list (map f l); w] (concat (map g l)))
  = concat (map (fun x => rows (Tensor [f x; w] (g x))) l).
Proof.
  induction 1 as [|x l Hx _ IH]; [done|].
  cbn [sum_list sum_list_with concat map].
  rewrite <- IH, !rows_matrix, seq_app, map_app. change (id (f x)) with (f x). f_equal.
  - apply map_ext_in. intros i Hi%in_seq. f_equal.
    rewrite drop_app_le by nia. rewrite take_app_le; [done|].
    rewrite length_drop. nia.
  - match goal with
    | |- map _ (seq ?a ?n) = _ =>
        replace (seq a n) with (Nat.add (f x) <$> seq 0 n)
          by (rewrite fmap_add_seq; f_equal; lia)
    end.
    rewrite <- list_fmap_compose. apply map_ext_in. intros i _. simpl. f_equal.
    rewrite drop_app_ge by nia. f_equal. f_equal. nia.
Qed.

Lemma zip_concat_map {A B X} (F : X -> list A) (G : X -> list B) (l : list X) :
  Forall (fun x => length (F x) = length (G x)) l ->
  zip (concat (map F l)) (concat (map G l)) = concat (map (fun x => zip (F x) (G x)) l).
Proof.
  induction 1 as [|x l Hx _ IH]; [done|].
  simpl. rewrite <- IH. by apply zip_with_app.
Qed.

(** [vstack] of a non-empty list of matrices of the same width. *)
Lemma vstack_matrices {A X} w (f : X -> nat) (g : X -> list A) (l : list X) :
  l <> [] ->
  vstack (map (fun x => Tensor [f x; w] (g x)) l)
  = Some (Tensor [sum_list (map f l); w] (concat (map g l))).
Proof.
  intros Hne. destruct l as [|x l]; [done|]. unfold vstack.
  cbn [map shape atleast_2d tail].
  rewrite (proj2 (forallb_forall _ _)).
  - f_equal. f_equal.
    + f_equal. rewrite <- (map_map (fun x => Tensor [f x; w] (g x))
                             (fun t => hd 0 (atleast_2d (shape t)))).
      reflexivity.
    + f_equal. rewrite <- (map_map (fun x => Tensor [f x; w] (g x)) data). reflexivity.
  - intros t Ht. apply bool_decide_eq_true.
    destruct Ht as [<-|Ht]; [done|].
    apply in_map_iff in Ht as (y & <- & _). reflexivity.
Qed.

Lemma zip_map_seq {A B} (f : nat -> A) (g : nat -> B) (l : list nat) :
  zip (map f l) (map g l) = map (fun i => (f i, g i)) l.
Proof. induction l as [|i l IH]; simpl; congruence. Qed.

Lemma length_rows {A} (t : tensor A) : length (rows t) = hd 0 (shape t).
Proof. unfold rows. by rewrite length_map, length_seq. Qed.

(** One cached search, read at the end: its rows, paired with the rows of
    its labels, are the next-token pairs of the example. *)
Lemma shifted_rows_pairs len hidden (zv : tensor Q) (b : batch) :
  shape zv = [1; len; hidden] ->
  length (data zv) = len * hidden ->
  zip (rows (Tensor [len - 1; hidden]
               (take (numel [len - 1; hidden]) (drop 0 (data zv)))))
      (rows (shifted_ids len b))
  = next_token_pairs zv (input_ids b).
Proof.
  intros Hsh Hlen. unfold next_token_pairs, shifted_ids. rewrite Hsh.
  rewrite !rows_matrix, zip_map_seq. apply map_ext_in. intros i Hi%in_seq.
  f_equal.
  - f_equal. unfold numel. simpl. rewrite Nat.mul_1_r.
    rewrite skipn_firstn_comm, take_take. f_equal. nia.
  - f_equal. rewrite Nat.mul_1_r, drop_drop. f_equal. f_equal. lia.
Qed.

Lemma length_next_token_pairs len hidden (zv : tensor Q) (ids : tensor Z) :
  shape zv = [1; len; hidden] ->
  length (next_token_pairs zv ids) = len - 1.
Proof.
  intros Hsh. unfold next_token_pairs. rewrite Hsh.
  by rewrite length_map, length_seq.
Qed.


(** ** The claims on [_gen_xfacts] *)

Section BuilderClaims.
  Variable partial : (list Q -> Q) -> list Q -> nat -> Q.
  Variable forward : bool -> list (tensor Q) -> tensor Q -> tensor Q.
  Variable CrossEntropyLoss : tensor Q -> tensor Z -> Q.
  Variable last_hidden_states : batch -> tensor Q.
  Variable probe : loc.
  Variable max_train_steps : Z.

Lemma mapM_read_view hidden st (exec : list (loc * batch)) :
  Forall (fun hb => exists o,
            tensors st !! hb.1 = Some o /\
            shape (t_val o) = [1; seq_len hb.2; hidden] /\
            length (data (t_val o)) = seq_len hb.2 * hidden) exec ->
  mapM (read_view st) (map (fun hb => shifted_view (seq_len hb.2) hidden hb.1) exec)
  = Some (map (fun hb => Tensor [seq_len hb.2 - 1; hidden]
                           (take (numel [seq_len hb.2 - 1; hidden])
                                 (drop 0 (data (val_at st hb.1))))) exec).
Proof.
  induction 1 as [|hb exec (o & Ho & _) _ IH]; [done|].
  cbn [map mapM]. rewrite IH. unfold read_view, val_at.
  cbn [shifted_view v_base v_shape v_offset]. rewrite Ho. reflexivity.
Qed.


(** C10. In the loop over the three target classes of one batch (with
    budget for the three), the three searches get the same tensor [h]: the
    search for class 1 starts from the value that the search for class 0
    left in it, and the search for class 2 from the value that the search
    for class 1 left; the three cached views are views of [h]. *)
Theorem C10_shared_tensor len hidden h b st cs :
  valid_call st h probe = true ->
  shape (val_at st h) = [1; len; hidden] ->
  shape (input_ids b) = [1; len] ->
  (completed_steps cs + 3 <= max_train_steps)%Z ->
  exists st1 st2 st3 n0 n1 n2,
    gen_counterfactual partial forward CrossEntropyLoss h probe (Tensor [1] [0%Z]) None st
    = Some (st1, h) /\
    gen_counterfactual partial forward CrossEntropyLoss h probe (Tensor [1] [1%Z]) None st1
    = Some (st2, h) /\
    gen_counterfactual partial forward CrossEntropyLoss h probe (Tensor [1] [2%Z]) None st2
    = Some (st3, h) /\
    targets_loop partial forward CrossEntropyLoss probe max_train_steps
      [0; 1; 2]%Z h b st cs
    = Some (st3, caches_after cs 3 len hidden h b) /\
    val_at st1 h
    = (kernel_iter partial forward source_constants CrossEntropyLoss (Tensor [1] [0%Z])
         (param_vals st probe) n0 (val_at st h, initial_locals)).1 /\
    val_at st2 h
    = (kernel_iter partial forward source_constants CrossEntropyLoss (Tensor [1] [1%Z])
         (param_vals st1 probe) n1 (val_at st1 h, initial_locals)).1 /\
    val_at st3 h
    = (kernel_iter partial forward source_constants CrossEntropyLoss (Tensor [1] [2%Z])
         (param_vals st2 probe) n2 (val_at st2 h, initial_locals)).1 /\
    Forall (fun v => v_base v = h)
      (drop (length (cached_z_primes cs))
         (cached_z_primes (caches_after cs 3 len hidden h b))).
Proof.
  intros Hv Hsh Hids Hbudget.
  destruct (gen_counterfactual_with_spec partial forward CrossEntropyLoss
              source_constants h probe (Tensor [1] [0%Z]) None st Hv)
    as (st1 & n0 & Hg0 & _ & _ & Hval0 & _ & _ & _ & _ & Hv1 & _).
  destruct (gen_counterfactual_with_spec partial forward CrossEntropyLoss
              source_constants h probe (Tensor [1] [1%Z]) None st1 Hv1)
    as (st2 & n1 & Hg1 & _ & _ & Hval1 & _ & _ & _ & _ & Hv2 & _).
  destruct (gen_counterfactual_with_spec partial forward CrossEntropyLoss
              source_constants h probe (Tensor [1] [2%Z]) None st2 Hv2)
    as (st3 & n2 & Hg2 & _ & _ & Hval2 & _).
  fold (gen_counterfactual partial forward CrossEntropyLoss) in Hg0, Hg1, Hg2.
  destruct (targets_loop_spec partial forward CrossEntropyLoss probe max_train_steps
              len hidden h b [0; 1; 2]%Z st cs Hv Hsh Hids)
    as (st' & Ht & Hc & _).
  assert (Hk : searches_run max_train_steps [0; 1; 2]%Z cs = 3).
  { unfold searches_run. cbn [length]. lia. }
  rewrite Hk in Ht, Hc.
  cbn [take chained_searches] in Hc.
  rewrite Hg0 in Hc. cbn [mbind option_bind fst] in Hc.
  rewrite Hg1 in Hc. cbn [mbind option_bind fst] in Hc.
  rewrite Hg2 in Hc. cbn [mbind option_bind fst] in Hc.
  injection Hc as <-.
  exists st1, st2, st3, n0, n1, n2.
  split; [exact Hg0|]. split; [exact Hg1|]. split; [exact Hg2|]. split; [exact Ht|].
  split; [exact Hval0|]. split; [exact Hval1|]. split; [exact Hval2|].
  unfold caches_after. cbn [cached_z_primes]. rewrite drop_app_length.
  repeat constructor.
Qed.

End BuilderClaims.

(** ** [group_texts] *)

Lemma dict_get_map {V W} (f : V -> W) k (d : list (string * V)) :
  dict_get k (map (fun kv => (kv.1, f kv.2)) d) = f <$> dict_get k d.
Proof.
  induction d as [|[k' v] d IH]; [done|]. simpl.
  destruct (String.eqb k' k); [done | exact IH].
Qed.

Lemma dict_get_set_eq {V} k (v : V) d : dict_get k (dict_set k v d) = Some v.
Proof.
  induction d as [|[k' v'] d IH]; simpl.
  - by rewrite String.eqb_refl.
  - destruct (String.eqb k' k) eqn:E; simpl.
    + by rewrite String.eqb_refl.
    + by rewrite E.
Qed.

Lemma dict_get_set_ne {V} k k' (v : V) d :
  k <> k' -> dict_get k' (dict_set k v d) = dict_get k' d.
Proof.
  intros Hne. induction d as [|[k0 v0] d IH]; simpl.
  - destruct (String.eqb k k') eqn:E; [|done]. by apply String.eqb_eq in E.
  - destruct (String.eqb k0 k) eqn:E; simpl.
    + apply String.eqb_eq in E as ->.
      destruct (String.eqb k k') eqn:E'; [|done]. by apply String.eqb_eq in E'.
    + destruct (String.eqb k0 k'); [done | exact IH].
Qed.

(** Cutting a list into [k] consecutive blocks of [b] elements. *)
Lemma blocks_of {A} (t : list A) b k :
  k * b <= length t ->
  Forall (fun ch => length ch = b) (map (fun j => take b (drop (j * b) t)) (seq 0 k)) /\
  length (map (fun j => take b (drop (j * b) t)) (seq 0 k)) = k /\
  concat (map (fun j => take b (drop (j * b) t)) (seq 0 k)) = take (k * b) t.
Proof.
  intros Hk. split; [|split].
  - apply Forall_forall. intros ch Hin%list_elem_of_In%in_map_iff.
    destruct Hin as (j & <- & Hj%in_seq). rewrite length_take, length_drop. nia.
  - by rewrite length_map, length_seq.
  - induction k as [|k IH]; [done|].
    rewrite seq_S, map_app, concat_app, IH by lia. simpl. rewrite app_nil_r.
    rewrite take_take_drop. f_equal. lia.
Qed.

Lemma slices_blocks {A} (t : list A) bs k :
  (0 < bs)%Z ->
  map (fun i => slice t i (i + bs)) (map (fun j => (Z.of_nat j * bs)%Z) (seq 0 k))
  = map (fun j => take (Z.to_nat bs) (drop (j * Z.to_nat bs) t)) (seq 0 k).
Proof.
  intros Hbs. rewrite map_map. apply map_ext. intros j. unfold slice.
  f_equal; [f_equal; lia|]. f_equal. nia.
Qed.

Lemma range_count_multiple q bs :
  (0 < bs)%Z -> (0 <= q)%Z -> ((q * bs + bs - 1) / bs = q)%Z.
Proof.
  intros Hbs Hq. symmetry. apply (Z.div_unique _ _ q (bs - 1)); lia.
Qed.

Lemma range_count_short n bs :
  (0 < n < bs)%Z -> ((n + bs - 1) / bs = 1)%Z.
Proof.
  intros Hn. symmetry. apply (Z.div_unique _ _ 1 (n - 1)); lia.
Qed.

(** C8, amended.  For a positive [block_size] and columns of the same
    total length [n]: when [block_size <= n], the token sequences are
    concatenated and cut into [n / block_size] blocks of exactly
    [block_size] tokens, the remainder being dropped; when
    [n < block_size], the concatenation is kept as one short block (none
    when it is empty); in both cases [labels] holds the same blocks as
    [input_ids]. *)
Theorem C8_group_texts block_size examples seqs :
  (0 < block_size)%Z ->
  dict_get "input_ids" examples = Some seqs ->
  (forall k v, head examples = Some (k, v) ->
               length (concat v) = length (concat seqs)) ->
  exists r chunks,
    group_texts block_size examples = Ok r /\
    dict_get "input_ids" r = Some chunks /\
    dict_get "labels" r = Some chunks /\
    ((block_size <= Z.of_nat (length (concat seqs)))%Z ->
      Forall (fun ch => Z.of_nat (length ch) = block_size) chunks /\
      Z.of_nat (length chunks) = (Z.of_nat (length (concat seqs)) / block_size)%Z /\
      concat chunks
      = take (Z.to_nat (Z.of_nat (length (concat seqs)) / block_size * block_size))
          (concat seqs)) /\
    ((Z.of_nat (length (concat seqs)) < block_size)%Z ->
      chunks = if (Z.of_nat (length (concat seqs)) =? 0)%Z then [] else [concat seqs]).
Proof.
  intros Hbs Hget Hfirst.
  destruct examples as [|[k0 v0] examples]; [done|].
  specialize (Hfirst k0 v0 eq_refl).
  set (n := Z.of_nat (length (concat seqs))) in *.
  set (total := if (block_size <=? n)%Z then (n / block_size * block_size)%Z else n).
  set (starts := map (fun j => (Z.of_nat j * block_size)%Z)
                   (seq 0 (Z.to_nat ((total + block_size - 1) / block_size)))).
  set (chunks := map (fun i => slice (concat seqs) i (i + block_size)) starts).
  set (result := map (fun kt : string * list Z =>
                        (kt.1, map (fun i => slice kt.2 i (i + block_size)) starts))
                     (map (fun kv : string * list (list Z) => (kv.1, concat kv.2))
                          ((k0, v0) :: examples))).
  assert (Hnz : (block_size =? 0)%Z = false) by (apply Z.eqb_neq; lia).
  assert (Hres : dict_get "input_ids" result = Some chunks).
  { unfold result.
    rewrite (dict_get_map (fun t => map (fun i => slice t i (i + block_size)) starts)).
    rewrite (dict_get_map (@concat Z)), Hget. reflexivity. }
  exists (dict_set "labels" chunks result), chunks.
  split; [|split; [|split; [|split]]].
  - unfold group_texts, first_item, floordiv, range_from_0, dict_lookup.
    cbn [map fst snd mbind outcome_bind]. rewrite Hfirst. fold n. rewrite Hnz.
    cbn [mbind outcome_bind].
    replace (if (block_size <=? n)%Z then Ok (n / block_size * block_size)%Z else Ok n)
      with (Ok total) by (unfold total; by destruct (block_size <=? n)%Z).
    cbn [mbind outcome_bind]. rewrite (proj2 (Z.ltb_lt _ _) Hbs).
    change (match dict_get "input_ids" result with
            | Some v => Ok v
            | None => Raise KeyError
            end ≫= (fun chunks0 => Ok (dict_set "labels" chunks0 result))
            = Ok (dict_set "labels" chunks result)).
    by rewrite Hres.
  - rewrite dict_get_set_ne by done. exact Hres.
  - apply dict_get_set_eq.
  - intros Hle. unfold chunks, starts, total.
    rewrite (proj2 (Z.leb_le _ _) Hle).
    assert (Hq : (0 <= n / block_size)%Z) by (apply Z.div_pos; lia).
    rewrite range_count_multiple by done.
    rewrite slices_blocks by done.
    destruct (blocks_of (concat seqs) (Z.to_nat block_size) (Z.to_nat (n / block_size)))
      as (H1 & H2 & H3).
    { pose proof (Z.mul_div_le n block_size Hbs). unfold n in *. nia. }
    split; [|split].
    + eapply Forall_impl; [exact H1|]. intros ch Hch. simpl in Hch. lia.
    + rewrite H2. lia.
    + rewrite H3. f_equal. nia.
  - intros Hlt. unfold chunks, starts, total.
    rewrite (proj2 (Z.leb_gt _ _) Hlt).
    destruct (Z.eqb_spec n 0) as [Hn|Hn].
    + rewrite Hn. replace ((0 + block_size - 1) / block_size)%Z with 0%Z; [done|].
      symmetry. apply Z.div_small. lia.
    + rewrite range_count_short by lia. simpl. unfold slice. f_equal.
      rewrite Z.mul_0_l. simpl. apply take_ge. unfold n in *. lia.
Qed.

(** ** The perplexity report *)

(** C7. When [math.exp] of the mean evaluation loss raises
    [OverflowError], the report is positive infinity; and on no input does
    an [OverflowError] leave the report. *)
Theorem C7_perplexity_overflow exp_overflows exp_value losses n_eval ls :
  torch_cat losses = Ok ls ->
  math_exp exp_overflows exp_value (torch_mean (take n_eval ls)) = Raise OverflowError ->
  report_perplexity exp_overflows exp_value losses n_eval = Ok PosInf /\
  (forall losses' n_eval',
     report_perplexity exp_overflows exp_value losses' n_eval' <> Raise OverflowError).
Proof.
  intros Hcat Hexp. split.
  - unfold report_perplexity. rewrite Hcat. cbn [mbind outcome_bind]. by rewrite Hexp.
  - clear. intros losses' n'. unfold report_perplexity, torch_cat.
    destruct losses' as [|l0 losses']; cbn [mbind outcome_bind]; [congruence|].
    destruct (math_exp _ _ _) as [v|[]]; congruence.
Qed.

(** * Further properties of the code *)

(** ** [gen_counterfactual]: what a call leaves behind *)

Section SearchMore.
  Variable partial : (list Q -> Q) -> list Q -> nat -> Q.
  Variable forward : bool -> list (tensor Q) -> tensor Q -> tensor Q.
  Variable CrossEntropyLoss : tensor Q -> tensor Z -> Q.

(** After an iteration, the [.grad] of the tensor is the gradient of the
    loss at the value that the iteration started from: [zero_grad] comes
    first in the body, and nothing clears the gradient after the step. *)
Lemma loop_body_grad c criterion z probe s_prime st l st' l' :
  call_inv z probe (st, l) ->
  loop_body partial forward c criterion z probe s_prime (st, l) = Some (st', l') ->
  exists o,
    tensors st' !! z = Some o /\ t_requires_grad o = true /\
    t_grad o = Some (input_grad partial forward criterion s_prime false
                       (param_vals st probe) (val_at st z)).
Proof.
  intros (zo & m & Hz & Hrg & Hok & Hbuf & Hm & Htr & Hps). simpl in *.
  assert (Hzps : z ∉ parameters m).
  { intros Hin. rewrite Forall_forall in Hps. by destruct (Hps z Hin). }
  set (ts0 := alter zero_grad_obj z (tensors st)).
  assert (Hts0 : ts0 !! z = Some (zero_grad_obj zo)).
  { unfold ts0. by rewrite lookup_alter_eq, Hz. }
  assert (Hrv0 : read_vals ts0 (parameters m) = read_vals (tensors st) (parameters m)).
  { apply read_vals_ext. intros p _. apply meta_t_val, lookup_alter_meta, meta_zero_grad_obj. }
  destruct (read_vals_is_Some (tensors st) (parameters m)) as [pvals Hpv].
  { eapply Forall_impl; [exact Hps|]. by intros p [? _]. }
  assert (Hpvals : param_vals st probe = pvals).
  { unfold param_vals. rewrite Hm. simpl. by rewrite Hpv. }
  assert (Hval : val_at st z = t_val zo).
  { unfold val_at. by rewrite Hz. }
  rewrite Hpvals, Hval.
  set (gz := input_grad partial forward criterion s_prime false pvals (t_val zo)).
  set (ts1 := backward partial forward criterion z s_prime false (parameters m) pvals
                (t_val zo) ts0).
  assert (Hts1 : ts1 !! z = Some (TensorObj (t_val zo) (Some gz) true)).
  { unfold ts1. rewrite backward_lookup_z by done. rewrite Hts0. simpl. f_equal.
    apply accumulate_after_zero; auto. apply length_input_grad. }
  unfold loop_body. fold ts0. rewrite Hts0. simpl.
  rewrite Hm. simpl. rewrite Hrv0, Hpv. simpl. rewrite Htr.
  fold gz ts1. unfold sgd_step. rewrite Hts1. simpl.
  destruct (update_patience _ _ _) as [patience minl]. intros [= <- <-]. simpl.
  rewrite lookup_alter_eq, Hts1. simpl. eauto.
Qed.

(** X1.  With the constants of the source, the loop of every valid call runs at
    least once, the [break] of lines 37 to 39 is never taken (the patience
    is at most the number of iterations, which is at most 100, and
    [max_patience] is 10000), and the loop ends by its test. *)
Theorem patience_break_is_dead z probe s_prime criterion st :
  valid_call st z probe = true ->
  exists st' n,
    gen_counterfactual partial forward CrossEntropyLoss z probe s_prime criterion st
    = Some (st', z) /\
    search_run partial forward source_constants (default CrossEntropyLoss criterion)
      z probe s_prime st
    = Some (st', locals_at partial forward source_constants
                   (default CrossEntropyLoss criterion) s_prime
                   (param_vals st probe) (val_at st z) n) /\
    1 <= n <= 100 /\
    (forall k, (Z.of_nat k <= 10000)%Z ->
       patience_exceeded source_constants
         (locals_at partial forward source_constants
            (default CrossEntropyLoss criterion) s_prime
            (param_vals st probe) (val_at st z) k) = false) /\
    loop_test source_constants
      (locals_at partial forward source_constants
         (default CrossEntropyLoss criterion) s_prime
         (param_vals st probe) (val_at st z) n) = false.
Proof.
  intros Hv.
  destruct (gen_counterfactual_with_spec partial forward CrossEntropyLoss
              source_constants z probe s_prime criterion st Hv)
    as (st' & n & Hg & Hr & _ & _ & Hl & _).
  exists st', n. split; [exact Hg|]. split; [exact Hr|].
  assert (Hpat : forall k, (Z.of_nat k <= 10000)%Z ->
            patience_exceeded source_constants
              (locals_at partial forward source_constants
                 (default CrossEntropyLoss criterion) s_prime
                 (param_vals st probe) (val_at st z) k) = false).
  { intros k Hk. unfold patience_exceeded. apply Z.ltb_ge.
    pose proof (L_patience partial forward source_constants
                  (default CrossEntropyLoss criterion) s_prime
                  (param_vals st probe) (val_at st z) k).
    cbn [max_patience source_constants]. lia. }
  destruct (steps_below_cap partial forward source_constants
              (default CrossEntropyLoss criterion) s_prime
              (param_vals st probe) (val_at st z) n) as [Hle _]; try done.
  cbn [max_num_steps source_constants] in Hle.
  destruct Hl as (H1 & _ & H3).
  assert (Hn : 1 <= n).
  { destruct n as [|n]; [|lia]. destruct H3 as [H3|[H3 _]]; [|lia]. done. }
  split; [lia|]. split; [exact Hpat|].
  destruct H3 as [H3|[_ H3]]; [exact H3|].
  rewrite Hpat in H3 by lia. done.
Qed.

(** X2.  When a valid call returns, the tensor requires grad and its [.grad]
    is the gradient of the loss at the value the tensor had before the
    last update: the call does not clear it. *)
Theorem gradient_left_on_tensor z probe s_prime criterion st :
  valid_call st z probe = true ->
  exists st' n o,
    gen_counterfactual partial forward CrossEntropyLoss z probe s_prime criterion st
    = Some (st', z) /\
    tensors st' !! z = Some o /\
    t_val o = (kernel_iter partial forward source_constants
                 (default CrossEntropyLoss criterion) s_prime
                 (param_vals st probe) (Datatypes.S n) (val_at st z, initial_locals)).1 /\
    t_requires_grad o = true /\
    t_grad o
    = Some (input_grad partial forward (default CrossEntropyLoss criterion) s_prime false
              (param_vals st probe)
              (kernel_iter partial forward source_constants
                 (default CrossEntropyLoss criterion) s_prime
                 (param_vals st probe) n (val_at st z, initial_locals)).1).
Proof.
  intros Hv.
  set (crit := default CrossEntropyLoss criterion).
  destruct (search_run_spec partial forward source_constants crit z probe s_prime st Hv)
    as (st0 & st' & n' & Hp & Hi & Hr & Hval & _ & _ & _ & H3 & _).
  assert (Hg : gen_counterfactual partial forward CrossEntropyLoss z probe s_prime
                 criterion st = Some (st', z)).
  { unfold gen_counterfactual, gen_counterfactual_with. fold crit. by rewrite Hr. }
  destruct n' as [|n]; [by destruct H3 as [H3|[H3 _]]; [|lia]|].
  destruct (prepare_spec z probe st Hv) as (st0' & Hp' & Hinv & Hv0 & Hpv0 & _).
  rewrite Hp in Hp'. injection Hp' as <-.
  rewrite iter_body_succ in Hi.
  destruct (iter_body_spec partial forward source_constants crit z probe s_prime n
              st0 initial_locals Hinv)
    as (stn & Hin & Hvn & Hinvn & Hmn & Hfn & _).
  rewrite Hin in Hi. cbn [mbind option_bind] in Hi.
  destruct (loop_body_grad source_constants crit z probe s_prime _ _ _ _ Hinvn Hi)
    as (o & Ho & Hrg & Hgr).
  assert (Hpvn : param_vals stn probe = param_vals st probe).
  { rewrite <- Hpv0.
    apply (param_vals_frame z probe st0 stn initial_locals); [by rewrite Hmn|done|done]. }
  rewrite Hpvn, Hvn, Hpv0, Hv0 in Hgr.
  exists st', n, o. split; [exact Hg|]. split; [exact Ho|].
  split; [|split; [exact Hrg | exact Hgr]].
  unfold val_at in Hval. rewrite Ho in Hval. exact Hval.
Qed.

End SearchMore.

(** ** [group_texts]: errors and columns *)

(** With a block size that is not 0 and a first column, [group_texts] cuts
    every column at the starts that the first column gives, and fails only
    for want of an [input_ids] column. *)
Lemma group_texts_unfold block_size k0 v0 examples :
  block_size <> 0%Z ->
  let starts := chunk_starts block_size (length (concat v0)) in
  let result :=
    map (fun kv : string * list (list Z) =>
           (kv.1, map (fun i => slice (concat kv.2) i (i + block_size)) starts))
        ((k0, v0) :: examples) in
  group_texts block_size ((k0, v0) :: examples)
  = match dict_get "input_ids" result with
    | Some chunks => Ok (dict_set "labels" chunks result)
    | None => Raise KeyError
    end.
Proof.
  intros Hbs starts result.
  assert (Hnz : (block_size =? 0)%Z = false) by (by apply Z.eqb_neq).
  set (n := Z.of_nat (length (concat v0))).
  set (total := if (block_size <=? n)%Z then (n / block_size * block_size)%Z else n).
  unfold group_texts.
  set (ce := map (fun kv : string * list (list Z) => (kv.1, concat kv.2))
                 ((k0, v0) :: examples)).
  change (first_item ce) with (Ok (k0, concat v0) : outcome (string * list Z)).
  cbn [mbind outcome_bind snd]. fold n. unfold floordiv. rewrite Hnz.
  cbn [mbind outcome_bind].
  replace (if (block_size <=? n)%Z then Ok (n / block_size * block_size)%Z else Ok n)
    with (Ok total) by (unfold total; by destruct (block_size <=? n)%Z).
  cbn [mbind outcome_bind]. unfold range_from_0. rewrite Hnz.
  cbn [mbind outcome_bind]. unfold ce. rewrite map_map. unfold dict_lookup.
  change (match dict_get "input_ids" result with
          | Some v => Ok v
          | None => Raise KeyError
          end ≫= (fun chunks => Ok (dict_set "labels" chunks result))
          = match dict_get "input_ids" result with
            | Some chunks => Ok (dict_set "labels" chunks result)
            | None => Raise KeyError
            end).
  by destruct (dict_get "input_ids" result).
Qed.

(** X3.  [group_texts] fails in three cases and in no other: without any column
    ([IndexError]), with a block size of 0 ([ZeroDivisionError]), and
    without an [input_ids] column ([KeyError]); the earlier case wins. *)
Theorem group_texts_failures block_size examples :
  (group_texts block_size examples = Raise IndexError <-> examples = []) /\
  (group_texts block_size examples = Raise ZeroDivisionError
   <-> examples <> [] /\ block_size = 0%Z) /\
  (group_texts block_size examples = Raise KeyError
   <-> examples <> [] /\ block_size <> 0%Z /\ dict_get "input_ids" examples = None) /\
  ((exists r, group_texts block_size examples = Ok r)
   <-> examples <> [] /\ block_size <> 0%Z /\ is_Some (dict_get "input_ids" examples)).
Proof.
  destruct examples as [|[k0 v0] examples].
  { change (group_texts block_size []) with
      (Raise IndexError : outcome (list (string * list (list Z)))).
    split; [done|]. split; [split; [done | by intros [? _]]|].
    split; [split; [done | by intros [? _]]|].
    split; [by intros [? ?] | by intros [? _]]. }
  destruct (decide (block_size = 0%Z)) as [->|Hbs].
  { assert (H0 : group_texts 0 ((k0, v0) :: examples) = Raise ZeroDivisionError).
    { unfold group_texts, first_item, floordiv. cbn [map fst snd mbind outcome_bind].
      replace (0 <=? Z.of_nat (length (concat v0)))%Z with true
        by (symmetry; apply Z.leb_le; lia).
      reflexivity. }
    rewrite H0.
    split; [split; [done | done]|]. split; [split; [done | done]|].
    split; [split; [done | by intros (_ & ? & _)]|].
    split; [by intros [? ?] | by intros (_ & ? & _)]. }
  rewrite (group_texts_unfold block_size k0 v0 examples Hbs). cbv zeta.
  rewrite (dict_get_map (fun col => map (fun i => slice (concat col) i (i + block_size))
                                      (chunk_starts block_size (length (concat v0))))).
  destruct (dict_get "input_ids" ((k0, v0) :: examples)) as [seqs|];
    cbn [fmap option_fmap option_map].
  - split; [split; [done | done]|]. split; [split; [done | by intros [_ ?]]|].
    split; [split; [done | by intros (_ & _ & ?)]|].
    split; [intros _; split; [done | split; [done | eauto]] | eauto].
  - split; [split; [done | done]|]. split; [split; [done | by intros [_ ?]]|].
    split; [split; done|].
    split; [by intros [? ?] | by intros (_ & _ & [? ?])].
Qed.

Lemma keys_dict_set {V} k (v : V) (d : list (string * V)) :
  keys (dict_set k v d) = if bool_decide (k ∈ keys d) then keys d else keys d ++ [k].
Proof.
  unfold keys. induction d as [|[k' v'] d IH]; [done|]. cbn [dict_set fmap list_fmap fst].
  destruct (String.eqb k' k) eqn:E.
  - apply String.eqb_eq in E as ->. cbn. rewrite bool_decide_eq_true_2; [done|].
    apply list_elem_of_here.
  - cbn [fmap list_fmap fst]. change (list_fmap _ _ fst ?l) with (l.*1). rewrite IH.
    assert (Hne : k <> k') by (intros ->; by rewrite String.eqb_refl in E).
    destruct (decide (k ∈ d.*1)) as [Hin|Hin].
    + rewrite !bool_decide_eq_true_2; [done| |done]. by apply list_elem_of_further.
    + rewrite !bool_decide_eq_false_2; [done| |done].
      intros [?|?]%elem_of_cons; done.
Qed.

Lemma chunk_starts_positive block_size n :
  (0 < block_size)%Z ->
  chunk_starts block_size n
  = map (fun j => (Z.of_nat j * block_size)%Z) (seq 0 (chunk_count block_size n)).
Proof.
  intros Hbs. unfold chunk_starts, chunk_count.
  rewrite (proj2 (Z.ltb_lt _ _) Hbs). f_equal. f_equal.
  destruct (Z.leb_spec block_size (Z.of_nat n)) as [Hle|Hlt].
  - rewrite range_count_multiple; [done|done|]. apply Z.div_pos; lia.
  - destruct (Nat.eqb_spec n 0) as [->|Hn].
    + simpl. rewrite Z.div_small by lia. done.
    + rewrite range_count_short by lia. done.
Qed.

Lemma Forall_dict_set {V} (P : string * V -> Prop) k v (d : list (string * V)) :
  P (k, v) -> Forall P d -> Forall P (dict_set k v d).
Proof.
  intros Hv. induction 1 as [|[k' x] d Hx Hd IH]; cbn [dict_set].
  - by constructor.
  - destruct (String.eqb k' k); constructor; auto.
Qed.

(** The result of [group_texts] for a positive block size, column by
    column. *)
Lemma group_texts_cut block_size examples k0 v0 seqs :
  (0 < block_size)%Z ->
  head examples = Some (k0, v0) ->
  dict_get "input_ids" examples = Some seqs ->
  let count := chunk_count block_size (length (concat v0)) in
  let chunks (col : list (list Z)) :=
    map (fun j => take (Z.to_nat block_size) (drop (j * Z.to_nat block_size) (concat col)))
        (seq 0 count) in
  group_texts block_size examples
  = Ok (dict_set "labels" (chunks seqs) (map (fun kv => (kv.1, chunks kv.2)) examples)).
Proof.
  intros Hbs Hhead Hget count chunks.
  destruct examples as [|[k0' v0'] examples]; [done|]. injection Hhead as -> ->.
  rewrite (group_texts_unfold block_size k0 v0 examples) by lia. cbv zeta.
  rewrite chunk_starts_positive by done. fold count.
  assert (Hmap : map (fun kv : string * list (list Z) =>
                        (kv.1, map (fun i => slice (concat kv.2) i (i + block_size))
                                 (map (fun j => (Z.of_nat j * block_size)%Z) (seq 0 count))))
                     ((k0, v0) :: examples)
                 = map (fun kv => (kv.1, chunks kv.2)) ((k0, v0) :: examples)).
  { apply map_ext. intros [k col]. cbn [fst snd]. f_equal. by apply slices_blocks. }
  rewrite Hmap, (dict_get_map chunks), Hget. reflexivity.
Qed.

(** X4.  For a positive block size, [group_texts] keeps the columns and their
    order, with a [labels] column added at the end unless there is one
    already; every column is cut at the same positions, chunk [j] holding
    the elements [j * block_size] to [(j + 1) * block_size - 1] of the
    concatenated column, and has the same number of chunks, which the
    first column decides; an existing [labels] column is overwritten by
    the chunks of [input_ids]; no chunk is longer than [block_size]. *)
Theorem group_texts_columns block_size examples k0 v0 seqs :
  (0 < block_size)%Z ->
  head examples = Some (k0, v0) ->
  dict_get "input_ids" examples = Some seqs ->
  let count := chunk_count block_size (length (concat v0)) in
  let chunks (col : list (list Z)) :=
    map (fun j => take (Z.to_nat block_size) (drop (j * Z.to_nat block_size) (concat col)))
        (seq 0 count) in
  exists r,
    group_texts block_size examples = Ok r /\
    keys r = (if bool_decide ("labels" ∈ keys examples)
              then keys examples else keys examples ++ ["labels"]) /\
    (forall k col, k <> "labels" -> dict_get k examples = Some col ->
                   dict_get k r = Some (chunks col)) /\
    dict_get "labels" r = Some (chunks seqs) /\
    Forall (fun kv => length kv.2 = count) r /\
    Forall (fun kv => Forall (fun ch => length ch <= Z.to_nat block_size) kv.2) r.
Proof.
  intros Hbs Hhead Hget count chunks.
  rewrite (group_texts_cut block_size examples k0 v0 seqs Hbs Hhead Hget). cbv zeta.
  fold count. fold chunks.
  assert (Hlen : forall col, length (chunks col) = count).
  { intros col. unfold chunks. by rewrite length_map, length_seq. }
  assert (Hle : forall col, Forall (fun ch => length ch <= Z.to_nat block_size) (chunks col)).
  { intros col. apply Forall_forall. intros ch Hin%list_elem_of_In%in_map_iff.
    destruct Hin as (j & <- & _). rewrite length_take. lia. }
  eexists. split; [reflexivity|].
  split.
  { rewrite keys_dict_set. unfold keys. rewrite <- !list_fmap_compose. reflexivity. }
  split.
  { intros k col Hk Hcol. rewrite dict_get_set_ne by done.
    by rewrite (dict_get_map chunks), Hcol. }
  split; [apply dict_get_set_eq|].
  split.
  - apply Forall_dict_set; [apply Hlen|].
    apply Forall_forall. intros kv Hin%list_elem_of_In%in_map_iff.
    destruct Hin as (? & <- & _). apply Hlen.
  - apply Forall_dict_set; [apply Hle|].
    apply Forall_forall. intros kv Hin%list_elem_of_In%in_map_iff.
    destruct Hin as (? & <- & _). apply Hle.
Qed.

(** X5.  A negative block size is no error: [group_texts] returns every column,
    and [labels], without any chunk. *)
Theorem group_texts_negative_block_size block_size examples :
  (block_size < 0)%Z ->
  examples <> [] ->
  is_Some (dict_get "input_ids" examples) ->
  exists r,
    group_texts block_size examples = Ok r /\
    is_Some (dict_get "labels" r) /\
    Forall (fun kv => kv.2 = []) r.
Proof.
  intros Hbs Hne [seqs Hget].
  destruct examples as [|[k0 v0] examples]; [done|].
  rewrite (group_texts_unfold block_size k0 v0 examples) by lia. cbv zeta.
  assert (Hs : chunk_starts block_size (length (concat v0)) = []).
  { unfold chunk_starts.
    replace (0 <? block_size)%Z with false by (symmetry; apply Z.ltb_ge; lia).
    replace (block_size <=? Z.of_nat (length (concat v0)))%Z with true
      by (symmetry; apply Z.leb_le; lia).
    set (n := Z.of_nat (length (concat v0))).
    assert (Hq : (n / block_size <= 0)%Z).
    { rewrite <- Z.div_opp_opp by lia. apply Z.div_le_upper_bound; lia. }
    assert (Ht : (0 <= n / block_size * block_size)%Z) by nia.
    assert (Hc : ((- (n / block_size * block_size) - block_size - 1) / (- block_size) <= 0)%Z).
    { assert ((- (n / block_size * block_size) - block_size - 1) / (- block_size) < 1)%Z;
        [|lia].
      apply Z.div_lt_upper_bound; lia. }
    destruct (Z.to_nat _) eqn:E; [done | lia]. }
  rewrite Hs.
  set (result := map _ ((k0, v0) :: examples)).
  assert (Hall : Forall (fun kv : string * list (list Z) => kv.2 = []) result).
  { apply Forall_forall. intros kv Hin%list_elem_of_In%in_map_iff.
    by destruct Hin as (? & <- & _). }
  assert (Hres : dict_get "input_ids" result = Some []).
  { unfold result.
    rewrite (dict_get_map (fun col : list (list Z) =>
               map (fun i => slice (concat col) i (i + block_size)) [])), Hget.
    reflexivity. }
  rewrite Hres.
  eexists. split; [reflexivity|]. split; [rewrite dict_get_set_eq; eauto|].
  clearbody result. clear Hres.
  induction Hall as [|[k x] d Hx Hd IH]; cbn [dict_set].
  - by constructor.
  - destruct (String.eqb k "labels"); constructor; auto.
Qed.

(** ** The block size of [_train_lm] *)

(** X6.  Without [--block_size] the block size is 1024 whatever the tokenizer
    allows, so that it exceeds [model_max_length] exactly when that is
    below 1024, and no warning is logged then; with [--block_size] it is
    the smaller of the two and never exceeds [model_max_length]. *)
Theorem lm_block_size_exceeds a model_max_length :
  ((model_max_length < (lm_block_size a model_max_length).1)%Z
   <-> block_size a = None /\ (model_max_length < 1024)%Z) /\
  ((model_max_length < (lm_block_size a model_max_length).1)%Z ->
   (lm_block_size a model_max_length).2 = false) /\
  (block_size a = None -> (lm_block_size a model_max_length).1 = 1024%Z) /\
  (forall b, block_size a = Some b ->
             (lm_block_size a model_max_length).1 = Z.min b model_max_length).
Proof.
  unfold lm_block_size. destruct (block_size a) as [b|]; cbn [fst snd].
  - split; [split; [lia | by intros [? _]]|]. split; [lia|].
    split; [done|]. by intros ? [= <-].
  - split; [split; [done | by intros [_ ?]]|].
    split; [intros H; apply Z.ltb_ge; lia|]. split; done.
Qed.

(** X7.  The chunks that [_train_lm] trains on: with a positive [--block_size]
    (and a positive [model_max_length]) no chunk of any column is longer
    than [model_max_length]; without [--block_size], when [input_ids] is
    the first column and holds at least 1024 tokens, there are chunks and
    each has exactly 1024 tokens, also when [model_max_length] is smaller. *)
Theorem train_lm_chunk_lengths a model_max_length examples k0 v0 seqs :
  (0 < model_max_length)%Z ->
  (forall b, block_size a = Some b -> (0 < b)%Z) ->
  head examples = Some (k0, v0) ->
  dict_get "input_ids" examples = Some seqs ->
  exists r chunks,
    train_lm_group_texts a model_max_length examples = Ok r /\
    dict_get "input_ids" r = Some chunks /\
    (is_Some (block_size a) ->
     Forall (fun kv => Forall (fun ch => (Z.of_nat (length ch) <= model_max_length)%Z) kv.2) r) /\
    (block_size a = None ->
     Forall (fun kv => Forall (fun ch => length ch <= 1024) kv.2) r /\
     (k0 = "input_ids" -> 1024 <= length (concat seqs) ->
      chunks <> [] /\ Forall (fun ch => length ch = 1024) chunks)).
Proof.
  intros Hm Hb Hhead Hget. unfold train_lm_group_texts.
  set (bs := (lm_block_size a model_max_length).1).
  assert (Hbs : (0 < bs)%Z).
  { unfold bs, lm_block_size. destruct (block_size a) as [b|]; cbn [fst]; [|lia].
    specialize (Hb b eq_refl). lia. }
  pose proof (group_texts_cut bs examples k0 v0 seqs Hbs Hhead Hget) as Hr.
  cbv zeta in Hr.
  set (chunks := fun col : list (list Z) =>
         map (fun j => take (Z.to_nat bs) (drop (j * Z.to_nat bs) (concat col)))
             (seq 0 (chunk_count bs (length (concat v0))))) in *.
  assert (Hcl : forall col, Forall (fun ch => length ch <= Z.to_nat bs) (chunks col)).
  { intros col. apply Forall_forall. intros ch Hin%list_elem_of_In%in_map_iff.
    destruct Hin as (j & <- & _). rewrite length_take. lia. }
  assert (Hle : Forall (fun kv : string * list (list Z) =>
                  Forall (fun ch => length ch <= Z.to_nat bs) kv.2)
                  (dict_set "labels" (chunks seqs)
                     (map (fun kv => (kv.1, chunks kv.2)) examples))).
  { apply Forall_dict_set; [apply Hcl|].
    apply Forall_forall. intros kv Hin%list_elem_of_In%in_map_iff.
    destruct Hin as (? & <- & _). apply Hcl. }
  eexists _, (chunks seqs). split; [exact Hr|].
  split.
  { rewrite dict_get_set_ne by done. by rewrite (dict_get_map chunks), Hget. }
  split.
  - intros [b Hsome]. eapply Forall_impl; [exact Hle|]. intros kv Hkv.
    eapply Forall_impl; [exact Hkv|]. intros ch Hch. cbn beta in Hch.
    assert (bs <= model_max_length)%Z; [|lia].
    unfold bs, lm_block_size. rewrite Hsome. cbn [fst]. lia.
  - intros Hnone.
    assert (Hbs1024 : bs = 1024%Z).
    { unfold bs, lm_block_size. by rewrite Hnone. }
    split.
    + eapply Forall_impl; [exact Hle|]. intros kv Hkv.
      eapply Forall_impl; [exact Hkv|]. intros ch Hch. cbn beta in Hch.
      rewrite Hbs1024 in Hch. exact Hch.
    + intros -> Hlen.
      assert (Hv0 : v0 = seqs).
      { destruct examples as [|[k v] examples]; [done|]. injection Hhead as -> ->.
        cbn in Hget. by injection Hget. }
      subst v0. unfold chunks. rewrite Hbs1024.
      assert (Hcount : chunk_count 1024 (length (concat seqs))
                       = Z.to_nat (Z.of_nat (length (concat seqs)) / 1024)).
      { unfold chunk_count. rewrite (proj2 (Z.leb_le _ _)); [done | lia]. }
      rewrite Hcount.
      set (q := Z.to_nat (Z.of_nat (length (concat seqs)) / 1024)).
      assert (Hq : 1 <= q /\ q * Z.to_nat 1024 <= length (concat seqs)).
      { unfold q.
        pose proof (Z.mul_div_le (Z.of_nat (length (concat seqs))) 1024 ltac:(lia)).
        assert (1 <= Z.of_nat (length (concat seqs)) / 1024)%Z
          by (apply Z.div_le_lower_bound; lia).
        split; lia. }
      destruct (blocks_of (concat seqs) (Z.to_nat 1024) q) as (H1 & H2 & _); [lia|].
      split.
      * intros Hnil. rewrite Hnil in H2. simpl in H2. lia.
      * eapply Forall_impl; [exact H1|]. intros ch Hch. cbn beta in Hch. lia.
Qed.

(** ** The loops of [train_with_prepped_dataset] *)







Section TrainingFacts.
  Variable exp_overflows : Q -> bool.
  Variable exp_value : Q -> Q.
  Variable eval_losses : list event -> list Q.
  Variable gather : list Q -> list Q.
  Variable len_eval_dataset : nat.


(** The batches from [s] on, [k] of them, of an epoch that is below the
    budget: the loop stops at the budget or at the end of the batches. *)
Lemma train_batches_from n g M epoch : forall k s c trace,
  (0 < g)%Z -> s + k = n -> (c < M)%Z ->
  exists trace',
    train_batches (Z.of_nat n) g M epoch (map Z.of_nat (seq s k)) c trace
    = Ok (Z.min M (c + Z.of_nat
                         (length (List.filter
                            (fun t => (Z.of_nat t mod g =? 0)%Z
                                      || (Z.of_nat t =? Z.of_nat n - 1)%Z)
                            (seq s k)))), trace ++ trace') /\
    updates trace'
    = (Z.min M (c + Z.of_nat
                      (length (List.filter
                         (fun t => (Z.of_nat t mod g =? 0)%Z
                                   || (Z.of_nat t =? Z.of_nat n - 1)%Z)
                         (seq s k)))) - c)%Z.
Proof.
  induction k as [|k IH]; intros s c trace Hg Hs Hc.
  - exists []. cbn. rewrite app_nil_r. split; [f_equal; f_equal; lia | lia].
  - cbn [seq map train_batches List.filter]. unfold py_mod.
    replace (g =? 0)%Z with false by (symmetry; apply Z.eqb_neq; lia).
    cbn [mbind outcome_bind].
    destruct ((Z.of_nat s mod g =? 0)%Z || (Z.of_nat s =? Z.of_nat n - 1)%Z) eqn:E.
    + cbn [length].
      destruct (Z.leb_spec M (c + 1)) as [Hle|Hlt].
      * exists [Backward epoch (Z.of_nat s); Update].
        rewrite <- app_assoc. cbn [app updates foldr].
        split; [f_equal; f_equal; lia | lia].
      * destruct (IH (Datatypes.S s) (c + 1)%Z
                    ((trace ++ [Backward epoch (Z.of_nat s)]) ++ [Update]))
          as (trace' & Ht & Hu); [done | lia | lia |].
        exists ([Backward epoch (Z.of_nat s); Update] ++ trace').
        rewrite Ht. rewrite <- !app_assoc. cbn [app].
        split; [f_equal; f_equal; lia|].
        cbn [updates foldr]. fold (updates trace'). lia.
    + replace (M <=? c)%Z with false by (symmetry; apply Z.leb_gt; lia).
      destruct (IH (Datatypes.S s) c (trace ++ [Backward epoch (Z.of_nat s)]))
        as (trace' & Ht & Hu); [done | lia | lia |].
      exists ([Backward epoch (Z.of_nat s)] ++ trace').
      rewrite Ht. rewrite <- !app_assoc. cbn [app].
      split; [done|]. cbn [updates foldr]. fold (updates trace'). exact Hu.
Qed.

Lemma multiples_below g m :
  (0 < g)%Z ->
  Z.of_nat (length (List.filter (fun t => (Z.of_nat t mod g =? 0)%Z) (seq 0 m)))
  = ((Z.of_nat m + g - 1) / g)%Z.
Proof.
  intros Hg. induction m as [|m IH].
  - simpl. symmetry. apply Z.div_small. lia.
  - rewrite seq_S, List.filter_app, length_app, Nat2Z.inj_add, IH. cbn [List.filter plus].
    pose proof (Z.div_mod (Z.of_nat m) g ltac:(lia)) as H1.
    pose proof (Z.mod_pos_bound (Z.of_nat m) g Hg) as H2.
    destruct (Z.eqb_spec (Z.of_nat m mod g) 0) as [E|E]; cbn [length].
    + assert (((Z.of_nat m + g - 1) / g)%Z = (Z.of_nat m / g)%Z) as ->.
      { symmetry. apply (Z.div_unique _ _ _ (g - 1)); lia. }
      assert (((Z.of_nat (Datatypes.S m) + g - 1) / g)%Z = (Z.of_nat m / g + 1)%Z) as ->.
      { symmetry. apply (Z.div_unique _ _ _ 0); lia. }
      lia.
    + assert (((Z.of_nat m + g - 1) / g)%Z = (Z.of_nat m / g + 1)%Z) as ->.
      { symmetry. apply (Z.div_unique _ _ _ (Z.of_nat m mod g - 1)); lia. }
      assert (((Z.of_nat (Datatypes.S m) + g - 1) / g)%Z = (Z.of_nat m / g + 1)%Z) as ->.
      { symmetry. apply (Z.div_unique _ _ _ (Z.of_nat m mod g)); lia. }
      lia.
Qed.

Lemma update_steps_count g n :
  (0 < g)%Z -> 0 < n ->
  Z.of_nat (length (List.filter
                      (fun t => (Z.of_nat t mod g =? 0)%Z
                                || (Z.of_nat t =? Z.of_nat n - 1)%Z)
                      (seq 0 n)))
  = updates_per_epoch g (Z.of_nat n).
Proof.
  intros Hg Hn. destruct n as [|m]; [lia|].
  rewrite seq_S, List.filter_app, length_app. cbn [List.filter plus].
  replace (Z.of_nat m =? Z.of_nat (Datatypes.S m) - 1)%Z with true
    by (symmetry; apply Z.eqb_eq; lia).
  rewrite orb_true_r. cbn [length].
  rewrite (List.filter_ext_in _ (fun t => (Z.of_nat t mod g =? 0)%Z)).
  2:{ intros t Ht%in_seq.
      replace (Z.of_nat t =? Z.of_nat (Datatypes.S m) - 1)%Z with false
        by (symmetry; apply Z.eqb_neq; lia).
      by rewrite orb_false_r. }
  rewrite Nat2Z.inj_add, multiples_below by done.
  unfold updates_per_epoch.
  replace (Z.of_nat (Datatypes.S m) - 1)%Z with (Z.of_nat m) by lia.
  pose proof (Z.div_mod (Z.of_nat m) g ltac:(lia)) as H1.
  pose proof (Z.mod_pos_bound (Z.of_nat m) g Hg) as H2.
  destruct (Z.eqb_spec (Z.of_nat m mod g) 0) as [E|E].
  - assert (((Z.of_nat m + g - 1) / g)%Z = (Z.of_nat m / g)%Z) as ->.
    { symmetry. apply (Z.div_unique _ _ _ (g - 1)); lia. }
    assert (((Z.of_nat (Datatypes.S m) + g - 1) / g)%Z = (Z.of_nat m / g + 1)%Z) as ->.
    { symmetry. apply (Z.div_unique _ _ _ 0); lia. }
    simpl. lia.
  - assert (((Z.of_nat m + g - 1) / g)%Z = (Z.of_nat m / g + 1)%Z) as ->.
    { symmetry. apply (Z.div_unique _ _ _ (Z.of_nat m mod g - 1)); lia. }
    assert (((Z.of_nat (Datatypes.S m) + g - 1) / g)%Z = (Z.of_nat m / g + 1)%Z) as ->.
    { symmetry. apply (Z.div_unique _ _ _ (Z.of_nat m mod g)); lia. }
    simpl. lia.
Qed.


(** X10.  One epoch of training over [n] batches with [g > 0] accumulation
    steps.  Below the budget [M], the optimizer steps once for each
    multiple of [g] below [n] and once more for the last batch when that
    is not at a multiple, and the epoch stops as soon as the budget is
    met.  At or above the budget, the epoch still runs its first batch and
    one optimizer step.  [completed_steps] counts the optimizer steps. *)
Theorem train_batches_budget n g M epoch c trace :
  (0 < g)%Z ->
  exists trace',
    train_batches (Z.of_nat n) g M epoch (range (Z.of_nat n)) c trace
    = Ok (completed_after_epoch g M (Z.of_nat n) c, trace ++ trace') /\
    updates trace' = (completed_after_epoch g M (Z.of_nat n) c - c)%Z /\
    ((M <= c)%Z -> 0 < n -> trace' = [Backward epoch 0; Update]).
Proof.
  intros Hg. unfold range, completed_after_epoch. rewrite Nat2Z.id.
  destruct n as [|m].
  { exists []. change (Z.of_nat 0 <=? 0)%Z with true. cbn. rewrite app_nil_r.
    split; [done|]. split; [lia | intros _ ?; lia]. }
  replace (Z.of_nat (Datatypes.S m) <=? 0)%Z with false
    by (symmetry; apply Z.leb_gt; lia).
  destruct (Z.ltb_spec c M) as [Hc|Hc].
  - destruct (train_batches_from (Datatypes.S m) g M epoch (Datatypes.S m) 0 c trace)
      as (trace' & Ht & Hu); [done | lia | done |].
    rewrite update_steps_count in Ht, Hu by (done || lia).
    exists trace'. split; [exact Ht|]. split; [exact Hu | intros ?; lia].
  - exists [Backward epoch 0; Update].
    cbn [seq map train_batches]. unfold py_mod.
    replace (g =? 0)%Z with false by (symmetry; apply Z.eqb_neq; lia).
    cbn [mbind outcome_bind]. rewrite Z.mod_0_l by lia. cbn [Z.eqb orb].
    replace (M <=? c + 1)%Z with true by (symmetry; apply Z.leb_le; lia).
    rewrite <- app_assoc. cbn [app updates foldr]. split; [done|]. split; [lia | done].
Qed.

End TrainingFacts.

Section EvaluationFacts.
  Variable exp_overflows : Q -> bool.
  Variable exp_value : Q -> Q.
  Variable eval_losses : list event -> list Q.
  Variable gather : list Q -> list Q.
  Variable len_train_dataloader : Z.
  Variable len_eval_dataset : nat.

Lemma mapM_Ok {A B} (f : A -> B) (l : list A) :
  mapM (M := outcome) (fun x => Ok (f x)) l = Ok (map f l).
Proof.
  induction l as [|x l IH]; [done|]. cbn [mapM map]. rewrite IH. reflexivity.
Qed.

Lemma report_perplexity_ok (losses : list (list Q)) n :
  losses <> [] ->
  report_perplexity exp_overflows exp_value losses n
  = Ok (perplexity_of exp_overflows exp_value (torch_mean (take n (concat losses)))).
Proof.
  intros Hne. unfold report_perplexity, perplexity_of, torch_cat.
  destruct losses as [|l0 losses]; [done|]. cbn [mbind outcome_bind].
  destruct (torch_mean _) as [q| | |]; cbn [math_exp]; try done.
  by destruct (exp_overflows q).
Qed.

(** The evaluation of an epoch on a loader that yields batches. *)
Lemma evaluate_ok a epoch trace :
  (0 <= per_device_eval_batch_size a)%Z ->
  eval_losses (trace ++ [Eval]) <> [] ->
  evaluate exp_overflows exp_value eval_losses gather len_eval_dataset a epoch trace
  = Ok (trace ++ [Eval;
          Report epoch
            (perplexity_of exp_overflows exp_value
               (torch_mean
                  (take len_eval_dataset
                     (concat (map (fun loss =>
                                     gather (replicate
                                               (Z.to_nat (per_device_eval_batch_size a)) loss))
                                  (eval_losses (trace ++ [Eval])))))))]).
Proof.
  intros HB Hne. unfold evaluate.
  replace (per_device_eval_batch_size a <? 0)%Z with false
    by (symmetry; apply Z.ltb_ge; lia).
  rewrite mapM_Ok. cbn [mbind outcome_bind].
  rewrite report_perplexity_ok.
  - cbn [mbind outcome_bind]. by rewrite <- app_assoc.
  - destruct (eval_losses _); [done | discriminate].
Qed.



(** X11.  With [--eval_only] the function does no training at all: when the
    plan has an epoch, it evaluates once and reports one perplexity;
    when the plan has none, it does nothing. *)
Theorem eval_only_evaluates_once a M E :
  eval_only a = true ->
  plan_steps len_train_dataloader a = Ok (M, E) ->
  (0 <= per_device_eval_batch_size a)%Z ->
  eval_losses [Eval] <> [] ->
  exists p,
    train_with_prepped_dataset exp_overflows exp_value eval_losses gather
      len_train_dataloader len_eval_dataset a
    = Ok (0%Z, if (0 <? E)%Z then [Eval; Report 0 p] else []).
Proof.
  intros He Hplan HB Hl. unfold train_with_prepped_dataset. rewrite Hplan.
  cbn [mbind outcome_bind]. unfold range.
  destruct (Z.ltb_spec 0 E) as [HE|HE].
  - destruct (Z.to_nat E) as [|k] eqn:Hk; [lia|].
    cbn [seq map epochs_loop]. rewrite He. cbn [mbind outcome_bind].
    rewrite (evaluate_ok a _ [] HB Hl). cbn [mbind outcome_bind app]. eauto.
  - replace (Z.to_nat E) with 0 by lia. exists NaN. reflexivity.
Qed.


Lemma Qsum_app xs ys : (Qsum (xs ++ ys) == Qsum xs + Qsum ys)%Q.
Proof.
  unfold Qsum. induction xs as [|x xs IH]; simpl; [ring|]. rewrite IH. ring.
Qed.

Lemma Qsum_replicate k x : (Qsum (replicate k x) == inject_Z (Z.of_nat k) * x)%Q.
Proof.
  unfold Qsum. induction k as [|k IH]; [simpl; ring|].
  cbn [replicate foldr]. rewrite IH, Nat2Z.inj_succ.
  unfold Z.succ. rewrite inject_Z_plus. ring.
Qed.

Lemma Qsum_repeated k xs :
  (Qsum (concat (map (replicate k) xs)) == inject_Z (Z.of_nat k) * Qsum xs)%Q.
Proof.
  induction xs as [|x xs IH]; [unfold Qsum; simpl; ring|].
  cbn [map concat]. rewrite Qsum_app, Qsum_replicate, IH.
  change (Qsum (x :: xs)) with (x + Qsum xs)%Q. ring.
Qed.

Lemma length_repeated {A} k (xs : list A) :
  length (concat (map (replicate k) xs)) = length xs * k.
Proof.
  induction xs as [|x xs IH]; [done|].
  cbn [map concat length]. rewrite length_app, length_replicate, IH. lia.
Qed.

(** X13.  On one process ([gather] returns its argument), with batches of [B]
    examples of which the last may be smaller, the mean that the
    perplexity is taken of weighs the loss of each batch by the number of
    its examples: the loss of every batch is repeated [B] times and the
    list is cut at the size of the dataset. *)
Theorem evaluation_weighs_batches a epoch trace init final :
  (forall l, gather l = l) ->
  (0 < per_device_eval_batch_size a)%Z ->
  eval_losses (trace ++ [Eval]) = init ++ [final] ->
  length init * Z.to_nat (per_device_eval_batch_size a) < len_eval_dataset ->
  len_eval_dataset <= (length init + 1) * Z.to_nat (per_device_eval_batch_size a) ->
  exists mean,
    (mean ==
     (inject_Z (per_device_eval_batch_size a) * Qsum init
      + inject_Z (Z.of_nat len_eval_dataset
                  - Z.of_nat (length init) * per_device_eval_batch_size a) * final)
     / inject_Z (Z.of_nat len_eval_dataset))%Q /\
    evaluate exp_overflows exp_value eval_losses gather len_eval_dataset a epoch trace
    = Ok (trace ++ [Eval; Report epoch (perplexity_of exp_overflows exp_value (Finite mean))]).
Proof.
  intros Hgather HB Hl Hlo Hhi.
  set (B := Z.to_nat (per_device_eval_batch_size a)) in *.
  rewrite evaluate_ok; [|lia|rewrite Hl; by destruct init].
  fold B. rewrite Hl.
  rewrite (map_ext _ (replicate B)) by (intros; apply Hgather).
  rewrite map_app, concat_app. cbn [map concat]. rewrite app_nil_r.
  pose proof (length_repeated B init) as Hlen.
  rewrite take_app_ge by lia. rewrite Hlen, take_replicate.
  replace (Nat.min (len_eval_dataset - length init * B) B)
    with (len_eval_dataset - length init * B) by lia.
  set (r := len_eval_dataset - length init * B).
  set (xs := concat (map (replicate B) init) ++ replicate r final).
  assert (Hxs : length xs = len_eval_dataset).
  { unfold xs. rewrite length_app, Hlen, length_replicate. unfold r. lia. }
  assert (Hmean : torch_mean xs
                  = Finite (Qsum xs / inject_Z (Z.of_nat len_eval_dataset))).
  { unfold torch_mean. destruct xs as [|x xs'] eqn:E; [simpl in Hxs; lia|].
    by rewrite Hxs. }
  rewrite Hmean. eexists. split; [|reflexivity].
  unfold xs. rewrite Qsum_app, Qsum_repeated, Qsum_replicate.
  assert (HB' : inject_Z (Z.of_nat B) == inject_Z (per_device_eval_batch_size a))
    by (unfold B; by rewrite Z2Nat.id by lia).
  assert (Hr : inject_Z (Z.of_nat r)
               == inject_Z (Z.of_nat len_eval_dataset
                            - Z.of_nat (length init) * per_device_eval_batch_size a)).
  { unfold r. rewrite Nat2Z.inj_sub by lia. rewrite Nat2Z.inj_mul.
    unfold B. by rewrite Z2Nat.id by lia. }
  rewrite HB', Hr. reflexivity.
Qed.





End EvaluationFacts.

(** ** [_measure_ppl] *)

Section MeasureFacts.
  Context {char : Type} `{EqDecision char}.
  Variable isspace : char -> bool.
  Variable decode : Z -> list char.
  Context {row : Type}.
  Variable logits : list Z -> list row.
  Variable cross_entropy : row -> Z -> Q.

  (** The test of line 642 on a token. *)
  Local Abbreviation matches word tok :=
    (startswith word (strip isspace (decode tok)) = true).

Lemma find_match_spec word sentence : forall i,
  match find_match isspace decode word i sentence with
  | Some idx =>
      exists k tok,
        idx = (i + Z.of_nat k - 1)%Z /\ sentence !! k = Some tok /\ matches word tok /\
        forall j tok', j < k -> sentence !! j = Some tok' -> ~ matches word tok'
  | None => Forall (fun tok => ~ matches word tok) sentence
  end.
Proof.
  induction sentence as [|tok sentence IH]; intros i; cbn [find_match]; [by constructor|].
  destruct (startswith word (strip isspace (decode tok))) eqn:E.
  - exists 0, tok. split; [lia|]. split; [done|]. split; [done|]. intros j ? Hj. lia.
  - specialize (IH (i + 1)%Z).
    destruct (find_match isspace decode word (i + 1) sentence) as [idx|].
    + destruct IH as (k & tok' & -> & Hk & Hm & Hfirst).
      exists (Datatypes.S k), tok'. split; [lia|]. split; [done|]. split; [done|].
      intros [|j] t Hj Ht.
      * injection Ht as <-. by rewrite E.
      * apply (Hfirst j t); [lia | done].
    + constructor; [by rewrite E | done].
Qed.

Lemma find_match_first word sentence idx :
  find_match isspace decode word 0 sentence = Some idx <->
  exists k tok,
    idx = (Z.of_nat k - 1)%Z /\ sentence !! k = Some tok /\ matches word tok /\
    forall j tok', j < k -> sentence !! j = Some tok' -> ~ matches word tok'.
Proof.
  pose proof (find_match_spec word sentence 0) as Hspec. split.
  - intros Hf. rewrite Hf in Hspec.
    destruct Hspec as (k & tok & -> & H1 & H2 & H3). exists k, tok.
    split; [lia | done].
  - intros (k & tok & -> & Hk & Hm & Hfirst).
    destruct (find_match isspace decode word 0 sentence) as [idx|].
    + destruct Hspec as (k' & tok' & -> & Hk' & Hm' & Hfirst').
      destruct (Nat.lt_trichotomy k k') as [Hlt|[->|Hlt]].
      * by destruct (Hfirst' k tok Hlt Hk).
      * f_equal; lia.
      * by destruct (Hfirst k' tok' Hlt Hk').
    + rewrite Forall_forall in Hspec.
      destruct (Hspec tok); [by eapply list_elem_of_lookup_2 | done].
Qed.

Lemma find_match_none word sentence :
  find_match isspace decode word 0 sentence = None <->
  Forall (fun tok => ~ matches word tok) sentence.
Proof.
  pose proof (find_match_spec word sentence 0) as Hspec. split.
  - intros Hf. by rewrite Hf in Hspec.
  - intros Hall. destruct (find_match isspace decode word 0 sentence) as [idx|]; [|done].
    destruct Hspec as (k & tok & _ & Hk & Hm & _).
    rewrite Forall_forall in Hall.
    destruct (Hall tok); [by eapply list_elem_of_lookup_2 | done].
Qed.

(** X15.  The index kept for a word is the position of the first token of the
    sentence whose decoded and stripped text starts the word, minus one:
    it is -1 when the first token matches, as a token of white space only
    always does; there is no index when no token matches. *)
Theorem special_index_is_first_match word sentence :
  (forall idx,
     find_match isspace decode word 0 sentence = Some idx <->
     exists k tok,
       idx = (Z.of_nat k - 1)%Z /\ sentence !! k = Some tok /\ matches word tok /\
       forall j tok', j < k -> sentence !! j = Some tok' -> ~ matches word tok') /\
  (find_match isspace decode word 0 sentence = None <->
   Forall (fun tok => ~ matches word tok) sentence) /\
  (forall tok rest,
     sentence = tok :: rest -> Forall (fun c => isspace c = true) (decode tok) ->
     find_match isspace decode word 0 sentence = Some (-1)%Z).
Proof.
  split; [intros idx; apply find_match_first|]. split; [apply find_match_none|].
  intros tok rest -> Hws. cbn [find_match].
  assert (Hl : forall s, Forall (fun c => isspace c = true) s -> lstrip isspace s = []).
  { induction 1 as [|c s Hc _ IH]; [done|]. cbn [lstrip]. by rewrite Hc. }
  unfold strip. rewrite (Hl _ Hws). cbn. destruct word; reflexivity.
Qed.

Lemma special_idxs_loop_spec (pairs : list (list char * list Z)) : forall acc,
  match special_idxs_loop isspace decode pairs acc with
  | Done idxs =>
      exists new, idxs = acc ++ new /\
        Forall2 (fun ws idx => find_match isspace decode ws.1 0 ws.2 = Some idx) pairs new
  | Failed e =>
      e = AssertionError /\
      Exists (fun ws => find_match isspace decode ws.1 0 ws.2 = None) pairs
  end.
Proof.
  induction pairs as [|[word sentence] pairs IH]; intros acc; cbn [special_idxs_loop].
  - exists []. by rewrite app_nil_r.
  - destruct (find_match isspace decode word 0 sentence) as [idx|] eqn:E.
    + specialize (IH (acc ++ [idx])).
      destruct (special_idxs_loop isspace decode pairs (acc ++ [idx])) as [idxs|e].
      * destruct IH as (new & -> & Hall). exists (idx :: new).
        split; [by rewrite <- app_assoc|]. by constructor.
      * destruct IH as [-> Hex]. split; [done|]. by apply Exists_cons_tl.
    + split; [done|]. by apply Exists_cons_hd.
Qed.

Lemma nlls_loop_spec (pairs : list (list Z * Z)) : forall acc,
  match nlls_loop logits cross_entropy pairs acc with
  | Done nlls =>
      exists new, nlls = acc ++ new /\
        Forall2 (fun si x => (s ← surprisals logits cross_entropy si.1; item s si.2) = Done x)
                pairs new
  | Failed e => exists b, e = Builtin b
  end.
Proof.
  induction pairs as [|[sentence idx] pairs IH]; intros acc; cbn [nlls_loop].
  - exists []. by rewrite app_nil_r.
  - destruct (surprisals logits cross_entropy sentence) as [s|e] eqn:Es;
      cbn [mbind attempt_bind].
    2:{ unfold surprisals in Es. destruct (_ =? _); [done|]. injection Es as <-. eauto. }
    destruct (item s idx) as [x|e] eqn:Ei; cbn [mbind attempt_bind].
    2:{ unfold item in Ei. destruct (_ <? 0)%Z; [injection Ei as <-; eauto|].
        destruct (s !! _); [done|]. injection Ei as <-. eauto. }
    specialize (IH (acc ++ [x])).
    destruct (nlls_loop logits cross_entropy pairs (acc ++ [x])) as [nlls|e]; [|done].
    destruct IH as (new & -> & Hall). exists (x :: new).
    split; [by rewrite <- app_assoc|]. constructor; [|done].
    cbn [fst snd]. rewrite Es. cbn [mbind attempt_bind]. exact Ei.
Qed.

(** X16.  An [AssertionError] is what [_measure_ppl] raises exactly when, among
    the words and sentences that [zip] pairs, some word has no matching
    token in its sentence; the check of all the pairs comes before the
    model is run on any sentence. *)
Theorem measure_ppl_assertion words input_ids :
  _measure_ppl isspace decode logits cross_entropy words input_ids = Failed AssertionError
  <-> exists i word sentence,
        words !! i = Some word /\ input_ids !! i = Some sentence /\
        Forall (fun tok => ~ matches word tok) sentence.
Proof.
  unfold _measure_ppl.
  pose proof (special_idxs_loop_spec (zip words input_ids) []) as H1.
  destruct (special_idxs_loop isspace decode (zip words input_ids) []) as [idxs|e];
    cbn [mbind attempt_bind].
  - destruct H1 as (new & -> & Hall). split.
    + intros Hf. pose proof (nlls_loop_spec (zip input_ids ([] ++ new)) []) as H2.
      rewrite Hf in H2. by destruct H2 as [b Hb].
    + intros (i & word & sentence & Hw & Hs & Hno).
      assert (Hz : zip words input_ids !! i = Some (word, sentence)).
      { rewrite lookup_zip_with. by rewrite Hw, Hs. }
      destruct (Forall2_lookup_l _ _ _ _ _ Hall Hz) as (idx & _ & Hidx).
      cbn [fst snd] in Hidx.
      apply find_match_none in Hno.
      congruence.
  - destruct H1 as [-> Hex]. split; [|done]. intros _.
    apply Exists_exists in Hex as ([word sentence] & Hin & Hnone).
    apply list_elem_of_lookup in Hin as [i Hi].
    rewrite lookup_zip_with in Hi.
    destruct (words !! i) as [w|] eqn:Hw; [|done].
    destruct (input_ids !! i) as [s|] eqn:Hs; [|done].
    injection Hi as -> ->. exists i, word, sentence.
    split; [done|]. split; [done|].
    by apply find_match_none.
Qed.

Lemma surprisals_ok sentence :
  length (logits sentence) = length sentence ->
  surprisals logits cross_entropy sentence
  = Done (zip_with cross_entropy (removelast (logits sentence)) (drop 1 sentence)).
Proof.
  intros Hl. unfold surprisals.
  rewrite removelast_firstn_len, length_take, length_drop, Hl.
  rewrite (proj2 (Nat.eqb_eq _ _)); [done | lia].
Qed.

Lemma lookup_surprisals sentence j r tok :
  length (logits sentence) = length sentence ->
  logits sentence !! j = Some r -> sentence !! (j + 1) = Some tok ->
  zip_with cross_entropy (removelast (logits sentence)) (drop 1 sentence) !! j
  = Some (cross_entropy r tok).
Proof.
  intros Hl Hr Htok. rewrite lookup_zip_with.
  rewrite removelast_firstn_len.
  apply lookup_lt_Some in Htok as Hlt.
  rewrite lookup_take_lt by lia. rewrite Hr. cbn [mbind option_bind].
  rewrite lookup_drop. replace (1 + j) with (j + 1) by lia. by rewrite Htok.
Qed.

(** The surprisal taken for a sentence of at least two tokens on which
    the model gives a row of logits for each token, when the first token
    that matches the word is at position [k]. *)
Lemma reported_surprisal sentence k tok :
  length (logits sentence) = length sentence ->
  2 <= length sentence ->
  sentence !! k = Some tok ->
  exists r tok',
    logits sentence !! (if k =? 0 then length sentence - 2 else k - 1) = Some r /\
    sentence !! (if k =? 0 then length sentence - 1 else k) = Some tok' /\
    (s ← surprisals logits cross_entropy sentence; item s (Z.of_nat k - 1))
    = Done (cross_entropy r tok').
Proof.
  intros Hl HL Hk.
  apply lookup_lt_Some in Hk as Hklt.
  set (j := if k =? 0 then length sentence - 2 else k - 1).
  assert (Hj : j + 1 = (if k =? 0 then length sentence - 1 else k) /\ j + 1 < length sentence).
  { unfold j. destruct (Nat.eqb_spec k 0); lia. }
  destruct Hj as [Hj1 Hj2]. rewrite <- Hj1.
  destruct (lookup_lt_is_Some_2 (logits sentence) j) as [r Hr]; [lia|].
  destruct (lookup_lt_is_Some_2 sentence (j + 1)) as [tok' Htok']; [lia|].
  exists r, tok'. split; [done|]. split; [done|].
  rewrite surprisals_ok by done. cbn [mbind attempt_bind].
  set (s := zip_with cross_entropy _ _).
  assert (Hs : s !! j = Some (cross_entropy r tok')) by (by apply lookup_surprisals).
  assert (Hlen : length s = length sentence - 1).
  { unfold s. rewrite length_zip_with, removelast_firstn_len, length_take, length_drop. lia. }
  unfold item. rewrite Hlen. unfold j in Hs.
  destruct (Nat.eqb_spec k 0) as [->|Hk0].
  - change (Z.of_nat 0 - 1 <? 0)%Z with true. cbv iota.
    destruct (Z.ltb_spec (Z.of_nat 0 - 1 + Z.of_nat (length sentence - 1)) 0); [lia|].
    replace (Z.to_nat (Z.of_nat 0 - 1 + Z.of_nat (length sentence - 1)))
      with (length sentence - 2) by lia.
    by rewrite Hs.
  - destruct (Z.ltb_spec (Z.of_nat k - 1) 0); [lia|].
    destruct (Z.ltb_spec (Z.of_nat k - 1) 0); [lia|].
    replace (Z.to_nat (Z.of_nat k - 1)) with (k - 1) by lia.
    by rewrite Hs.
Qed.

Lemma nlls_loop_total (pairs : list (list Z * Z)) : forall xs acc,
  Forall2 (fun si x => (s ← surprisals logits cross_entropy si.1; item s si.2) = Done x)
          pairs xs ->
  nlls_loop logits cross_entropy pairs acc = Done (acc ++ xs).
Proof.
  induction pairs as [|[sentence idx] pairs IH]; intros xs acc Hall.
  - apply Forall2_nil_inv_l in Hall as ->. cbn. by rewrite app_nil_r.
  - apply Forall2_cons_inv_l in Hall as (x & xs' & Hx & Hall & ->).
    cbn [nlls_loop]. cbn [fst snd] in Hx.
    destruct (surprisals logits cross_entropy sentence) as [s|e]; [|done].
    cbn [mbind attempt_bind] in Hx |- *. rewrite Hx. cbn [mbind attempt_bind].
    rewrite (IH xs' (acc ++ [x]) Hall). by rewrite <- app_assoc.
Qed.

(** X17.  What [_measure_ppl] collects, when every sentence that [zip] pairs
    with a word has at least two tokens, a row of logits for each of them
    and a token that matches the word: one surprisal for each pair.  If
    the first matching token of the sentence is at position [k >= 1], it
    is the surprisal of that token given the tokens before it, the
    cross-entropy of row [k - 1] against token [k].  If it is the first
    token, the index is -1, which counts from the end, and the surprisal
    collected is that of the last token of the sentence. *)
Theorem measure_ppl_reports words input_ids :
  (forall i word sentence,
     words !! i = Some word -> input_ids !! i = Some sentence ->
     length (logits sentence) = length sentence /\ 2 <= length sentence /\
     exists tok, tok ∈ sentence /\ matches word tok) ->
  exists nlls,
    _measure_ppl isspace decode logits cross_entropy words input_ids = Done nlls /\
    length nlls = Nat.min (length words) (length input_ids) /\
    forall i word sentence k tok,
      words !! i = Some word -> input_ids !! i = Some sentence ->
      sentence !! k = Some tok -> matches word tok ->
      (forall j tok', j < k -> sentence !! j = Some tok' -> ~ matches word tok') ->
      exists r tok',
        logits sentence !! (if k =? 0 then length sentence - 2 else k - 1) = Some r /\
        sentence !! (if k =? 0 then length sentence - 1 else k) = Some tok' /\
        nlls !! i = Some (cross_entropy r tok').
Proof.
  intros Hyp. unfold _measure_ppl.
  pose proof (special_idxs_loop_spec (zip words input_ids) []) as H1.
  destruct (special_idxs_loop isspace decode (zip words input_ids) []) as [idxs|e].
  2:{ destruct H1 as [_ Hex]. exfalso.
      apply Exists_exists in Hex as ([word sentence] & Hin & Hnone).
      apply list_elem_of_lookup in Hin as [i Hi].
      rewrite lookup_zip_with in Hi.
      destruct (words !! i) as [w|] eqn:Hw; [|done].
      destruct (input_ids !! i) as [s|] eqn:Hs; [|done].
      injection Hi as -> ->.
      destruct (Hyp i word sentence Hw Hs) as (_ & _ & tok & Hin & Hm).
      apply find_match_none in Hnone.
      rewrite Forall_forall in Hnone. by destruct (Hnone tok Hin). }
  destruct H1 as (new & -> & Hall). cbn [app mbind attempt_bind].
  assert (Hlen : length new = Nat.min (length words) (length input_ids)).
  { apply Forall2_length in Hall. rewrite length_zip_with in Hall. lia. }
  assert (Hpt : forall i word sentence k tok,
            words !! i = Some word -> input_ids !! i = Some sentence ->
            sentence !! k = Some tok -> matches word tok ->
            (forall j tok', j < k -> sentence !! j = Some tok' -> ~ matches word tok') ->
            new !! i = Some (Z.of_nat k - 1)%Z).
  { intros i word sentence k tok Hw Hs Hk Hm Hfirst.
    assert (Hz : zip words input_ids !! i = Some (word, sentence)).
    { rewrite lookup_zip_with. by rewrite Hw, Hs. }
    destruct (Forall2_lookup_l _ _ _ _ _ Hall Hz) as (idx & Hidx & Hf).
    cbn [fst snd] in Hf. rewrite Hidx. f_equal.
    assert (Hf' : find_match isspace decode word 0 sentence = Some (Z.of_nat k - 1)%Z).
    { apply find_match_first. eauto 10. }
    congruence. }
  assert (Hsteps : Forall (fun si : list Z * Z => exists x,
            (s ← surprisals logits cross_entropy si.1; item s si.2) = Done x)
            (zip input_ids new)).
  { apply Forall_forall. intros [sentence idx] Hin.
    apply list_elem_of_lookup in Hin as [i Hi].
    rewrite lookup_zip_with in Hi.
    destruct (input_ids !! i) as [s|] eqn:Hs; [|done].
    destruct (new !! i) as [x|] eqn:Hx; [|done].
    injection Hi as -> ->.
    assert (Hlt : i < length words).
    { apply lookup_lt_Some in Hx. lia. }
    destruct (lookup_lt_is_Some_2 words i Hlt) as [word Hw].
    destruct (Hyp i word sentence Hw Hs) as (Hl & HL & _).
    assert (Hz : zip words input_ids !! i = Some (word, sentence)).
    { rewrite lookup_zip_with. by rewrite Hw, Hs. }
    destruct (Forall2_lookup_l _ _ _ _ _ Hall Hz) as (idx' & Hidx & Hf).
    cbn [fst snd] in Hf. rewrite Hx in Hidx. injection Hidx as <-.
    apply find_match_first in Hf as (k & tok & -> & Hk & Hm & Hfirst).
    destruct (reported_surprisal sentence k tok Hl HL Hk) as (r & tok' & _ & _ & Hr).
    cbn [fst snd]. eauto. }
  assert (Hxs : exists xs, Forall2 (fun (si : list Z * Z) x =>
            (s ← surprisals logits cross_entropy si.1; item s si.2) = Done x)
            (zip input_ids new) xs).
  { clear -Hsteps. induction Hsteps as [|si l [x Hx] _ [xs IH]].
    - exists []. constructor.
    - exists (x :: xs). by constructor. }
  destruct Hxs as [xs Hxs].
  rewrite (nlls_loop_total _ xs [] Hxs). cbn [app].
  exists xs. split; [done|].
  assert (Hlxs : length xs = Nat.min (length words) (length input_ids)).
  { apply Forall2_length in Hxs. rewrite length_zip_with in Hxs. lia. }
  split; [exact Hlxs|].
  intros i word sentence k tok Hw Hs Hk Hm Hfirst.
  destruct (Hyp i word sentence Hw Hs) as (Hl & HL & _).
  destruct (reported_surprisal sentence k tok Hl HL Hk) as (r & tok' & Hr & Htok' & Hrep).
  exists r, tok'. split; [done|]. split; [done|].
  assert (Hz : zip input_ids new !! i = Some (sentence, (Z.of_nat k - 1)%Z)).
  { rewrite lookup_zip_with. rewrite Hs. cbn [mbind option_bind].
    by rewrite (Hpt i word sentence k tok Hw Hs Hk Hm Hfirst). }
  destruct (Forall2_lookup_l _ _ _ _ _ Hxs Hz) as (x & Hx & Hstep).
  cbn [fst snd] in Hstep. rewrite Hrep in Hstep. injection Hstep as <-. exact Hx.
Qed.

End MeasureFacts.

(** ** [_gen_xfacts]: the dataset and the store it leaves *)

Section BuilderMore.
  Variable partial : (list Q -> Q) -> list Q -> nat -> Q.
  Variable forward : bool -> list (tensor Q) -> tensor Q -> tensor Q.
  Variable CrossEntropyLoss : tensor Q -> tensor Z -> Q.
  Variable last_hidden_states : batch -> tensor Q.
  Variable probe : loc.
  Variable max_train_steps : Z.

(** Lines 586 to 588 on the caches of the searches [exec]: the views are
    read in the store that the loops leave. *)
Lemma stack_dataset hidden st' (exec : list (loc * batch)) :
  exec <> [] ->
  Forall (fun hb => exists o,
            tensors st' !! hb.1 = Some o /\
            shape (t_val o) = [1; seq_len hb.2; hidden] /\
            length (data (t_val o)) = seq_len hb.2 * hidden) exec ->
  Forall (fun hb => length (data (input_ids hb.2)) = seq_len hb.2) exec ->
  (z_primes ← mapM (read_view st')
                 (map (fun hb => shifted_view (seq_len hb.2) hidden hb.1) exec);
   stacked_z_primes ← vstack z_primes;
   stacked_input_ids ← vstack (map (fun hb => shifted_ids (seq_len hb.2) hb.2) exec);
   TensorDataset stacked_z_primes stacked_input_ids)
  = Some (flat_map (fun hb => next_token_pairs (val_at st' hb.1) (input_ids hb.2)) exec).
Proof.
  intros Hexec Hall Hids.
  assert (Hvals : Forall (fun hb =>
            shape (val_at st' hb.1) = [1; seq_len hb.2; hidden] /\
            length (data (val_at st' hb.1)) = seq_len hb.2 * hidden) exec).
  { eapply Forall_impl; [exact Hall|]. intros hb (o & Ho & Hs & Hl).
    unfold val_at. rewrite Ho. done. }
  rewrite (mapM_read_view hidden st' exec Hall). cbn [mbind option_bind].
  rewrite (vstack_matrices hidden (fun hb => seq_len hb.2 - 1)
             (fun hb => take (numel [seq_len hb.2 - 1; hidden])
                             (drop 0 (data (val_at st' hb.1)))) exec Hexec).
  cbn [mbind option_bind]. unfold shifted_ids.
  rewrite (vstack_matrices 1 (fun hb : loc * batch => seq_len hb.2 - 1)
             (fun hb => drop 1 (data (input_ids hb.2))) exec Hexec).
  cbn [mbind option_bind]. unfold TensorDataset. cbn [shape].
  rewrite decide_True by done. f_equal.
  rewrite !rows_stack.
  - rewrite zip_concat_map.
    + rewrite flat_map_concat_map. f_equal. apply map_ext_in.
      intros hb Hin%list_elem_of_In.
      rewrite Forall_forall in Hvals. destruct (Hvals hb Hin) as [Hs Hl].
      rewrite <- (shifted_rows_pairs (seq_len hb.2) hidden) by done. reflexivity.
    + apply Forall_forall. intros hb _. by rewrite !length_rows.
  - apply Forall_forall. intros hb Hin.
    rewrite Forall_forall in Hids. rewrite length_drop, (Hids hb Hin). lia.
  - apply Forall_forall. intros hb Hin.
    rewrite Forall_forall in Hvals. destruct (Hvals hb Hin) as [Hs Hl].
    rewrite length_take, drop_0, Hl. unfold numel. simpl. nia.
Qed.

Lemma loop_body_modules c criterion z s_prime st l st' l' :
  loop_body partial forward c criterion z probe s_prime (st, l) = Some (st', l') ->
  modules st' = modules st.
Proof.
  unfold loop_body.
  destruct (alter zero_grad_obj z (tensors st) !! z) as [zo|]; [|done].
  cbn [mbind option_bind].
  destruct (modules st !! probe) as [m|]; [|done]. cbn [mbind option_bind].
  destruct (read_vals _ _) as [pvals|]; [|done]. cbn [mbind option_bind].
  destruct (sgd_step _ _ _ _) as [ts2 buf].
  destruct (update_patience _ _ _) as [patience minl].
  by intros [= <- _].
Qed.

Lemma while_preserves {S} (cond : S -> bool) (body : S -> option S) (brk : S -> bool)
    (P : S -> Prop) fuel : forall s s',
  (forall s s', body s = Some s' -> P s -> P s') ->
  P s -> while cond body brk fuel s = Some s' -> P s'.
Proof.
  induction fuel as [|fuel IH]; intros s s' Hbody Hs; cbn [while].
  - destruct (cond s); [done|]. by intros [= <-].
  - destruct (cond s); [|by intros [= <-]].
    destruct (body s) as [s1|] eqn:E; [|done].
    destruct (brk s1); [intros [= <-]; by eapply Hbody|].
    apply IH; [done|]. by eapply Hbody.
Qed.

Lemma alter_eval_mode_idemp (ms : gmap loc module_obj) :
  alter eval_mode probe (alter eval_mode probe ms) = alter eval_mode probe ms.
Proof.
  apply map_eq. intros q. destruct (decide (probe = q)) as [->|Hne].
  - rewrite !lookup_alter_eq. by destruct (ms !! q).
  - by rewrite !lookup_alter_ne.
Qed.

Lemma alter_eval_train_mode (ms : gmap loc module_obj) :
  alter eval_mode probe (alter train_mode probe ms) = alter eval_mode probe ms.
Proof.
  apply map_eq. intros q. destruct (decide (probe = q)) as [->|Hne].
  - rewrite !lookup_alter_eq. by destruct (ms !! q).
  - by rewrite !lookup_alter_ne.
Qed.

(** A search puts the probe in evaluation mode and changes no other module
    and no flag after that. *)
Lemma gen_counterfactual_modules z s_prime criterion st st' z' :
  gen_counterfactual partial forward CrossEntropyLoss z probe s_prime criterion st
  = Some (st', z') ->
  modules st' = alter eval_mode probe (modules st).
Proof.
  unfold gen_counterfactual, gen_counterfactual_with, search_run.
  destruct (prepare z probe st) as [st0|] eqn:Hp; [|done]. cbn [mbind option_bind].
  assert (Hm0 : modules st0 = alter eval_mode probe (modules st)).
  { unfold prepare in Hp. destruct (tensors st !! z); [|done].
    destruct (modules st !! probe); [|done]. by injection Hp as <-. }
  destruct (while _ _ _ _ _) as [[st1 l1]|] eqn:Hw; [|done].
  cbn [mbind option_bind fst]. intros [= <- _].
  apply (while_preserves _ _ _ (fun sl => modules sl.1 = alter eval_mode probe (modules st))
           _ _ _) in Hw; [done| |done].
  intros [sa la] [sb lb] Hb Ha. cbn [fst] in *.
  apply loop_body_modules in Hb. congruence.
Qed.

Lemma targets_loop_modules targets : forall h b st cs st' cs',
  targets <> [] ->
  targets_loop partial forward CrossEntropyLoss probe max_train_steps targets h b st cs
  = Some (st', cs') ->
  modules st' = alter eval_mode probe (modules st).
Proof.
  induction targets as [|targ_s targets IH]; intros h b st cs st' cs' Hne; [done|].
  rewrite targets_loop_unfold.
  destruct (gen_counterfactual _ _ _ _ _ _ _ _) as [[st1 z1]|] eqn:Hg; [|done].
  apply gen_counterfactual_modules in Hg.
  cbn [mbind option_bind fst snd].
  destruct (squeezed_z ← squeeze0 st1 z1; contiguous <$> drop_last_row squeezed_z)
    as [shifted_z|]; [|done].
  cbn [mbind option_bind].
  destruct (drop_first_row _) as [shifted_labels|]; [|done].
  cbn [mbind option_bind].
  destruct (_ <=? _)%Z; [by intros [= <- _]|].
  destruct targets as [|t targets'].
  - cbn [targets_loop]. by intros [= <- _].
  - intros Ht. apply IH in Ht; [|done]. rewrite Ht, Hg. apply alter_eval_mode_idemp.
Qed.

Lemma batches_loop_modules batches : forall st cs st' cs',
  batches <> [] ->
  batches_loop partial forward CrossEntropyLoss last_hidden_states probe max_train_steps
    batches st cs = Some (st', cs') ->
  modules st' = alter eval_mode probe (modules st).
Proof.
  induction batches as [|b batches IH]; intros st cs st' cs' Hne; [done|].
  cbn [batches_loop]. unfold new_tensor.
  destruct (targets_loop _ _ _ _ _ _ _ _ _ _) as [[st1 cs1]|] eqn:Ht; [|done].
  apply targets_loop_modules in Ht; [|done]. cbn [modules] in Ht.
  cbn [mbind option_bind].
  destruct (_ <=? _)%Z; [by intros [= <- _]|].
  destruct batches as [|b' batches'].
  - cbn [batches_loop]. by intros [= <- _].
  - intros Hb. apply IH in Hb; [|done]. rewrite Hb, Ht. apply alter_eval_mode_idemp.
Qed.

(** The builder on batches of one example: what it returns and what it
    leaves in the store. *)
Lemma gen_xfacts_spec hidden batches st :
  probe_ok st probe ->
  batches <> [] ->
  Forall (unit_batch last_hidden_states hidden) batches ->
  exists st' exec,
    _gen_xfacts partial forward CrossEntropyLoss last_hidden_states probe max_train_steps
      batches st
    = Some (st', flat_map (fun hb => next_token_pairs (val_at st' hb.1) (input_ids hb.2))
                   exec) /\
    exec.*2 = take (Z.to_nat (Z.max 1 max_train_steps))
                (flat_map (fun b => [b; b; b]) batches) /\
    Forall (fun hb => shape (val_at st' hb.1) = [1; seq_len hb.2; hidden]) exec /\
    (forall p, is_Some (tensors st !! p) ->
               meta <$> tensors st' !! p = meta <$> tensors st !! p) /\
    modules st' = alter eval_mode probe (modules st).
Proof.
  intros Hpr Hne Hub.
  set (st_t := State (tensors st) (alter train_mode probe (modules st))).
  assert (Hpr_t : probe_ok st_t probe).
  { destruct Hpr as (m & Hm & Hps). exists (train_mode m). split; [|done].
    unfold st_t. simpl. by rewrite lookup_alter_eq, Hm. }
  destruct (batches_loop_spec partial forward CrossEntropyLoss last_hidden_states probe
              max_train_steps hidden batches st_t
              {| completed_steps := 0; cached_input_ids := []; cached_z_primes := [] |}
              Hpr_t Hub)
    as (st' & exec & Hb & Hex & Hall & _ & Hframe).
  cbn [completed_steps] in Hex. rewrite Z.sub_0_r in Hex.
  assert (Hexec : exec <> []).
  { intros ->. destruct batches as [|b bs]; [done|]. simpl in Hex.
    destruct (Z.to_nat (Z.max 1 max_train_steps)) eqn:E; [lia | done]. }
  assert (Hin : forall hb, hb ∈ exec -> hb.2 ∈ batches).
  { intros hb Hhb.
    assert (Hin2 : hb.2 ∈ exec.*2) by (apply list_elem_of_fmap; eauto).
    rewrite Hex in Hin2. apply subseteq_take, list_elem_of_In, in_flat_map in Hin2
      as (b' & Hb' & Hin3). apply list_elem_of_In.
    simpl in Hin3. by destruct Hin3 as [<-|[<-|[<-|[]]]]. }
  assert (Hids : Forall (fun hb => length (data (input_ids hb.2)) = seq_len hb.2) exec).
  { apply Forall_forall. intros hb Hhb.
    rewrite Forall_forall in Hub. destruct (Hub _ (Hin hb Hhb)) as (len & H1 & H2 & _).
    by rewrite (unit_batch_seq_len _ _ H1). }
  exists st', exec. split; [|split; [exact Hex|split; [|split]]].
  - unfold _gen_xfacts. fold st_t. rewrite Hb.
    cbn [mbind option_bind caches_extend cached_z_primes cached_input_ids app].
    pose proof (stack_dataset hidden st' exec Hexec Hall Hids) as Hstack.
    destruct (mapM _ _) as [z_primes|]; [|done]. cbn [mbind option_bind] in Hstack |- *.
    destruct (vstack z_primes) as [sz|]; [|done]. cbn [mbind option_bind] in Hstack |- *.
    destruct (vstack (map _ exec)) as [si|]; [|done].
    cbn [mbind option_bind] in Hstack |- *. by rewrite Hstack.
  - eapply Forall_impl; [exact Hall|]. intros hb (o & Ho & Hs & _).
    unfold val_at. by rewrite Ho.
  - exact Hframe.
  - apply batches_loop_modules in Hb; [|done]. rewrite Hb. unfold st_t. cbn [modules].
    apply alter_eval_train_mode.
Qed.

(** X18.  Without any batch the builder fails, [torch.vstack] being given an
    empty list; on batches of one example, with a probe whose parameters
    exist, it returns a dataset, which is not empty when the first example
    has two tokens or more. *)
Theorem builder_needs_a_batch hidden batches st :
  probe_ok st probe ->
  Forall (unit_batch last_hidden_states hidden) batches ->
  (is_Some (_gen_xfacts partial forward CrossEntropyLoss last_hidden_states probe
              max_train_steps batches st)
   <-> batches <> []) /\
  (forall b st' ds,
     head batches = Some b -> 2 <= seq_len b ->
     _gen_xfacts partial forward CrossEntropyLoss last_hidden_states probe
       max_train_steps batches st = Some (st', ds) ->
     ds <> []).
Proof.
  intros Hpr Hub. split; [split|].
  - intros [r Hr] ->. done.
  - intros Hne. destruct (gen_xfacts_spec hidden batches st Hpr Hne Hub) as (st' & exec & H & _).
    rewrite H. eauto.
  - intros b st' ds Hhead HL Hr.
    assert (Hne : batches <> []) by (by destruct batches).
    destruct (gen_xfacts_spec hidden batches st Hpr Hne Hub)
      as (st1 & exec & H & Hex & Hsh & _).
    rewrite H in Hr. injection Hr as <- <-.
    destruct batches as [|b0 batches]; [done|]. injection Hhead as ->.
    cbn [flat_map app] in Hex.
    destruct (Z.to_nat (Z.max 1 max_train_steps)) as [|k] eqn:Hk; [lia|].
    cbn [take] in Hex. destruct exec as [|[h b'] exec]; [done|].
    cbn [fmap list_fmap snd] in Hex. injection Hex as -> _.
    apply Forall_cons in Hsh as [Hsh _]. cbn [fst snd] in Hsh.
    cbn [flat_map fst snd]. intros Hnil.
    apply (f_equal length) in Hnil. rewrite length_app in Hnil.
    rewrite (length_next_token_pairs (seq_len b) hidden) in Hnil by done.
    cbn [length] in Hnil. lia.
Qed.

(** X19.  The size of the dataset: the searches that ran are the first
    [max_train_steps] (at least one) of three for each example, and each
    contributes one pair for every token of its example but the first.
    With budget for them all, that is three times the number of those
    tokens. *)
Theorem builder_dataset_size hidden batches st :
  probe_ok st probe ->
  batches <> [] ->
  Forall (unit_batch last_hidden_states hidden) batches ->
  exists st' ds,
    _gen_xfacts partial forward CrossEntropyLoss last_hidden_states probe max_train_steps
      batches st = Some (st', ds) /\
    length ds
    = sum_list (map (fun b => seq_len b - 1)
                  (take (Z.to_nat (Z.max 1 max_train_steps))
                     (flat_map (fun b => [b; b; b]) batches))) /\
    ((3 * Z.of_nat (length batches) <= max_train_steps)%Z ->
     length ds = 3 * sum_list (map (fun b => seq_len b - 1) batches)).
Proof.
  intros Hpr Hne Hub.
  destruct (gen_xfacts_spec hidden batches st Hpr Hne Hub)
    as (st' & exec & H & Hex & Hsh & _).
  eexists _, _. split; [exact H|].
  assert (Hlen : length (flat_map (fun hb => next_token_pairs (val_at st' hb.1)
                                               (input_ids hb.2)) exec)
                 = sum_list (map (fun b => seq_len b - 1) exec.*2)).
  { clear -Hsh. induction Hsh as [|hb exec Hhb _ IH]; [done|].
    cbn [flat_map fmap list_fmap map sum_list sum_list_with].
    rewrite length_app, (length_next_token_pairs (seq_len hb.2) hidden) by done.
    f_equal. exact IH. }
  rewrite Hlen, Hex. split; [done|].
  intros Hbudget. rewrite take_ge.
  - clear. induction batches as [|b batches IH]; [done|].
    cbn [flat_map app map sum_list sum_list_with]. rewrite IH. lia.
  - assert (length (flat_map (fun b => [b; b; b]) batches) = 3 * length batches).
    { clear. induction batches as [|b batches IH]; [done|].
      cbn [flat_map app length]. rewrite IH. lia. }
    lia.
Qed.


(** X21.  The three target classes of an example get the same rows: the views
    cached after each search share the tensor of the example, which is
    read when the dataset is stacked, after the last search.  With one
    example and budget for the three searches, the dataset is three times
    the next-token pairs of the tensor as the search for class 2 left it. *)
Theorem classes_share_rows hidden b st :
  probe_ok st probe ->
  unit_batch last_hidden_states hidden b ->
  (3 <= max_train_steps)%Z ->
  exists st' pairs,
    _gen_xfacts partial forward CrossEntropyLoss last_hidden_states probe max_train_steps
      [b] st = Some (st', pairs ++ pairs ++ pairs) /\
    pairs = next_token_pairs (val_at st' (fresh (dom (tensors st)))) (input_ids b) /\
    length pairs = seq_len b - 1 /\
    chained_searches partial forward CrossEntropyLoss probe (fresh (dom (tensors st)))
      [0; 1; 2]%Z
      (State (<[fresh (dom (tensors st)) := TensorObj (last_hidden_states b) None false]>
                (tensors st))
             (alter train_mode probe (modules st)))
    = Some st'.
Proof.
  intros Hpr (len & Hids & Hidl & Hsh & Hlen) Hbudget.
  set (st_t := State (tensors st) (alter train_mode probe (modules st))).
  assert (Hpr_t : probe_ok st_t probe).
  { destruct Hpr as (m & Hm & Hps). exists (train_mode m). split; [|done].
    unfold st_t. simpl. by rewrite lookup_alter_eq, Hm. }
  set (h := fresh (dom (tensors st))).
  set (cs0 := {| completed_steps := 0; cached_input_ids := []; cached_z_primes := [] |}).
  pose proof (valid_call_new_tensor probe st_t (last_hidden_states b) Hpr_t) as Hv0.
  unfold new_tensor in Hv0. cbn [fst snd tensors modules st_t] in Hv0. fold h in Hv0.
  set (st0 := State (<[h := TensorObj (last_hidden_states b) None false]> (tensors st))
                    (alter train_mode probe (modules st))) in *.
  assert (Hval0 : val_at st0 h = last_hidden_states b).
  { unfold val_at, st0. cbn [tensors]. by rewrite lookup_insert_eq. }
  destruct (targets_loop_spec partial forward CrossEntropyLoss probe max_train_steps
              len hidden h b [0; 1; 2]%Z st0 cs0 Hv0 ltac:(congruence) Hids)
    as (st1 & Ht & Hc & Hv1 & Hs1 & Hl1 & _).
  assert (Hk : searches_run max_train_steps [0; 1; 2]%Z cs0 = 3).
  { unfold searches_run, cs0. cbn [length completed_steps]. lia. }
  rewrite Hk in Ht, Hc. cbn [take] in Hc.
  assert (Hsl : seq_len b = len) by (by apply unit_batch_seq_len).
  assert (Hh1 : exists o, tensors st1 !! h = Some o /\
                  shape (t_val o) = [1; seq_len b; hidden] /\
                  length (data (t_val o)) = seq_len b * hidden).
  { unfold val_at in Hs1, Hl1. unfold st0 in Hs1, Hl1. cbn [tensors] in Hs1, Hl1.
    rewrite lookup_insert_eq in Hs1, Hl1. simpl in Hs1, Hl1.
    destruct (tensors st1 !! h) as [o|] eqn:E.
    - exists o. simpl in *. rewrite Hsl. split; [done|]. split; congruence.
    - unfold valid_call in Hv1. by rewrite E in Hv1. }
  exists st1, (next_token_pairs (val_at st1 h) (input_ids b)).
  split; [|split; [done|split]].
  - unfold _gen_xfacts. cbn [batches_loop]. unfold new_tensor.
    cbn [tensors modules]. fold h. fold st0. fold cs0. rewrite Ht.
    cbn [mbind option_bind caches_after completed_steps cs0].
    assert (Hboth : forall (c : bool) (x : option (state * caches)),
              (if c then x else x) = x) by (by intros []).
    cbn [batches_loop]. rewrite Hboth. cbn [mbind option_bind].
    unfold caches_after, cs0. cbn [cached_z_primes cached_input_ids app replicate].
    destruct Hh1 as (o & Ho & Hso & Hlo).
    assert (Hall : Forall (fun hb : loc * batch => exists o,
              tensors st1 !! hb.1 = Some o /\
              shape (t_val o) = [1; seq_len hb.2; hidden] /\
              length (data (t_val o)) = seq_len hb.2 * hidden) [(h, b); (h, b); (h, b)]).
    { repeat constructor; exists o; done. }
    assert (Hidsl : Forall (fun hb : loc * batch =>
              length (data (input_ids hb.2)) = seq_len hb.2) [(h, b); (h, b); (h, b)]).
    { repeat constructor; cbn [snd]; congruence. }
    assert (Hstack := stack_dataset hidden st1 [(h, b); (h, b); (h, b)]
                        ltac:(done) Hall Hidsl).
    cbn [map fst snd flat_map] in Hstack. rewrite Hsl, app_nil_r in Hstack.
    destruct (mapM _ _) as [z_primes|]; [|done]. cbn [mbind option_bind] in Hstack |- *.
    destruct (vstack z_primes) as [sz|]; [|done]. cbn [mbind option_bind] in Hstack |- *.
    destruct (vstack [_; _; _]) as [si|]; [|done].
    cbn [mbind option_bind] in Hstack |- *. by rewrite Hstack.
  - destruct Hh1 as (o & Ho & Hso & _).
    apply (length_next_token_pairs (seq_len b) hidden).
    unfold val_at. by rewrite Ho.
  - exact Hc.
Qed.

End BuilderMore.

(** ** [parse_args] and [_load_dataset] *)

Section LoadFacts.
  Context {D : Type}.
  Variable load_dataset :
    string -> option string -> option (list (string * string)) -> list (string * bool) ->
    attempt (list (string * D)).
  Variable load_dataset_split :
    string -> option string -> option (list (string * string)) -> string ->
    list (string * bool) -> attempt D.

Lemma parse_args_tail (a : args) (P : Prop) :
  P ->
  (_ ← check_extension (validation_file a);
   if push_to_hub a && bool_decide (output_dir a = None)
   then Failed AssertionError else Done a) = Done a
  <-> P /\ check_extension (validation_file a) = Done tt /\
      (push_to_hub a = true -> output_dir a <> None).
Proof.
  intros HP. destruct (check_extension (validation_file a)) as [[]|e];
    cbn [mbind attempt_bind]; [|split; [done | by intros (_ & ? & _)]].
  destruct (push_to_hub a); cbn [andb].
  - destruct (decide (output_dir a = None)) as [Ho|Ho].
    + rewrite bool_decide_eq_true_2 by done.
      split; [done | intros (_ & _ & H); by destruct H].
    + rewrite bool_decide_eq_false_2 by done. split; [auto | done].
  - split; [intros _; split; [done | split; [done | done]] | done].
Qed.

(** X22.  The checks of [parse_args] ask for one of [--lm_dataset_name],
    [--train_file] and [--validation_file], but [_load_dataset] reads
    [args.train_file] whenever it is given no dataset name: without
    [--train_file], a call without a name raises [AttributeError] before
    it loads anything.  [main] makes such a call for the probe dataset, so
    that a command line that the checks accept, with [--lm_dataset_name]
    and neither [--probe_dataset_name] nor [--train_file], fails there,
    after the first dataset has been loaded. *)
Theorem load_dataset_needs_train_file a :
  train_file a = None ->
  (parse_args a = Done a <->
   (lm_dataset_name a <> None \/ validation_file a <> None) /\
   check_extension (validation_file a) = Done tt /\
   (push_to_hub a = true -> output_dir a <> None)) /\
  (forall dataset_name dataset_config_name use_file,
     dataset_name = None \/ use_file = true ->
     _load_dataset load_dataset load_dataset_split a dataset_name dataset_config_name use_file
     = Failed AttributeError) /\
  (probe_dataset_name a = None ->
   load_raw_datasets load_dataset load_dataset_split a
   = match _load_dataset load_dataset load_dataset_split a
             (lm_dataset_name a) (lm_dataset_config_name a) false with
     | Done _ => Failed AttributeError
     | Failed e => Failed e
     end).
Proof.
  intros Htrain. split.
  { unfold parse_args. rewrite Htrain. cbn [check_extension mbind attempt_bind].
    destruct (decide (lm_dataset_name a = None)) as [Hlm|Hlm];
      destruct (decide (validation_file a = None)) as [Hv|Hv].
    - rewrite !bool_decide_eq_true_2 by done. cbn [andb].
      split; [done | by intros ([?|?] & _)].
    - rewrite (bool_decide_eq_false_2 (validation_file a = None)) by done.
      rewrite !andb_false_r. apply parse_args_tail. auto.
    - rewrite (bool_decide_eq_false_2 (lm_dataset_name a = None)) by done.
      cbn [andb]. apply parse_args_tail. auto.
    - rewrite (bool_decide_eq_false_2 (lm_dataset_name a = None)) by done.
      cbn [andb]. apply parse_args_tail. auto. }
  assert (Hfile : forall dataset_name dataset_config_name use_file,
            dataset_name = None \/ use_file = true ->
            _load_dataset load_dataset load_dataset_split a dataset_name
              dataset_config_name use_file = Failed AttributeError).
  { intros name cfg uf Hcase. unfold _load_dataset. rewrite Htrain.
    destruct name as [name|], uf; try reflexivity. by destruct Hcase. }
  split; [exact Hfile|].
  intros Hprobe. unfold load_raw_datasets.
  destruct (_load_dataset _ _ a (lm_dataset_name a) _ false) as [lm|e];
    cbn [mbind attempt_bind]; [|done].
  rewrite Hprobe, (Hfile None _ false) by auto. reflexivity.
Qed.

End LoadFacts.

(** ** The claims at the instances *)





Lemma C3_early_success_witness :
  exists st',
    gen_counterfactual central_difference linear_probe first_logit
      1%positive 3%positive (Tensor [1] [1%Z]) (Some squared_error) (example_state 1)
    = Some (st', 1%positive).
Proof.
  destruct (C3_early_success central_difference linear_probe first_logit
              1%positive 3%positive (Tensor [1] [1%Z]) (Some squared_error)
              (example_state 1)
              ltac:(vm_compute; reflexivity) ltac:(vm_compute; congruence))
    as (st' & H & _).
  exists st'. exact H.
Defined.

Lemma C4_shape_and_in_place_witness :
  exists st',
    gen_counterfactual central_difference linear_probe squared_error
      1%positive 3%positive (Tensor [1] [1%Z]) None (example_state 2)
    = Some (st', 1%positive) /\
    shape (val_at st' 1%positive) = [1; 2; 2].
Proof.
  destruct (C4_shape_and_in_place central_difference linear_probe squared_error
              1%positive 3%positive (Tensor [1] [1%Z]) None (example_state 2)
              ltac:(vm_compute; reflexivity))
    as (st' & n & H & Hs & _).
  exists st'. split; [exact H | exact Hs].
Defined.

Lemma C6_deterministic_witness :
  exists st1' st2',
    gen_counterfactual central_difference linear_probe squared_error
      1%positive 3%positive (Tensor [1] [1%Z]) None (example_state 2)
    = Some (st1', 1%positive) /\
    gen_counterfactual central_difference linear_probe squared_error
      5%positive 9%positive (Tensor [1] [1%Z]) None stale_state
    = Some (st2', 5%positive) /\
    val_at st1' 1%positive = val_at st2' 5%positive.
Proof.
  destruct (C6_deterministic central_difference linear_probe squared_error
              1%positive 3%positive (example_state 2)
              5%positive 9%positive stale_state (Tensor [1] [1%Z]) None
              ltac:(vm_compute; reflexivity) ltac:(vm_compute; reflexivity)
              ltac:(vm_compute; reflexivity) ltac:(vm_compute; reflexivity))
    as (st1' & st2' & l & H1 & H2 & _ & _ & Hv).
  exists st1', st2'. split; [exact H1|]. split; [exact H2 | exact Hv].
Defined.

Lemma C9_probe_parameters_unchanged_witness :
  exists st',
    gen_counterfactual central_difference linear_probe squared_error
      1%positive 3%positive (Tensor [1] [1%Z]) None (example_state 2)
    = Some (st', 1%positive) /\
    param_vals st' 3%positive = [Tensor [4] [1; 0; 0; 0]%Q].
Proof.
  destruct (C9_probe_parameters_unchanged central_difference linear_probe squared_error
              1%positive 3%positive (Tensor [1] [1%Z]) None (example_state 2)
              ltac:(vm_compute; reflexivity))
    as (st' & m & H & _ & _ & _ & _ & Hp).
  exists st'. split; [exact H | exact Hp].
Defined.

Lemma example_batches_unit : Forall (unit_batch example_hidden 2) example_batches.
Proof.
  repeat constructor.
  - exists 3. repeat split; reflexivity.
  - exists 2. repeat split; reflexivity.
Qed.

Lemma probe_state_ok : probe_ok probe_state 3%positive.
Proof.
  exists (ModuleObj false [2%positive]). split; [reflexivity|].
  repeat constructor. by eexists.
Qed.



Lemma C7_perplexity_overflow_witness :
  report_perplexity double_exp_overflows (fun q => q) [[1000; 2000]%Q; [3000]%Q] 3
  = Ok PosInf.
Proof.
  apply (C7_perplexity_overflow double_exp_overflows (fun q => q)
           [[1000; 2000]%Q; [3000]%Q] 3 [1000; 2000; 3000]%Q);
    vm_compute; reflexivity.
Defined.

(** A concatenation shorter than one block is kept as a block: 3 tokens
    with a block size of 5 give one block of 3 tokens. *)
Lemma C8_short_input_counterexample :
  group_texts 5 short_columns
  = Ok [("input_ids", [[1; 2; 3]]); ("attention_mask", [[1; 1; 1]]);
        ("labels", [[1; 2; 3]])]%Z.
Proof. vm_compute. reflexivity. Qed.

Lemma C8_group_texts_witness :
  exists r chunks,
    group_texts 2 example_columns = Ok r /\
    dict_get "input_ids" r = Some chunks /\
    dict_get "labels" r = Some chunks /\
    concat chunks = [1; 2; 3; 4]%Z.
Proof.
  destruct (C8_group_texts 2 example_columns [[1; 2]; [3; 4; 5]]%Z
              ltac:(lia) ltac:(reflexivity)
              ltac:(intros k v [= <- <-]; reflexivity))
    as (r & chunks & H & Hi & Hl & Hge & _).
  exists r, chunks. split; [exact H|]. split; [exact Hi|]. split; [exact Hl|].
  destruct (Hge ltac:(vm_compute; congruence)) as (_ & _ & Hc). exact Hc.
Defined.

Lemma C10_shared_tensor_witness :
  exists st1 st2 st3,
    gen_counterfactual central_difference linear_probe squared_error
      1%positive 3%positive (Tensor [1] [0%Z]) None (example_state 2) = Some (st1, 1%positive) /\
    gen_counterfactual central_difference linear_probe squared_error
      1%positive 3%positive (Tensor [1] [1%Z]) None st1 = Some (st2, 1%positive) /\
    gen_counterfactual central_difference linear_probe squared_error
      1%positive 3%positive (Tensor [1] [2%Z]) None st2 = Some (st3, 1%positive) /\
    targets_loop central_difference linear_probe squared_error 3%positive 3
      [0; 1; 2]%Z 1%positive (Batch (Tensor [1; 2] [8; 9]%Z)) (example_state 2)
      {| completed_steps := 0; cached_input_ids := []; cached_z_primes := [] |}
    = Some (st3,
            caches_after
              {| completed_steps := 0; cached_input_ids := []; cached_z_primes := [] |}
              3 2 2 1%positive (Batch (Tensor [1; 2] [8; 9]%Z))).
Proof.
  destruct (C10_shared_tensor central_difference linear_probe squared_error
              3%positive 3 2 2 1%positive (Batch (Tensor [1; 2] [8; 9]%Z))
              (example_state 2)
              {| completed_steps := 0; cached_input_ids := []; cached_z_primes := [] |}
              ltac:(vm_compute; reflexivity) ltac:(reflexivity) ltac:(reflexivity)
              ltac:(vm_compute; congruence))
    as (st1 & st2 & st3 & n0 & n1 & n2 & H0 & H1 & H2 & Ht & _).
  exists st1, st2, st3. split; [exact H0|]. split; [exact H1|]. split; [exact H2 | exact Ht].
Defined.

(** ** The further properties at the instances *)

Lemma patience_break_is_dead_witness :
  exists st' n,
    gen_counterfactual central_difference linear_probe squared_error
      1%positive 3%positive (Tensor [1] [1%Z]) None (example_state 2)
    = Some (st', 1%positive) /\ 1 <= n <= 100.
Proof.
  destruct (patience_break_is_dead central_difference linear_probe squared_error
              1%positive 3%positive (Tensor [1] [1%Z]) None (example_state 2)
              ltac:(vm_compute; reflexivity))
    as (st' & n & H & _ & Hn & _).
  exists st', n. split; assumption.
Defined.

Lemma gradient_left_on_tensor_witness :
  exists st' o,
    gen_counterfactual central_difference linear_probe squared_error
      1%positive 3%positive (Tensor [1] [1%Z]) None (example_state 2)
    = Some (st', 1%positive) /\
    tensors st' !! 1%positive = Some o /\ t_requires_grad o = true /\
    is_Some (t_grad o).
Proof.
  destruct (gradient_left_on_tensor central_difference linear_probe squared_error
              1%positive 3%positive (Tensor [1] [1%Z]) None (example_state 2)
              ltac:(vm_compute; reflexivity))
    as (st' & n & o & H & Ho & _ & Hr & Hg).
  exists st', o. split; [exact H|]. split; [exact Ho|]. split; [exact Hr|].
  rewrite Hg. eexists. reflexivity.
Defined.

Lemma group_texts_columns_witness :
  exists r,
    group_texts 2 example_columns = Ok r /\
    keys r = ["input_ids"; "attention_mask"; "labels"] /\
    dict_get "attention_mask" r = Some [[1; 1]; [1; 1]]%Z.
Proof.
  destruct (group_texts_columns 2 example_columns "input_ids" [[1; 2]; [3; 4; 5]]%Z
              [[1; 2]; [3; 4; 5]]%Z ltac:(lia) ltac:(reflexivity) ltac:(reflexivity))
    as (r & H & Hk & Hc & _).
  exists r. split; [exact H|]. split; [exact Hk|].
  exact (Hc "attention_mask" [[1; 1]; [1; 1; 1]]%Z ltac:(discriminate) ltac:(reflexivity)).
Defined.

Lemma group_texts_negative_block_size_witness :
  exists r,
    group_texts (-2) example_columns = Ok r /\ Forall (fun kv => kv.2 = []) r.
Proof.
  destruct (group_texts_negative_block_size (-2) example_columns
              ltac:(lia) ltac:(discriminate) ltac:(eexists; reflexivity))
    as (r & H & _ & Hall).
  exists r. split; assumption.
Defined.

Lemma train_lm_chunk_lengths_witness :
  exists r chunks,
    train_lm_group_texts example_args 512 example_columns = Ok r /\
    dict_get "input_ids" r = Some chunks.
Proof.
  destruct (train_lm_chunk_lengths example_args 512 example_columns
              "input_ids" [[1; 2]; [3; 4; 5]]%Z [[1; 2]; [3; 4; 5]]%Z
              ltac:(lia) ltac:(discriminate) ltac:(reflexivity) ltac:(reflexivity))
    as (r & chunks & H & Hc & _).
  exists r, chunks. split; assumption.
Defined.



Lemma train_batches_budget_witness :
  exists trace',
    train_batches 4 2 6 0 (range 4) 0 [] = Ok (3%Z, trace') /\ updates trace' = 3%Z.
Proof.
  destruct (train_batches_budget 4 2 6 0 0 [] ltac:(lia)) as (trace' & H & Hu & _).
  exists trace'. split; [exact H | exact Hu].
Defined.

Lemma eval_only_evaluates_once_witness :
  exists p,
    train_with_prepped_dataset double_exp_overflows (fun q => q) example_eval_losses
      single_process 4 3 eval_only_args
    = Ok (0%Z, [Eval; Report 0 p]).
Proof.
  exact (eval_only_evaluates_once double_exp_overflows (fun q => q) example_eval_losses
           single_process 4 3 eval_only_args 7 4
           ltac:(reflexivity) ltac:(vm_compute; reflexivity) ltac:(vm_compute; congruence)
           ltac:(discriminate)).
Defined.


Lemma evaluation_weighs_batches_witness :
  exists mean,
    (mean == (2 * 1 + 1 * 2) / 3)%Q /\
    evaluate double_exp_overflows (fun q => q) example_eval_losses single_process 3
      example_args 0 []
    = Ok [Eval; Report 0 (perplexity_of double_exp_overflows (fun q => q) (Finite mean))].
Proof.
  destruct (evaluation_weighs_batches double_exp_overflows (fun q => q)
              example_eval_losses single_process 3 example_args 0 [] [1%Q] 2%Q
              ltac:(reflexivity) ltac:(reflexivity) ltac:(reflexivity)
              ltac:(vm_compute; lia) ltac:(vm_compute; lia))
    as (mean & Hm & H).
  exists mean. split; [|exact H]. rewrite Hm. reflexivity.
Defined.


Lemma measure_ppl_reports_witness :
  exists nlls,
    _measure_ppl ascii_isspace example_decode example_logits example_cross_entropy
      [example_word] [example_sentence] = Done nlls /\
    nlls !! 0 = Some (example_cross_entropy 5 6).
Proof.
  destruct (measure_ppl_reports ascii_isspace example_decode example_logits
              example_cross_entropy [example_word] [example_sentence])
    as (nlls & H & _ & Hpt).
  - intros [|i] word sentence Hw Hs; [|discriminate].
    injection Hw as <-. injection Hs as <-.
    split; [reflexivity|]. split; [vm_compute; lia|].
    exists 6%Z. split; [|vm_compute; reflexivity].
    apply list_elem_of_further, list_elem_of_here.
  - exists nlls. split; [exact H|].
    destruct (Hpt 0 example_word example_sentence 1 6%Z
                ltac:(reflexivity) ltac:(reflexivity) ltac:(reflexivity)
                ltac:(vm_compute; reflexivity))
      as (r & tok' & Hr & Htok & Hn).
    + intros [|j] tok' Hj Htok; [|lia]. injection Htok as <-. vm_compute. discriminate.
    + injection Hr as <-. injection Htok as <-. exact Hn.
Defined.

Lemma builder_needs_a_batch_witness :
  is_Some (_gen_xfacts central_difference linear_probe squared_error example_hidden
             3%positive 4 example_batches probe_state).
Proof.
  apply (builder_needs_a_batch central_difference linear_probe squared_error
           example_hidden 3%positive 4 2 example_batches probe_state
           probe_state_ok example_batches_unit).
  discriminate.
Defined.

Lemma builder_dataset_size_witness :
  exists st' ds,
    _gen_xfacts central_difference linear_probe squared_error example_hidden
      3%positive 4 example_batches probe_state = Some (st', ds) /\
    length ds = 7.
Proof.
  destruct (builder_dataset_size central_difference linear_probe squared_error
              example_hidden 3%positive 4 2 example_batches probe_state
              probe_state_ok ltac:(discriminate) example_batches_unit)
    as (st' & ds & H & Hl & _).
  exists st', ds. split; [exact H | exact Hl].
Defined.


Lemma classes_share_rows_witness :
  exists st' pairs,
    _gen_xfacts central_difference linear_probe squared_error example_hidden
      3%positive 4 [Batch (Tensor [1; 3] [5; 6; 7]%Z)] probe_state
    = Some (st', pairs ++ pairs ++ pairs) /\
    length pairs = 2.
Proof.
  destruct (classes_share_rows central_difference linear_probe squared_error
              example_hidden 3%positive 4 2 (Batch (Tensor [1; 3] [5; 6; 7]%Z)) probe_state
              probe_state_ok
              ltac:(exists 3; repeat split; reflexivity) ltac:(lia))
    as (st' & pairs & H & _ & Hl & _).
  exists st', pairs. split; [exact H | exact Hl].
Defined.

Lemma load_dataset_needs_train_file_witness :
  parse_args example_args = Done example_args /\
  load_raw_datasets example_load_dataset example_load_dataset_split example_args
  = Failed AttributeError.
Proof.
  destruct (load_dataset_needs_train_file example_load_dataset example_load_dataset_split
              example_args ltac:(reflexivity))
    as (Hp & _ & Hl).
  split.
  - apply Hp. split; [left; discriminate|]. split; [reflexivity | discriminate].
  - exact (Hl ltac:(reflexivity)).
Defined.
